(** * reconPoint: scan lifecycle service and webhook manager

    A shallow embedding of [web/services/scan_service.py] and
    [web/reconPoint/webhook_manager.py], followed by the properties of the
    scan lifecycle, progress computation, webhook delivery, signing and
    subscription registry that are stated about them.  The validation
    helpers of [web/services/base_service.py] and the actions of
    [web/api/viewsets] that call the scan service are embedded as well.

    Conventions.
    - A Python [str] is a [string] holding one [ascii] per character, so the
      characters range over code points 0..255; [.encode('utf-8')] is
      [Py.encode_utf8], which is exact on that range.  Where the characters
      beyond that range matter (what [verify_signature] raises), a [str] is
      the list of its code points ([Unicode]).
    - A Python [int] is a [Z].  [None] is [None] of an [option].  A Python
      [float] is the exact value of a binary64 number, and each operation
      rounds to the nearest one.
    - [timezone.now()] and [datetime.utcnow()] are read from an explicit
      argument.
    - A function that raises returns [inl e]; the database part of the state
      is then the one before the call ([transaction.atomic]). *)

From Stdlib Require Import ZArith QArith Qround Qpower SpecFloat Lia Lqa Ascii String OrdersEx.
From stdpp Require Import gmap strings list fin_maps pretty sorting.

#[local] Open Scope string_scope.
#[local] Open Scope list_scope.
#[local] Open Scope Z_scope.

(** ** Python built-ins used by the two files *)

Module Py.

(** Truthiness of an optional string: [None] and [''] are falsy. *)
Definition truthy_str (s : option string) : bool :=
  match s with
  | None | Some EmptyString => false
  | Some _ => true
  end.

(** [s[:n]] for [0 <= n]. *)
Fixpoint str_take (n : nat) (s : string) : string :=
  match n, s with
  | S n', String c s' => String c (str_take n' s')
  | _, _ => EmptyString
  end.

(** [s[n:]] for [0 <= n]. *)
Fixpoint str_drop (n : nat) (s : string) : string :=
  match n, s with
  | S n', String _ s' => str_drop n' s'
  | _, _ => s
  end.

(** [s.startswith(p)]. *)
Fixpoint startswith (p s : string) : bool :=
  match p, s with
  | EmptyString, _ => true
  | String a p', String b s' => if decide (a = b) then startswith p' s' else false
  | String _ _, EmptyString => false
  end.

(** [x in l] for a list of integers. *)
Definition in_ints (x : Z) (l : list Z) : bool := bool_decide (x ∈ l).

(** [range(n)]. *)
Definition range (n : Z) : list Z := seqZ 0 n.

Definition code (c : ascii) : Z := Z.of_N (N_of_ascii c).

(** [s.encode('utf-8')]: one byte below 128, two bytes from 128 to 255. *)
Definition encode_char (c : ascii) : list Z :=
  let n := code c in
  if n <? 128 then [n]
  else [Z.lor 192 (Z.shiftr n 6); Z.lor 128 (Z.land n 63)].

Fixpoint encode_utf8 (s : string) : list Z :=
  match s with
  | EmptyString => []
  | String c s' => encode_char c ++ encode_utf8 s'
  end.

(** [s.isascii()]. *)
Fixpoint isascii (s : string) : bool :=
  match s with
  | EmptyString => true
  | String c s' => (code c <? 128) && isascii s'
  end.

End Py.

(** ** [services/scan_service.py] *)

Module ScanService.

(** The two exceptions of [reconPoint.error_handlers] the service raises. *)
Inductive Exception : Type :=
| ResourceNotFoundException (resource : string) (identifier : Z)
| ValidationException (message : string).

Record User : Type := { username : string }.

(** [domain_project] is the name of the domain's project, [None] for a
    domain without project (the foreign key is nullable). *)
Record Domain : Type := {
  domain_name : string;
  domain_project : option string;
  domain_start_scan_date : option Z
}.

(** [engine_tasks] is [None] when the engine has no [tasks] attribute, and
    [Some v] when it has one of value [v] (a list, or [None]). *)
Record EngineType : Type := {
  engine_name : string;
  engine_tasks : option (option (list string))
}.

(** A row of [ScanHistory]; its primary key is the key it is stored under. *)
Record ScanHistory : Type := {
  domain : Z;
  scan_type : Z;
  start_scan_date : Z;
  scan_status : Z;
  initiated_by : User;
  aborted_by : option User;
  stop_scan_date : option Z;
  error_message : option string;
  tasks : option (list string);
  celery_ids : list string;
  cfg_out_of_scope_subdomains : list string;
  cfg_imported_subdomains : list string
}.

(** A row of [ScanActivity]. *)
Record ScanActivity : Type := {
  activity_scan : Z;
  activity_title : string;
  activity_name : string;
  activity_status : Z;
  activity_time : Z;
  activity_error : option string
}.

(** The state the service works on: the tables, the primary-key sequence of
    [ScanHistory], the revocations sent to Celery and the log. *)
Record World : Type := {
  domains : gmap Z Domain;
  engines : gmap Z EngineType;
  scans : gmap Z ScanHistory;
  scan_seq : Z;
  activities : list ScanActivity;
  revoked : list string;
  log : list string
}.

Definition set_scans (f : gmap Z ScanHistory → gmap Z ScanHistory) (w : World) : World :=
  {| domains := domains w; engines := engines w; scans := f (scans w);
     scan_seq := scan_seq w; activities := activities w;
     revoked := revoked w; log := log w |}.

Definition set_domains (f : gmap Z Domain → gmap Z Domain) (w : World) : World :=
  {| domains := f (domains w); engines := engines w; scans := scans w;
     scan_seq := scan_seq w; activities := activities w;
     revoked := revoked w; log := log w |}.

Definition set_scan_seq (n : Z) (w : World) : World :=
  {| domains := domains w; engines := engines w; scans := scans w;
     scan_seq := n; activities := activities w;
     revoked := revoked w; log := log w |}.

Definition add_revoked (c : string) (w : World) : World :=
  {| domains := domains w; engines := engines w; scans := scans w;
     scan_seq := scan_seq w; activities := activities w;
     revoked := revoked w ++ [c]; log := log w |}.

Definition add_log (line : string) (w : World) : World :=
  {| domains := domains w; engines := engines w; scans := scans w;
     scan_seq := scan_seq w; activities := activities w;
     revoked := revoked w; log := log w ++ [line] |}.

Definition with_status (st : Z) (s : ScanHistory) : ScanHistory :=
  {| domain := domain s; scan_type := scan_type s;
     start_scan_date := start_scan_date s; scan_status := st;
     initiated_by := initiated_by s; aborted_by := aborted_by s;
     stop_scan_date := stop_scan_date s; error_message := error_message s;
     tasks := tasks s; celery_ids := celery_ids s;
     cfg_out_of_scope_subdomains := cfg_out_of_scope_subdomains s;
     cfg_imported_subdomains := cfg_imported_subdomains s |}.

Definition with_error_message (m : option string) (s : ScanHistory) : ScanHistory :=
  {| domain := domain s; scan_type := scan_type s;
     start_scan_date := start_scan_date s; scan_status := scan_status s;
     initiated_by := initiated_by s; aborted_by := aborted_by s;
     stop_scan_date := stop_scan_date s; error_message := m;
     tasks := tasks s; celery_ids := celery_ids s;
     cfg_out_of_scope_subdomains := cfg_out_of_scope_subdomains s;
     cfg_imported_subdomains := cfg_imported_subdomains s |}.

Definition with_stop_scan_date (d : option Z) (s : ScanHistory) : ScanHistory :=
  {| domain := domain s; scan_type := scan_type s;
     start_scan_date := start_scan_date s; scan_status := scan_status s;
     initiated_by := initiated_by s; aborted_by := aborted_by s;
     stop_scan_date := d; error_message := error_message s;
     tasks := tasks s; celery_ids := celery_ids s;
     cfg_out_of_scope_subdomains := cfg_out_of_scope_subdomains s;
     cfg_imported_subdomains := cfg_imported_subdomains s |}.

Definition with_aborted_by (u : option User) (s : ScanHistory) : ScanHistory :=
  {| domain := domain s; scan_type := scan_type s;
     start_scan_date := start_scan_date s; scan_status := scan_status s;
     initiated_by := initiated_by s; aborted_by := u;
     stop_scan_date := stop_scan_date s; error_message := error_message s;
     tasks := tasks s; celery_ids := celery_ids s;
     cfg_out_of_scope_subdomains := cfg_out_of_scope_subdomains s;
     cfg_imported_subdomains := cfg_imported_subdomains s |}.

(** [ScanHistory.objects.filter(domain=d, scan_status__in=sts).exists()] *)
Definition exists_scan (w : World) (d : Z) (sts : list Z) : bool :=
  bool_decide (map_Exists (λ _ s, domain s = d ∧ scan_status s ∈ sts) (scans w)).

(** [create_scan], called without extra keyword arguments.  The new row
    takes the next value of the primary-key sequence. *)
Definition create_scan (domain_id scan_type_id : Z) (initiated_by_user : User)
    (out_of_scope_subdomains imported_subdomains : option (list string))
    (now : Z) (w : World) : (Exception + Z * ScanHistory) * World :=
  match domains w !! domain_id with
  | None => (inl (ResourceNotFoundException "Domain" domain_id), w)
  | Some dom =>
    match engines w !! scan_type_id with
    | None => (inl (ResourceNotFoundException "EngineType" scan_type_id), w)
    | Some eng =>
      if exists_scan w domain_id [-1; 1] then
        (inl (ValidationException
                ("There is already a running scan for domain '"
                 +:+ domain_name dom +:+ "'")), w)
      else
        let scan :=
          {| domain := domain_id; scan_type := scan_type_id;
             start_scan_date := now; scan_status := -1;
             initiated_by := initiated_by_user; aborted_by := None;
             stop_scan_date := None; error_message := None;
             tasks := default (Some []) (engine_tasks eng); celery_ids := [];
             cfg_out_of_scope_subdomains := default [] out_of_scope_subdomains;
             cfg_imported_subdomains := default [] imported_subdomains |} in
        let pk := scan_seq w in
        let dom' := {| domain_name := domain_name dom;
                       domain_project := domain_project dom;
                       domain_start_scan_date := Some now |} in
        let w1 := set_scan_seq (pk + 1) (set_scans (insert pk scan) w) in
        let w2 := set_domains (insert domain_id dom') w1 in
        let w3 := add_log ("Created scan " +:+ pretty pk +:+ " for domain "
                           +:+ domain_name dom +:+ " using engine "
                           +:+ engine_name eng +:+ " by user "
                           +:+ username initiated_by_user) w2 in
        (inr (pk, scan), w3)
    end
  end.

(** [update_scan_status] *)
Definition update_scan_status (scan_id status : Z) (error_message : option string)
    (now : Z) (w : World) : (Exception + ScanHistory) * World :=
  if negb (Py.in_ints status [-1; 0; 1; 2; 3]) then
    (inl (ValidationException
            ("Invalid scan status: " +:+ pretty status
             +:+ ". Must be -1, 0, 1, 2, or 3")), w)
  else
    match scans w !! scan_id with
    | None => (inl (ResourceNotFoundException "ScanHistory" scan_id), w)
    | Some scan =>
      let scan1 := with_status status scan in
      let scan2 :=
        if Py.truthy_str error_message
        then with_error_message (Some (Py.str_take 300 (default "" error_message))) scan1
        else scan1 in
      let scan3 :=
        if Py.in_ints status [0; 2; 3] && negb (bool_decide (is_Some (stop_scan_date scan2)))
        then with_stop_scan_date (Some now) scan2
        else scan2 in
      let w1 := set_scans (insert scan_id scan3) w in
      let w2 := add_log ("Updated scan " +:+ pretty scan_id +:+ " status to "
                         +:+ pretty status) w1 in
      (inr scan3, w2)
    end.

(** The loop of [abort_scan] over [scan.celery_ids]: [revoke_error c] is
    [Some e] when [app.control.revoke(c, terminate=True)] raises [e]. *)
Fixpoint revoke_all (revoke_error : string → option string) (ids : list string)
    (w : World) : World :=
  match ids with
  | [] => w
  | c :: rest =>
    let w1 := add_revoked c w in
    let w2 :=
      match revoke_error c with
      | Some e => add_log ("Failed to revoke celery task " +:+ c +:+ ": " +:+ e) w1
      | None => w1
      end in
    revoke_all revoke_error rest w2
  end.

(** [abort_scan] *)
Definition abort_scan (scan_id : Z) (user : User)
    (revoke_error : string → option string) (now : Z) (w : World)
    : (Exception + ScanHistory) * World :=
  match scans w !! scan_id with
  | None => (inl (ResourceNotFoundException "ScanHistory" scan_id), w)
  | Some scan =>
    if negb (Py.in_ints (scan_status scan) [-1; 1]) then
      (inl (ValidationException
              ("Cannot abort scan with status " +:+ pretty (scan_status scan)
               +:+ ". Only pending or running scans can be aborted.")), w)
    else
      let w1 := revoke_all revoke_error (celery_ids scan) w in
      let scan' := with_aborted_by (Some user)
                     (with_stop_scan_date (Some now) (with_status 3 scan)) in
      let w2 := set_scans (insert scan_id scan') w1 in
      let w3 := add_log ("User " +:+ username user +:+ " aborted scan "
                         +:+ pretty scan_id) w2 in
      (inr scan', w3)
  end.

(** A number of the result: an [int], or a [float] given by its exact
    value. *)
Inductive Number : Type :=
| PyInt (n : Z)
| PyFloat (x : Q).

Definition number_value (n : Number) : Q :=
  match n with
  | PyInt n => inject_Z n
  | PyFloat x => x
  end.

(** The value under ['progress'] in the result of [get_scan_details]. *)
Record Progress : Type := {
  total_tasks : Z;
  completed_tasks : Z;
  percentage : Number
}.

(** What [get_scan_details] raises: the exception of the service, or the
    [AttributeError] of an attribute read on [None]. *)
Inductive DetailsError : Type :=
| ServiceError (e : Exception)
| AttributeError (message : string).

(** [.order_by('time')] *)
Definition time_le (a b : ScanActivity) : Prop := activity_time a ≤ activity_time b.

#[global] Instance time_le_dec : RelDecision time_le :=
  λ a b, decide (activity_time a ≤ activity_time b).

Definition order_by_time (l : list ScanActivity) : list ScanActivity :=
  merge_sort time_le l.

(** [scan.scanactivity_set.all()] *)
Definition scanactivity_set (scan_id : Z) (w : World) : list ScanActivity :=
  filter (λ a, activity_scan a = scan_id) (activities w).

(** The nearest integer to an exact number, ties to the even one. *)
Definition round_half_even (q : Q) : Z :=
  let fl := Qfloor q in
  match Qcompare (q - inject_Z fl) (1 # 2) with
  | Lt => fl
  | Gt => fl + 1
  | Eq => if Z.even fl then fl else fl + 1
  end.

(** *** Python floats

    A [float] is an IEEE 754 binary64 number, here its exact value as a
    rational; every operation gives the float nearest to the exact result,
    ties to the even significand.  The numbers met are never negative.  The
    exponent range of binary64 is not modelled: quotients of two counts
    below [2 ** 63] and their products with 100 lie between [2 ** -63] and
    [2 ** 70], far inside it (outside it Python gives a subnormal number or
    an infinity, or raises [OverflowError]). *)

Definition pow2 (k : Z) : Q := (2 ^ k)%Q.

(** For [0 < q], the [k] with [2 ** k <= q < 2 ** (k + 1)]. *)
Definition log2_floor (q : Q) : Z :=
  let d := Z.log2 (Qnum q) - Z.log2 (Zpos (Qden q)) in
  if Qle_bool (pow2 d) q then d else d - 1.

(** The float nearest to [q], for [0 <= q]: [q] rounded to 53 significant
    bits. *)
Definition nearest (q : Q) : Q :=
  if Qle_bool q 0 then 0%Q
  else
    let e := log2_floor q - 52 in
    Qred (inject_Z (round_half_even (q / pow2 e)) * pow2 e).

(** [a / b] on two [int]s, [0 <= a] and [0 < b]: the quotient, correctly
    rounded. *)
Definition true_divide (a b : Z) : Q := nearest (inject_Z a / inject_Z b).

(** [x * n] for a float [x] and an [int] [n] that is a float exactly. *)
Definition float_mul (x : Q) (n : Z) : Q := nearest (x * inject_Z n).

(** [round(x, 2)] on a float: the exact value of [x] is rounded to two
    decimals, ties to the even digit, and the result is the float nearest to
    that decimal number. *)
Definition round2 (x : Q) : Q :=
  nearest (inject_Z (round_half_even (x * inject_Z 100)) / inject_Z 100).

(** [round(x, 2)]; an [int] is returned as it is. *)
Definition round_ndigits2 (x : Number) : Number :=
  match x with
  | PyInt n => PyInt n
  | PyFloat x => PyFloat (round2 x)
  end.

(** [scan.domain.project], [None] for a domain without project.  The
    domain of a stored scan exists (foreign key); a state without the row is
    answered like a domain without project. *)
Definition scan_project (scan : ScanHistory) (w : World) : option string :=
  domains w !! domain scan ≫= domain_project.

(** [get_scan_details], as far as the entry ['progress'] of its result.  The
    dictionary is built after the progress is computed; its entry
    [scan.domain.project.name] raises for a domain without project. *)
Definition get_scan_details (scan_id : Z) (w : World) : DetailsError + Progress :=
  match scans w !! scan_id with
  | None => inl (ServiceError (ResourceNotFoundException "ScanHistory" scan_id))
  | Some scan =>
    let acts := order_by_time (scanactivity_set scan_id w) in
    let total :=
      match tasks scan with
      | Some (t :: ts) => Z.of_nat (length (t :: ts))
      | _ => 0
      end in
    let completed := Z.of_nat (length (filter (λ a, activity_status a = 2) acts)) in
    let progress_percentage :=
      if 0 <? total
      then PyFloat (float_mul (true_divide completed total) 100)
      else PyInt 0 in
    match scan_project scan w with
    | None => inl (AttributeError "'NoneType' object has no attribute 'name'")
    | Some _ =>
      inr {| total_tasks := total; completed_tasks := completed;
             percentage := round_ndigits2 progress_percentage |}
    end
  end.

End ScanService.

(** The quotient and the product of [get_scan_details] by the IEEE 754
    specification of the Standard Library (binary64: precision 53, largest
    exponent 1024), to check [nearest] against. *)
Module IEEE.
Import ScanService.

Definition of_int (n : Z) : spec_float :=
  match n with
  | Zpos p => S754_finite false p 0
  | _ => S754_zero false
  end.

(** The exact value of a float that is finite and not negative. *)
Definition value (x : spec_float) : Q :=
  match x with
  | S754_finite false m e => Qred (inject_Z (Zpos m) * pow2 e)
  | _ => 0%Q
  end.

Definition quotient_times_100 (a b : Z) : Q :=
  value (SFmul 53 1024 (SFdiv 53 1024 (of_int a) (of_int b)) (of_int 100)).

End IEEE.

(** ** SHA-256 (FIPS 180-4) and HMAC (RFC 2104), behind [hashlib] and [hmac] *)

Module SHA256.

Definition W32 : Z := 2 ^ 32.

Definition add32 (x y : Z) : Z := (x + y) mod W32.
Definition rotr (n x : Z) : Z := Z.lor (Z.shiftr x n) (Z.shiftl x (32 - n) mod W32).
Definition not32 (x : Z) : Z := Z.lxor x (W32 - 1).

Definition Ch (x y z : Z) : Z := Z.lxor (Z.land x y) (Z.land (not32 x) z).
Definition Maj (x y z : Z) : Z :=
  Z.lxor (Z.lxor (Z.land x y) (Z.land x z)) (Z.land y z).
Definition Sum0 (x : Z) : Z := Z.lxor (Z.lxor (rotr 2 x) (rotr 13 x)) (rotr 22 x).
Definition Sum1 (x : Z) : Z := Z.lxor (Z.lxor (rotr 6 x) (rotr 11 x)) (rotr 25 x).
Definition sig0 (x : Z) : Z := Z.lxor (Z.lxor (rotr 7 x) (rotr 18 x)) (Z.shiftr x 3).
Definition sig1 (x : Z) : Z := Z.lxor (Z.lxor (rotr 17 x) (rotr 19 x)) (Z.shiftr x 10).

(** The constants are defined as in FIPS 180-4 (4.2.2 and 5.3.3): the first
    32 bits of the fractional parts of the cube roots of the first 64 primes,
    and of the square roots of the first 8 primes. *)
Definition is_prime (n : Z) : bool :=
  forallb (λ d, negb (n mod d =? 0)) (seqZ 2 (n - 2)).

Definition primes : list Z :=
  Eval vm_compute in List.filter is_prime (seqZ 2 310).

(** The integer cube root, found bit by bit from bit 35 down. *)
Definition cube_root (n : Z) : Z :=
  fold_left (λ r i, if (r + 2 ^ i) ^ 3 <=? n then r + 2 ^ i else r)
            (rev (seqZ 0 36)) 0.

Definition frac_cube_root (p : Z) : Z := cube_root (p * 2 ^ 96) mod W32.
Definition frac_square_root (p : Z) : Z := Z.sqrt (p * 2 ^ 64) mod W32.

Definition K : list Z := Eval vm_compute in map frac_cube_root primes.

(** The eight 32-bit words of a hash value, also the working variables. *)
Record Regs : Type := mkRegs { ra : Z; rb : Z; rc : Z; rd : Z; re : Z; rf : Z; rg : Z; rh : Z }.

Definition H0 : Regs :=
  Eval vm_compute in
    match map frac_square_root (take 8 primes) with
    | [a; b; c; d; e; f; g; h] => mkRegs a b c d e f g h
    | _ => mkRegs 0 0 0 0 0 0 0 0
    end.

(** Padding: the byte 0x80, zero bytes up to 56 modulo 64, then the bit
    length as eight big-endian bytes. *)
Definition be_bytes (n : nat) (x : Z) : list Z :=
  map (λ i, Z.shiftr x (8 * Z.of_nat i) mod 256) (rev (seq 0 n)).

Definition pad (msg : list Z) : list Z :=
  let len := Z.of_nat (length msg) in
  msg ++ [128] ++ replicate (Z.to_nat ((55 - len) mod 64)) 0 ++ be_bytes 8 (8 * len).

Definition be_word (bs : list Z) : Z :=
  fold_left (λ acc b, acc * 256 + b) bs 0.

(** Cut a list into [n] pieces of [k] elements. *)
Fixpoint chunks {A} (n k : nat) (l : list A) : list (list A) :=
  match n with
  | O => []
  | S n' => take k l :: chunks n' k (drop k l)
  end.

Definition block_words (block : list Z) : list Z :=
  map be_word (chunks 16 4 block).

(** The message schedule is kept as a window of the last sixteen words. *)
Definition next_word (win : list Z) : Z :=
  add32 (add32 (add32 (sig1 (nth 14 win 0)) (nth 9 win 0)) (sig0 (nth 1 win 0)))
        (nth 0 win 0).

Definition round (st : Regs * list Z) (k : Z) : Regs * list Z :=
  let '(r, win) := st in
  let w := nth 0 win 0 in
  let t1 := add32 (add32 (add32 (add32 (rh r) (Sum1 (re r))) (Ch (re r) (rf r) (rg r))) k) w in
  let t2 := add32 (Sum0 (ra r)) (Maj (ra r) (rb r) (rc r)) in
  (mkRegs (add32 t1 t2) (ra r) (rb r) (rc r) (add32 (rd r) t1) (re r) (rf r) (rg r),
   tail win ++ [next_word win]).

Definition compress (h : Regs) (block : list Z) : Regs :=
  let r := fst (fold_left round K (h, block_words block)) in
  mkRegs (add32 (ra h) (ra r)) (add32 (rb h) (rb r)) (add32 (rc h) (rc r))
         (add32 (rd h) (rd r)) (add32 (re h) (re r)) (add32 (rf h) (rf r))
         (add32 (rg h) (rg r)) (add32 (rh h) (rh r)).

Definition sha256 (msg : list Z) : Regs :=
  let p := pad msg in
  fold_left compress (chunks (length p / 64) 64 p) H0.

Definition words (h : Regs) : list Z :=
  [ra h; rb h; rc h; rd h; re h; rf h; rg h; rh h].

(** [.digest()] *)
Definition digest (h : Regs) : list Z := concat (map (be_bytes 4) (words h)).

Definition hexchar (d : Z) : ascii :=
  match d with
  | 0 => "0" | 1 => "1" | 2 => "2" | 3 => "3" | 4 => "4" | 5 => "5"
  | 6 => "6" | 7 => "7" | 8 => "8" | 9 => "9" | 10 => "a" | 11 => "b"
  | 12 => "c" | 13 => "d" | 14 => "e" | _ => "f"
  end%char.

Fixpoint hex (bs : list Z) : string :=
  match bs with
  | [] => EmptyString
  | b :: bs' => String (hexchar (Z.shiftr b 4 mod 16)) (String (hexchar (b mod 16)) (hex bs'))
  end.

(** [.hexdigest()] *)
Definition hexdigest (h : Regs) : string := hex (digest h).

(** [hmac.new(key, msg, hashlib.sha256)] *)
Definition hmac (key msg : list Z) : Regs :=
  let k0 := if (64 <? Z.of_nat (length key)) then digest (sha256 key) else key in
  let k := k0 ++ replicate (64 - length k0) 0 in
  let inner := sha256 (map (Z.lxor 0x36) k ++ msg) in
  sha256 (map (Z.lxor 0x5c) k ++ digest inner).

End SHA256.

(** ** [reconPoint/webhook_manager.py] *)

Module Webhook.

(** *** [json.dumps] on the values a payload is made of

    Payloads are built from [None], booleans, integers, strings, lists and
    dictionaries with string keys; floats are left out. *)

#[local] Set Warnings "-register-all".

Inductive json : Type :=
| JNull
| JBool (b : bool)
| JInt (n : Z)
| JStr (s : string)
| JList (l : list json)
| JDict (items : list (string * json)).

Definition dquote : ascii := "034"%char.
Definition backslash : ascii := "092"%char.

(** One character of a string literal under [ensure_ascii=True]. *)
Definition escape_char (c : ascii) : string :=
  let n := Py.code c in
  if n =? 34 then String backslash (String dquote EmptyString)
  else if n =? 92 then String backslash (String backslash EmptyString)
  else if n =? 10 then String backslash "n"
  else if n =? 13 then String backslash "r"
  else if n =? 9 then String backslash "t"
  else if n =? 8 then String backslash "b"
  else if n =? 12 then String backslash "f"
  else if (32 <=? n) && (n <=? 126) then String c EmptyString
  else String backslash ("u00" +:+ SHA256.hex [n]).

Fixpoint escape (s : string) : string :=
  match s with
  | EmptyString => EmptyString
  | String c s' => escape_char c +:+ escape s'
  end.

Definition quoted (s : string) : string :=
  String dquote (escape s +:+ String dquote EmptyString).

(** Stable insertion sort of rendered items on their keys, for [sort_keys]. *)
Fixpoint insert_item (kv : string * string) (l : list (string * string))
    : list (string * string) :=
  match l with
  | [] => [kv]
  | kv' :: rest =>
    if String.ltb kv.1 kv'.1 then kv :: l else kv' :: insert_item kv rest
  end.

Definition sort_items (l : list (string * string)) : list (string * string) :=
  foldr insert_item [] (rev l).

(** [json.dumps(j, sort_keys=sort_keys)], with the default separators. *)
Fixpoint dumps (sort_keys : bool) (j : json) : string :=
  match j with
  | JNull => "null"
  | JBool true => "true"
  | JBool false => "false"
  | JInt n => pretty n
  | JStr s => quoted s
  | JList l => "[" +:+ String.concat ", " (map (dumps sort_keys) l) +:+ "]"
  | JDict items =>
    let rendered := map (λ kv, (fst kv, dumps sort_keys (snd kv))) items in
    let ordered := if sort_keys then sort_items rendered else rendered in
    "{" +:+ String.concat ", " (map (λ kv, quoted kv.1 +:+ ": " +:+ kv.2) ordered) +:+ "}"
  end.

(** *** [WebhookEvent] *)

Definition SCAN_STARTED : string := "scan.started".
Definition SCAN_COMPLETED : string := "scan.completed".
Definition SCAN_FAILED : string := "scan.failed".
Definition SUBDOMAIN_DISCOVERED : string := "subdomain.discovered".
Definition VULNERABILITY_FOUND : string := "vulnerability.found".
Definition TARGET_ADDED : string := "target.added".

(** *** State: the cache and what the process does to the outside *)

(** An entry of the delivery log kept in the cache. *)
Record LogEntry : Type := {
  log_url : string;
  log_event : string;
  log_success : bool;
  log_status_code : option Z;
  log_timestamp : string
}.

(** A subscription dictionary. *)
Record Subscription : Type := {
  sub_id : string;
  sub_url : string;
  sub_events : list string;
  sub_secret : option string;
  sub_active : bool;
  sub_created_at : string
}.

Inductive Effect : Type :=
| Post (url : string) (body : json) (headers : gmap string string) (timeout : Z)
| Sleep (seconds : Z)
| LogInfo (line : string)
| LogWarning (line : string)
| LogError (line : string).

(** The Django cache holds lists of subscriptions under the keys
    [webhook_subscriptions:<event>] and lists of log entries under
    [webhook_log:<url>:<event>]; the two families of keys are disjoint and
    are kept as two maps, each under the full key. *)
Record World : Type := {
  subscriptions : gmap string (list Subscription);
  deliveries : gmap string (list LogEntry);
  effects : list Effect
}.

Definition emit (e : Effect) (w : World) : World :=
  {| subscriptions := subscriptions w; deliveries := deliveries w;
     effects := effects w ++ [e] |}.

Definition set_subscriptions (key : string) (l : list Subscription) (w : World) : World :=
  {| subscriptions := <[key := l]> (subscriptions w); deliveries := deliveries w;
     effects := effects w |}.

Definition set_deliveries (key : string) (l : list LogEntry) (w : World) : World :=
  {| subscriptions := subscriptions w; deliveries := <[key := l]> (deliveries w);
     effects := effects w |}.

(** What [requests.post] does on one attempt. *)
Inductive Outcome : Type :=
| Response (status_code : Z) (text : string)
| RequestException (e : string).

(** *** [WebhookManager] *)

Record WebhookManager : Type := {
  max_retries : Z;
  retry_delay : Z;
  timeout : Z
}.

Definition __init__ : WebhookManager :=
  {| max_retries := 3; retry_delay := 5; timeout := 30 |}.

(** [_generate_signature] *)
Definition _generate_signature (payload : json) (secret : string) : string :=
  let payload_bytes := Py.encode_utf8 (dumps true payload) in
  let signature := SHA256.hexdigest (SHA256.hmac (Py.encode_utf8 secret) payload_bytes) in
  "sha256=" +:+ signature.

(** [hmac.compare_digest] on two [str]: [None] is the [TypeError] raised
    when one of them has a non-ASCII character. *)
Definition compare_digest (a b : string) : option bool :=
  if Py.isascii a && Py.isascii b then Some (bool_decide (a = b)) else None.

(** [verify_signature] *)
Definition verify_signature (payload signature secret : string) : option bool :=
  let expected_signature :=
    SHA256.hexdigest (SHA256.hmac (Py.encode_utf8 secret) (Py.encode_utf8 payload)) in
  let signature :=
    if Py.startswith "sha256=" signature then Py.str_drop 7 signature else signature in
  compare_digest signature expected_signature.

(** [_log_webhook_delivery] *)
Definition _log_webhook_delivery (url event : string) (success : bool)
    (status_code : option Z) (utcnow : string) (w : World) : World :=
  let log_entry := {| log_url := url; log_event := event; log_success := success;
                      log_status_code := status_code; log_timestamp := utcnow |} in
  let cache_key := "webhook_log:" +:+ url +:+ ":" +:+ event in
  let recent_logs := default [] (deliveries w !! cache_key) ++ [log_entry] in
  let recent_logs := drop (length recent_logs - 10)%nat recent_logs in
  set_deliveries cache_key recent_logs w.

(** The [for attempt in range(self.max_retries)] loop of [send_webhook];
    [endpoint attempt] is what the POST of that attempt meets.  [Some b] is a
    [return b] from inside the loop. *)
Fixpoint send_loop (self : WebhookManager) (url event : string) (body : json)
    (headers : gmap string string) (utcnow : string) (endpoint : Z → Outcome)
    (attempts : list Z) (w : World) : option bool * World :=
  match attempts with
  | [] => (None, w)
  | attempt :: rest =>
    let w1 := emit (Post url body headers (timeout self)) w in
    match endpoint attempt with
    | Response status_code text =>
      if Py.in_ints status_code [200; 201; 202; 204] then
        let w2 := emit (LogInfo ("Webhook delivered successfully to " +:+ url)) w1 in
        (Some true, _log_webhook_delivery url event true (Some status_code) utcnow w2)
      else
        let w2 := emit (LogWarning ("Webhook delivery failed with status "
                                    +:+ pretty status_code +:+ ": " +:+ text)) w1 in
        send_loop self url event body headers utcnow endpoint rest w2
    | RequestException e =>
      let w2 := emit (LogError ("Webhook delivery error (attempt "
                                +:+ pretty (attempt + 1) +:+ "/"
                                +:+ pretty (max_retries self) +:+ "): " +:+ e)) w1 in
      let w3 := if attempt <? max_retries self - 1
                then emit (Sleep (retry_delay self * (attempt + 1))) w2
                else w2 in
      send_loop self url event body headers utcnow endpoint rest w3
    end
  end.

(** [send_webhook]; [version] is [settings.RECONPOINT_CURRENT_VERSION]. *)
Definition send_webhook (self : WebhookManager) (version : string)
    (url event : string) (payload : json) (secret : option string)
    (headers : option (gmap string string)) (utcnow : string)
    (endpoint : Z → Outcome) (w : World) : bool * World :=
  let webhook_payload :=
    JDict [("event", JStr event); ("timestamp", JStr utcnow); ("data", payload)] in
  let webhook_headers : gmap string string :=
    <["X-Webhook-Event" := event]>
      (<["User-Agent" := "reconPoint-Webhook/" +:+ version]>
         {["Content-Type" := "application/json"]}) in
  let webhook_headers := default ∅ headers ∪ webhook_headers in
  let webhook_headers :=
    if Py.truthy_str secret
    then <["X-Webhook-Signature" :=
             _generate_signature webhook_payload (default "" secret)]> webhook_headers
    else webhook_headers in
  match send_loop self url event webhook_payload webhook_headers utcnow endpoint
                  (Py.range (max_retries self)) w with
  | (Some b, w') => (b, w')
  | (None, w') => (false, _log_webhook_delivery url event false None utcnow w')
  end.

(** *** [WebhookSubscription] *)

Definition subscriptions_key (event : string) : string :=
  "webhook_subscriptions:" +:+ event.

(** [get_subscriptions] *)
Definition get_subscriptions (event : string) (w : World) : list Subscription :=
  default [] (subscriptions w !! subscriptions_key event).

(** [add_subscription]; [md5_hexdigest] is [hashlib.md5(..).hexdigest()]. *)
Definition add_subscription (md5_hexdigest : list Z → string)
    (url : string) (events : list string) (secret : option string)
    (active : bool) (utcnow : string) (w : World) : Subscription * World :=
  let subscription :=
    {| sub_id := md5_hexdigest (Py.encode_utf8 url); sub_url := url;
       sub_events := events; sub_secret := secret; sub_active := active;
       sub_created_at := utcnow |} in
  (subscription,
   foldl (λ w event,
            let subs := get_subscriptions event w in
            if negb (existsb (λ sub, bool_decide (sub_url sub = url)) subs)
            then set_subscriptions (subscriptions_key event) (subs ++ [subscription]) w
            else w)
         w events).

Definition all_events : list string :=
  [SCAN_STARTED; SCAN_COMPLETED; SCAN_FAILED;
   SUBDOMAIN_DISCOVERED; VULNERABILITY_FOUND; TARGET_ADDED].

(** [remove_subscription] *)
Definition remove_subscription (url : string) (event : option string) (w : World) : World :=
  let events :=
    if Py.truthy_str event then [default "" event] else all_events in
  foldl (λ w evt,
           let subs := get_subscriptions evt w in
           let subs := filter (λ sub, sub_url sub ≠ url) subs in
           set_subscriptions (subscriptions_key evt) subs w)
        w events.

(** [send_webhook_notification]: one [send_webhook] for each active
    subscription of the event; [endpoint url] is how that subscriber answers. *)
Definition send_webhook_notification (version : string) (event : string)
    (payload : json) (utcnow : string) (endpoint : string → Z → Outcome)
    (w : World) : World :=
  let manager := __init__ in
  foldl (λ w subscription,
           if negb (sub_active subscription) then w
           else snd (send_webhook manager version (sub_url subscription) event payload
                                  (sub_secret subscription) None utcnow
                                  (endpoint (sub_url subscription)) w))
        w (get_subscriptions event w).

End Webhook.

(** ** Notions the properties are stated with *)

Module Lifecycle.
Import ScanService.

(** Status codes of [scan_service.py]: -1 pending, 0 failed, 1 running,
    2 completed, 3 aborted. *)
Definition non_terminal (s : ScanHistory) : Prop := scan_status s ∈ [-1; 1].
Definition terminal (s : ScanHistory) : Prop := scan_status s ∈ [0; 2; 3].

(** At most one scan of a domain is pending or running. *)
Definition one_active_per_domain (w : World) : Prop :=
  ∀ i j s1 s2,
    scans w !! i = Some s1 → scans w !! j = Some s2 →
    domain s1 = domain s2 → non_terminal s1 → non_terminal s2 → i = j.

(** Every primary key in use was handed out by the sequence. *)
Definition keys_below_seq (w : World) : Prop :=
  map_Forall (λ i _, i < scan_seq w) (scans w).

(** A call of one of the three operations that write scans. *)
Inductive Call : Type :=
| CreateScan (domain_id scan_type_id : Z) (user : User)
    (out_of_scope imported : option (list string)) (now : Z)
| UpdateScanStatus (scan_id status : Z) (error_message : option string) (now : Z)
| AbortScan (scan_id : Z) (user : User) (revoke_error : string → option string) (now : Z).

Definition run (c : Call) (w : World) : World :=
  match c with
  | CreateScan d e u oos imp now => snd (create_scan d e u oos imp now w)
  | UpdateScanStatus i st msg now => snd (update_scan_status i st msg now w)
  | AbortScan i u rev now => snd (abort_scan i u rev now w)
  end.

(** The states the service reaches from a database without scans. *)
Inductive reachable : World → Prop :=
| reachable_init w : scans w = ∅ → reachable w
| reachable_run c w : reachable w → reachable (run c w).

(** The number of distinct step names among the completed activities of a
    scan, as the progress of a scan is specified. *)
Definition distinct_completed (scan_id : Z) (w : World) : Z :=
  Z.of_nat (length (remove_dups
    (map activity_name
       (filter (λ a, activity_status a = 2) (scanactivity_set scan_id w))))).

End Lifecycle.

(** ** Concrete states and inputs *)

Module Scenario.
Import ScanService Lifecycle.

Definition alice : User := {| username := "alice" |}.

(** One domain, one engine with two tasks, no scan yet. *)
Definition db0 : World :=
  {| domains := {[1 := {| domain_name := "example.com"; domain_project := Some "acme";
                          domain_start_scan_date := None |}]};
     engines := {[1 := {| engine_name := "full";
                          engine_tasks := Some (Some ["subdomain_discovery"; "port_scan"]) |}]};
     scans := ∅; scan_seq := 1; activities := []; revoked := []; log := [] |}.

(** Scan 1 is created, completes, scan 2 is created for the same domain,
    then scan 1 is set back to running. *)
Definition db1 : World := run (CreateScan 1 1 alice None None 100) db0.
Definition db2 : World := run (UpdateScanStatus 1 2 None 200) db1.
Definition db3 : World := run (CreateScan 1 1 alice None None 300) db2.
Definition db4 : World := run (UpdateScanStatus 1 1 None 400) db3.

(** A running scan with two Celery tasks, the first of which cannot be revoked. *)
Definition running_scan : ScanHistory :=
  {| domain := 1; scan_type := 1; start_scan_date := 100; scan_status := 1;
     initiated_by := alice; aborted_by := None; stop_scan_date := None;
     error_message := Some "timeout in port_scan";
     tasks := Some ["subdomain_discovery"; "port_scan"];
     celery_ids := ["task-a"; "task-b"];
     cfg_out_of_scope_subdomains := []; cfg_imported_subdomains := [] |}.

Definition revoke_error (c : string) : option string :=
  if decide (c = "task-a") then Some "broker unreachable" else None.

Definition completed_step (name : string) (time : Z) : ScanActivity :=
  {| activity_scan := 1; activity_title := name; activity_name := name;
     activity_status := 2; activity_time := time; activity_error := None |}.

(** A completed scan stored without a stop date, as a row written directly
    through the model class is. *)
Definition imported_scan : ScanHistory :=
  {| domain := 1; scan_type := 1; start_scan_date := 100; scan_status := 2;
     initiated_by := alice; aborted_by := None; stop_scan_date := None;
     error_message := None; tasks := Some []; celery_ids := [];
     cfg_out_of_scope_subdomains := []; cfg_imported_subdomains := [] |}.

Definition db_imported : World :=
  {| domains := domains db0; engines := engines db0;
     scans := {[1 := imported_scan]}; scan_seq := 2;
     activities := []; revoked := []; log := [] |}.

(** The step [port_scan] is reported completed twice. *)
Definition db_running : World :=
  {| domains := domains db0; engines := engines db0;
     scans := {[1 := running_scan]}; scan_seq := 2;
     activities := [completed_step "port_scan" 110; completed_step "port_scan" 120];
     revoked := []; log := [] |}.

End Scenario.

Module Delivery.
Import Webhook.

(** What a subscriber sees of a delivery: the POSTs and the waits between them. *)
Inductive Tick : Type :=
| Attempt
| Wait (seconds : Z).

Definition tick (e : Effect) : option Tick :=
  match e with
  | Post _ _ _ _ => Some Attempt
  | Sleep d => Some (Wait d)
  | _ => None
  end.

Definition timeline (es : list Effect) : list Tick := omap tick es.

Definition is_post (e : Effect) : bool :=
  match e with
  | Post _ _ _ _ => true
  | _ => false
  end.

Definition post_count (es : list Effect) : nat :=
  length (filter (λ e, is_post e = true) es).

(** An attempt fails when it gets a status other than 200, 201, 202, 204 or
    raises a [RequestException]. *)
Definition fails (o : Outcome) : Prop :=
  match o with
  | Response status_code _ => status_code ∉ [200; 201; 202; 204]
  | RequestException _ => True
  end.

Definition raises (o : Outcome) : Prop :=
  match o with
  | Response _ _ => False
  | RequestException _ => True
  end.

(** The attempts and waits of a delivery whose attempts all raise. *)
Definition backoff (self : WebhookManager) (attempts : list Z) : list Tick :=
  attempts ≫= λ attempt,
    Attempt :: if attempt <? max_retries self - 1
               then [Wait (retry_delay self * (attempt + 1))] else [].

Definition failed_entry (url event utcnow : string) : LogEntry :=
  {| log_url := url; log_event := event; log_success := false;
     log_status_code := None; log_timestamp := utcnow |}.

Definition empty_world : World :=
  {| subscriptions := ∅; deliveries := ∅; effects := [] |}.

Definition always_500 (attempt : Z) : Outcome := Response 500 "Internal Server Error".
Definition always_down (attempt : Z) : Outcome := RequestException "connection refused".

End Delivery.

Module Registry.
Import Webhook.

Definition hook_url : string := "https://hook.example/x".

(** [hashlib.md5] as far as the subscription below needs it. *)
Definition md5_hexdigest (bs : list Z) : string := "60d7459cecf3664ffca61903466a4766".

(** The hook is subscribed to [scan.completed] and to [webhook.test]. *)
Definition subscribe_hook : Subscription * World :=
  add_subscription md5_hexdigest hook_url [SCAN_COMPLETED; "webhook.test"]
    (Some "s3cret") true "2024-01-01T00:00:00" Delivery.empty_world.

Definition hook_subscription : Subscription := subscribe_hook.1.
Definition subscribed : World := subscribe_hook.2.

End Registry.

(** ** Activity rows *)

Module Ledger.
Import ScanService.

(** A new row of [ScanActivity]; rows are appended, never changed. *)
Definition add_activity (a : ScanActivity) (w : World) : World :=
  {| domains := domains w; engines := engines w; scans := scans w;
     scan_seq := scan_seq w; activities := activities w ++ [a];
     revoked := revoked w; log := log w |}.

End Ledger.

(** ** [services/scan_service.py]: the findings of a scan *)

Module Findings.
Import ScanService.

(** A row of [Vulnerability] with the names of its related [cve_ids],
    [cwe_ids] and [tags]. *)
Record Vulnerability : Type := {
  vuln_id : Z;
  vuln_scan_history : Z;
  vuln_name : string;
  vuln_severity : Z;
  vuln_http_url : string;
  vuln_subdomain : option Z;
  vuln_discovered_date : option Z;
  vuln_cvss_score : option Q;
  vuln_cve_ids : list string;
  vuln_cwe_ids : list string;
  vuln_tags : list string;
  vuln_open_status : bool
}.

(** A row of [Subdomain] with the names of its [technologies] and the
    addresses of its [ip_addresses]. *)
Record Subdomain : Type := {
  subdomain_id : Z;
  subdomain_scan_history : Z;
  subdomain_name : string;
  subdomain_http_url : option string;
  subdomain_http_status : Z;
  subdomain_page_title : option string;
  subdomain_discovered_date : option Z;
  subdomain_is_important : bool;
  subdomain_technologies : list string;
  subdomain_ip_addresses : list string
}.

(** A row of [EndPoint], as far as it is counted. *)
Record EndPoint : Type := {
  endpoint_id : Z;
  endpoint_subdomain : option Z
}.

(** The three tables, rows in the order of their primary keys. *)
Record Tables : Type := {
  vulnerabilities : list Vulnerability;
  subdomains : list Subdomain;
  endpoints : list EndPoint
}.

(** What the two functions raise: an exception of the service, or the
    exception of a queryset sliced with a negative bound. *)
Inductive Raised : Type :=
| Service (e : Exception)
| NegativeIndexing.

(** [queryset[start:stop]] *)
Definition slice {A} (start stop : Z) (l : list A) : option (list A) :=
  if (start <? 0) || (stop <? 0) then None
  else Some (take (Z.to_nat (stop - start)) (drop (Z.to_nat start) l)).

(** [.order_by('-severity', '-discovered_date')]; a missing date sorts first
    in descending order, rows that agree on both keep their order. *)
Definition date_ge (a b : option Z) : Prop :=
  match a, b with
  | None, _ => True
  | Some _, None => False
  | Some x, Some y => y ≤ x
  end.

Definition vuln_before (a b : Vulnerability) : Prop :=
  vuln_severity b < vuln_severity a
  ∨ (vuln_severity a = vuln_severity b
     ∧ date_ge (vuln_discovered_date a) (vuln_discovered_date b)).

#[global] Instance date_ge_dec : RelDecision date_ge :=
  λ a b,
    match a as a', b as b' return Decision (date_ge a' b') with
    | None, _ => left I
    | Some _, None => right (λ H : False, H)
    | Some x, Some y => decide (y ≤ x)
    end.

#[global] Instance vuln_before_dec : RelDecision vuln_before :=
  λ a b,
    decide (vuln_severity b < vuln_severity a
            ∨ (vuln_severity a = vuln_severity b
               ∧ date_ge (vuln_discovered_date a) (vuln_discovered_date b))).

(** [.order_by('name')], names compared by code points. *)
Definition name_before (a b : Subdomain) : Prop :=
  String.leb (subdomain_name a) (subdomain_name b) = true.

#[global] Instance name_before_dec : RelDecision name_before :=
  λ a b, decide (String.leb (subdomain_name a) (subdomain_name b) = true).

(** An entry of ['results'] of [get_scan_vulnerabilities]. *)
Record VulnerabilityResult : Type := {
  vr_id : Z;
  vr_name : string;
  vr_severity : Z;
  vr_http_url : string;
  vr_subdomain : option string;
  vr_discovered_date : option Z;
  vr_cvss_score : option Q;
  vr_cve_ids : list string;
  vr_cwe_ids : list string;
  vr_tags : list string;
  vr_open_status : bool
}.

(** An entry of ['results'] of [get_scan_subdomains]. *)
Record SubdomainResult : Type := {
  sr_id : Z;
  sr_name : string;
  sr_http_url : option string;
  sr_http_status : Z;
  sr_page_title : option string;
  sr_discovered_date : option Z;
  sr_is_important : bool;
  sr_endpoint_count : Z;
  sr_vulnerability_count : Z;
  sr_technologies : list string;
  sr_ip_addresses : list string
}.

(** The dictionary both functions return. *)
Record Page (A : Type) : Type := {
  page_count : Z;
  page_limit : Z;
  page_offset : Z;
  page_results : list A
}.
Arguments page_count {A}.
Arguments page_limit {A}.
Arguments page_offset {A}.
Arguments page_results {A}.

(** [vuln.subdomain.name if vuln.subdomain else None] *)
Definition subdomain_name_of (t : Tables) (fk : option Z) : option string :=
  fk ≫= λ k, subdomain_name <$> head (filter (λ s, subdomain_id s = k) (subdomains t)).

Definition vulnerability_result (t : Tables) (vuln : Vulnerability) : VulnerabilityResult :=
  {| vr_id := vuln_id vuln; vr_name := vuln_name vuln;
     vr_severity := vuln_severity vuln; vr_http_url := vuln_http_url vuln;
     vr_subdomain := subdomain_name_of t (vuln_subdomain vuln);
     vr_discovered_date := vuln_discovered_date vuln;
     vr_cvss_score := vuln_cvss_score vuln;
     vr_cve_ids := vuln_cve_ids vuln; vr_cwe_ids := vuln_cwe_ids vuln;
     vr_tags := vuln_tags vuln; vr_open_status := vuln_open_status vuln |}.

(** The rows [get_scan_vulnerabilities] counts: those of the scan, of the
    given severity when there is one. *)
Definition vulnerability_queryset (scan_id : Z) (severity : option Z) (t : Tables)
    : list Vulnerability :=
  let queryset := filter (λ v, vuln_scan_history v = scan_id) (vulnerabilities t) in
  match severity with
  | Some sv => filter (λ v, vuln_severity v = sv) queryset
  | None => queryset
  end.

(** [get_scan_vulnerabilities] *)
Definition get_scan_vulnerabilities (scan_id : Z) (severity : option Z)
    (limit offset : Z) (w : World) (t : Tables)
    : Raised + Page VulnerabilityResult :=
  if negb (bool_decide (is_Some (scans w !! scan_id))) then
    inl (Service (ResourceNotFoundException "ScanHistory" scan_id))
  else
    let queryset := vulnerability_queryset scan_id severity t in
    let total_count := Z.of_nat (length queryset) in
    match slice offset (offset + limit) (merge_sort vuln_before queryset) with
    | None => inl NegativeIndexing
    | Some vulnerabilities =>
      inr {| page_count := total_count; page_limit := limit; page_offset := offset;
             page_results := map (vulnerability_result t) vulnerabilities |}
    end.

(** [Count('endpoint', distinct=True)] and [Count('vulnerability', distinct=True)] *)
Definition endpoint_count (t : Tables) (s : Subdomain) : Z :=
  Z.of_nat (length (filter (λ e, endpoint_subdomain e = Some (subdomain_id s)) (endpoints t))).

Definition vuln_count (t : Tables) (s : Subdomain) : Z :=
  Z.of_nat (length (filter (λ v, vuln_subdomain v = Some (subdomain_id s)) (vulnerabilities t))).

Definition subdomain_result (t : Tables) (subdomain : Subdomain) : SubdomainResult :=
  {| sr_id := subdomain_id subdomain; sr_name := subdomain_name subdomain;
     sr_http_url := subdomain_http_url subdomain;
     sr_http_status := subdomain_http_status subdomain;
     sr_page_title := subdomain_page_title subdomain;
     sr_discovered_date := subdomain_discovered_date subdomain;
     sr_is_important := subdomain_is_important subdomain;
     sr_endpoint_count := endpoint_count t subdomain;
     sr_vulnerability_count := vuln_count t subdomain;
     sr_technologies := subdomain_technologies subdomain;
     sr_ip_addresses := subdomain_ip_addresses subdomain |}.

(** [get_scan_subdomains] *)
Definition get_scan_subdomains (scan_id : Z) (limit offset : Z)
    (w : World) (t : Tables) : Raised + Page SubdomainResult :=
  if negb (bool_decide (is_Some (scans w !! scan_id))) then
    inl (Service (ResourceNotFoundException "ScanHistory" scan_id))
  else
    let queryset := filter (λ s, subdomain_scan_history s = scan_id) (subdomains t) in
    let total_count := Z.of_nat (length queryset) in
    match slice offset (offset + limit) (merge_sort name_before queryset) with
    | None => inl NegativeIndexing
    | Some subdomains =>
      inr {| page_count := total_count; page_limit := limit; page_offset := offset;
             page_results := map (subdomain_result t) subdomains |}
    end.

End Findings.

(** A scan with findings. *)

Module Catalogue.
Import ScanService Findings.

Definition vuln (id severity : Z) (date : option Z) : Vulnerability :=
  {| vuln_id := id; vuln_scan_history := 1; vuln_name := "finding " +:+ pretty id;
     vuln_severity := severity; vuln_http_url := "https://example.com/";
     vuln_subdomain := Some 1; vuln_discovered_date := date;
     vuln_cvss_score := None; vuln_cve_ids := []; vuln_cwe_ids := [];
     vuln_tags := []; vuln_open_status := true |}.

Definition host (id : Z) (name : string) : Subdomain :=
  {| subdomain_id := id; subdomain_scan_history := 1; subdomain_name := name;
     subdomain_http_url := None; subdomain_http_status := 200;
     subdomain_page_title := None; subdomain_discovered_date := None;
     subdomain_is_important := false; subdomain_technologies := [];
     subdomain_ip_addresses := [] |}.

(** Five findings and three hosts of scan 1. *)
Definition tables : Tables :=
  {| vulnerabilities := [vuln 1 2 (Some 10); vuln 2 4 (Some 20); vuln 3 0 None;
                         vuln 4 4 (Some 30); vuln 5 3 (Some 40)];
     subdomains := [host 1 "www.example.com"; host 2 "api.example.com";
                    host 3 "mail.example.com"];
     endpoints := [{| endpoint_id := 1; endpoint_subdomain := Some 1 |};
                   {| endpoint_id := 2; endpoint_subdomain := Some 1 |}] |}.

End Catalogue.

(** ** [send_webhook]: what is posted and what is logged *)

Module Outbox.
Import Webhook Delivery.

(** The key of the delivery log of a URL and an event. *)
Definition log_key (url event : string) : string :=
  "webhook_log:" +:+ url +:+ ":" +:+ event.

(** The envelope [send_webhook] posts. *)
Definition envelope (event utcnow : string) (payload : json) : json :=
  JDict [("event", JStr event); ("timestamp", JStr utcnow); ("data", payload)].

(** The first attempt that succeeds is attempt [k], with this status code. *)
Definition succeeds_at (endpoint : Z → Outcome) (k status_code : Z) : Prop :=
  (∃ text, endpoint k = Response status_code text)
  ∧ status_code ∈ [200; 201; 202; 204]
  ∧ ∀ j, 0 ≤ j < k → fails (endpoint j).

Definition post_url (e : Effect) : option string :=
  match e with
  | Post url _ _ _ => Some url
  | _ => None
  end.

Definition always_ok (attempt : Z) : Outcome := Response 200 "OK".

(** The entry [_log_webhook_delivery] appends, and the log after it. *)
Definition delivery_entry (url event : string) (success : bool)
    (status_code : option Z) (utcnow : string) : LogEntry :=
  {| log_url := url; log_event := event; log_success := success;
     log_status_code := status_code; log_timestamp := utcnow |}.

Definition last_ten (l : list LogEntry) : list LogEntry := drop (length l - 10) l.

(** Down on the first attempt, accepted on the second. *)
Definition second_try (attempt : Z) : Outcome :=
  if attempt =? 0 then RequestException "timed out" else Response 202 "Accepted".

End Outbox.

(** ** The subscribers of an event *)

Module Subscribers.
Import Webhook.

(** [any(sub['url'] == url for sub in subscriptions)] *)
Definition has_url (url : string) (subs : list Subscription) : bool :=
  existsb (λ sub, bool_decide (sub_url sub = url)) subs.

Definition urls (subs : list Subscription) : list string := sub_url <$> subs.

Definition active_urls (subs : list Subscription) : list string :=
  sub_url <$> filter (λ sub, sub_active sub = true) subs.

Definition post_urls (es : list Effect) : list string := omap Outbox.post_url es.

(** Every subscriber accepts the first attempt. *)
Definition all_accept (endpoint : string → Z → Outcome) : Prop :=
  ∀ url, ∃ status_code text,
    endpoint url 0 = Response status_code text ∧ status_code ∈ [200; 201; 202; 204].

(** One turn of the loop of [send_webhook_notification]. *)
Definition notify_one (version event : string) (payload : json) (utcnow : string)
    (endpoint : string → Z → Outcome) (w : World) (subscription : Subscription) : World :=
  if negb (sub_active subscription) then w
  else snd (send_webhook __init__ version (sub_url subscription) event payload
              (sub_secret subscription) None utcnow
              (endpoint (sub_url subscription)) w).

Definition other_url : string := "https://other.example/hook".

(** A second hook, inactive, next to the hook of [Registry.subscribed]. *)
Definition two_hooks : World :=
  (add_subscription Registry.md5_hexdigest other_url [SCAN_COMPLETED] None false
     "2024-01-02T00:00:00" Registry.subscribed).2.

End Subscribers.

(** ** Sorted keys and hexadecimal digests *)

Module Canonical.
Import Webhook.

(** The keys of two rendered items are in strictly ascending order. *)
Definition key_lt (a b : string * string) : Prop := String.ltb a.1 b.1 = true.

(** The characters of a hexadecimal digest. *)
Definition hex_digits : list ascii :=
  ["0"; "1"; "2"; "3"; "4"; "5"; "6"; "7"; "8"; "9"; "a"; "b"; "c"; "d"; "e"; "f"]%char.

End Canonical.

(** ** [services/base_service.py] *)

Module BaseService.
Import ScanService Webhook.

(** The types a field can be required to have. *)
Inductive PyType : Type := TStr | TInt | TBool | TList | TDict.

(** [t.__name__] *)
Definition type_name (t : PyType) : string :=
  match t with
  | TStr => "str" | TInt => "int" | TBool => "bool" | TList => "list" | TDict => "dict"
  end.

(** [type(v).__name__] *)
Definition value_type_name (v : json) : string :=
  match v with
  | JNull => "NoneType" | JBool _ => "bool" | JInt _ => "int" | JStr _ => "str"
  | JList _ => "list" | JDict _ => "dict"
  end.

(** [isinstance(v, t)]; [bool] is a subclass of [int]. *)
Definition isinstance (v : json) (t : PyType) : bool :=
  match v, t with
  | JStr _, TStr | JInt _, TInt | JBool _, TInt | JBool _, TBool
  | JList _, TList | JDict _, TDict => true
  | _, _ => false
  end.

(** [field not in data or data[field] is None] *)
Definition missing (data : gmap string json) (field : string) : bool :=
  match data !! field with
  | None | Some JNull => true
  | Some _ => false
  end.

(** [validate_required_fields] *)
Definition validate_required_fields (data : gmap string json)
    (required_fields : list string) : Exception + unit :=
  let missing_fields := List.filter (missing data) required_fields in
  match missing_fields with
  | [] => inr ()
  | _ :: _ =>
    inl (ValidationException
           ("Missing required fields: " +:+ String.concat ", " missing_fields))
  end.

(** [validate_field_types]; [field_types] lists the items of the dictionary
    in their order. *)
Fixpoint validate_field_types (data : gmap string json)
    (field_types : list (string * PyType)) : Exception + unit :=
  match field_types with
  | [] => inr ()
  | (field, expected_type) :: rest =>
    if negb (missing data field)
       && negb (isinstance (default JNull (data !! field)) expected_type)
    then inl (ValidationException
                ("Field '" +:+ field +:+ "' must be of type " +:+ type_name expected_type))
    else validate_field_types data rest
  end.

End BaseService.

(** ** [api/viewsets]: the actions that call the scan service *)

Module Views.
Import ScanService Findings.

(** [str(e)] *)
Definition exception_message (e : Exception) : string :=
  match e with
  | ResourceNotFoundException resource identifier =>
    resource +:+ " with identifier " +:+ pretty identifier +:+ " not found"
  | ValidationException message => message
  end.

(** What [int(..)] makes of a string of the request: a number, or a
    [ValueError] with its message. *)
Inductive Parsed : Type :=
| IntValue (n : Z)
| IntError (message : string).

Inductive Body : Type :=
| ErrorBody (error : string)
| ScanBody (scan_id : Z) (status message : string)
| VulnerabilitiesBody (page : Page VulnerabilityResult)
| SubdomainsBody (page : Page SubdomainResult).

Record Response : Type := {
  body : Body;
  status : Z
}.

Definition unexpected (label message : string) (w : World) : Response * World :=
  ({| body := ErrorBody "An unexpected error occurred"; status := 500 |},
   add_log (label +:+ message) w).

(** [ScanViewSet.abort] *)
Definition abort (pk : Parsed) (user : User) (revoke_error : string → option string)
    (now : Z) (w : World) : Response * World :=
  match pk with
  | IntError message => unexpected "Error aborting scan: " message w
  | IntValue scan_id =>
    match abort_scan scan_id user revoke_error now w with
    | (inr scan, w') =>
      ({| body := ScanBody scan_id "aborted"
                    ("Scan " +:+ pretty scan_id +:+ " has been aborted");
          status := 200 |}, w')
    | (inl (ResourceNotFoundException _ _ as e), w') =>
      ({| body := ErrorBody (exception_message e); status := 404 |}, w')
    | (inl (ValidationException _ as e), w') =>
      ({| body := ErrorBody (exception_message e); status := 400 |}, w')
    end
  end.

(** [DomainViewSet.start_scan], for a request whose [scan_type_id] is an
    integer. *)
Definition start_scan (pk : Parsed) (scan_type_id : Z) (user : User)
    (out_of_scope_subdomains imported_subdomains : option (list string))
    (now : Z) (w : World) : Response * World :=
  match pk with
  | IntError message => unexpected "Error starting scan: " message w
  | IntValue domain_id =>
    match create_scan domain_id scan_type_id user out_of_scope_subdomains
                      imported_subdomains now w with
    | (inr (scan_id, scan), w') =>
      ({| body := ScanBody scan_id "initiated"
                    ("Scan initiated for domain "
                     +:+ default "" (domain_name <$> domains w' !! domain scan));
          status := 201 |}, w')
    | (inl e, w') =>
      ({| body := ErrorBody (exception_message e); status := 400 |}, w')
    end
  end.

(** [int(request.query_params.get(name, default))] *)
Definition query_int (param : option Parsed) (default : Z) : Parsed :=
  match param with
  | None => IntValue default
  | Some p => p
  end.

(** [ScanViewSet.vulnerabilities] *)
Definition vulnerabilities_view (pk : Parsed) (severity limit offset : option Parsed)
    (w : World) (t : Tables) : Response * World :=
  let fail := unexpected "Error getting scan vulnerabilities: " in
  match pk with
  | IntError message => fail message w
  | IntValue scan_id =>
    match query_int limit 100 with
    | IntError message => fail message w
    | IntValue limit =>
      match query_int offset 0 with
      | IntError message => fail message w
      | IntValue offset =>
        match severity with
        | Some (IntError message) => fail message w
        | _ =>
          let severity := match severity with Some (IntValue n) => Some n | _ => None end in
          match get_scan_vulnerabilities scan_id severity limit offset w t with
          | inr results => ({| body := VulnerabilitiesBody results; status := 200 |}, w)
          | inl (Service (ResourceNotFoundException _ _ as e)) =>
            ({| body := ErrorBody (exception_message e); status := 404 |}, w)
          | inl (Service e) => fail (exception_message e) w
          | inl NegativeIndexing => fail "Negative indexing is not supported." w
          end
        end
      end
    end
  end.

(** [ScanViewSet.subdomains] *)
Definition subdomains_view (pk : Parsed) (limit offset : option Parsed)
    (w : World) (t : Tables) : Response * World :=
  let fail := unexpected "Error getting scan subdomains: " in
  match pk with
  | IntError message => fail message w
  | IntValue scan_id =>
    match query_int limit 100 with
    | IntError message => fail message w
    | IntValue limit =>
      match query_int offset 0 with
      | IntError message => fail message w
      | IntValue offset =>
        match get_scan_subdomains scan_id limit offset w t with
        | inr results => ({| body := SubdomainsBody results; status := 200 |}, w)
        | inl (Service (ResourceNotFoundException _ _ as e)) =>
          ({| body := ErrorBody (exception_message e); status := 404 |}, w)
        | inl (Service e) => fail (exception_message e) w
        | inl NegativeIndexing => fail "Negative indexing is not supported." w
        end
      end
    end
  end.

End Views.

(** ** Strings with characters of every code point *)

Module Unicode.
Import Webhook.

(** A [str] is the list of its code points, [0 .. 0x10FFFF]; the code points
    [0xD800 .. 0xDFFF] are the surrogates. *)
Definition surrogate (c : Z) : bool := (55296 <=? c) && (c <=? 57343).

(** [c.encode('utf-8')] for one character; [None] is the
    [UnicodeEncodeError] raised for a surrogate. *)
Definition encode_point (c : Z) : option (list Z) :=
  if c <? 128 then Some [c]
  else if c <? 2048 then Some [Z.lor 192 (Z.shiftr c 6); Z.lor 128 (Z.land c 63)]
  else if surrogate c then None
  else if c <? 65536 then
    Some [Z.lor 224 (Z.shiftr c 12); Z.lor 128 (Z.land (Z.shiftr c 6) 63);
          Z.lor 128 (Z.land c 63)]
  else
    Some [Z.lor 240 (Z.shiftr c 18); Z.lor 128 (Z.land (Z.shiftr c 12) 63);
          Z.lor 128 (Z.land (Z.shiftr c 6) 63); Z.lor 128 (Z.land c 63)].

(** [s.encode('utf-8')] *)
Fixpoint encode_utf8 (s : list Z) : option (list Z) :=
  match s with
  | [] => Some []
  | c :: s' =>
    match encode_point c, encode_utf8 s' with
    | Some b, Some bs => Some (b ++ bs)
    | _, _ => None
    end
  end.

(** The code points of a string of characters up to [U+00FF]. *)
Definition points (s : string) : list Z := Py.code <$> list_ascii_of_string s.

(** [s.isascii()] *)
Definition isascii (s : list Z) : bool := forallb (λ c, c <? 128) s.

(** [s.startswith(p)] *)
Fixpoint startswith (p s : list Z) : bool :=
  match p, s with
  | [], _ => true
  | a :: p', b :: s' => if decide (a = b) then startswith p' s' else false
  | _ :: _, [] => false
  end.

(** What [verify_signature] raises. *)
Inductive Raised : Type := UnicodeEncodeError | TypeError.

(** [verify_signature] on strings of any characters: the secret and the
    payload are encoded first, then the signature is compared. *)
Definition verify_signature (payload signature secret : list Z) : Raised + bool :=
  match encode_utf8 secret with
  | None => inl UnicodeEncodeError
  | Some key =>
    match encode_utf8 payload with
    | None => inl UnicodeEncodeError
    | Some msg =>
      let expected_signature := points (SHA256.hexdigest (SHA256.hmac key msg)) in
      let signature :=
        if startswith (points "sha256=") signature then drop 7 signature
        else signature in
      if isascii signature && isascii expected_signature
      then inr (bool_decide (signature = expected_signature))
      else inl TypeError
    end
  end.

End Unicode.

(** * Properties *)

(** ** The models of SHA-256 and HMAC against published test vectors *)

Example sha256_abc :
  SHA256.hexdigest (SHA256.sha256 (Py.encode_utf8 "abc"))
  = "ba7816bf8f01cfea414140de5dae2223b00361a396177a9cb410ff61f20015ad".
Proof. vm_compute. reflexivity. Qed.

Example sha256_empty :
  SHA256.hexdigest (SHA256.sha256 [])
  = "e3b0c44298fc1c149afbf4c8996fb92427ae41e4649b934ca495991b7852b855".
Proof. vm_compute. reflexivity. Qed.

Example sha256_two_blocks :
  SHA256.hexdigest (SHA256.sha256 (Py.encode_utf8
    "abcdbcdecdefdefgefghfghighijhijkijkljklmklmnlmnomnopnopq"))
  = "248d6a61d20638b8e5c026930c3e6039a33ce45964ff2167f6ecedd419db06c1".
Proof. vm_compute. reflexivity. Qed.

Example hmac_rfc4231_2 :
  SHA256.hexdigest (SHA256.hmac (Py.encode_utf8 "Jefe")
                                (Py.encode_utf8 "what do ya want for nothing?"))
  = "5bdcc146bf60754e6a042426089575c75a003f089d2739839dec58b964ec3843".
Proof. vm_compute. reflexivity. Qed.

Arguments SHA256.sha256 : simpl never.
Arguments SHA256.hmac : simpl never.
Arguments SHA256.hexdigest : simpl never.

(** ** Scan lifecycle *)

Section ScanLifecycle.
Import ScanService Lifecycle.

Lemma exists_scan_spec w d sts :
  exists_scan w d sts = true ↔
  ∃ i s, scans w !! i = Some s ∧ domain s = d ∧ scan_status s ∈ sts.
Proof.
  unfold exists_scan. rewrite bool_decide_eq_true. unfold map_Exists.
  naive_solver.
Qed.

Lemma create_scan_ok w d e u oos imp now dom eng :
  domains w !! d = Some dom → engines w !! e = Some eng →
  exists_scan w d [-1; 1] = false →
  ∃ s w', create_scan d e u oos imp now w = (inr (scan_seq w, s), w')
    ∧ scan_status s = -1 ∧ domain s = d
    ∧ scans w' = <[scan_seq w := s]> (scans w)
    ∧ scan_seq w' = scan_seq w + 1.
Proof.
  intros Hd He Hx. unfold create_scan. rewrite Hd, He, Hx.
  eexists _, _. split; [reflexivity|]. simpl. auto.
Qed.

Lemma create_scan_conflict w d e u oos imp now dom eng :
  domains w !! d = Some dom → engines w !! e = Some eng →
  exists_scan w d [-1; 1] = true →
  ∃ msg, create_scan d e u oos imp now w = (inl (ValidationException msg), w).
Proof.
  intros Hd He Hx. unfold create_scan. rewrite Hd, He, Hx. eauto.
Qed.

Lemma create_scan_scans w d e u oos imp now :
  scans (create_scan d e u oos imp now w).2 = scans w
  ∨ ∃ s, scan_status s = -1 ∧ domain s = d ∧ stop_scan_date s = None
      ∧ exists_scan w d [-1; 1] = false
      ∧ scans (create_scan d e u oos imp now w).2 = <[scan_seq w := s]> (scans w)
      ∧ scan_seq (create_scan d e u oos imp now w).2 = scan_seq w + 1.
Proof.
  unfold create_scan.
  destruct (domains w !! d); [|by left].
  destruct (engines w !! e); [|by left].
  destruct (exists_scan w d [-1; 1]) eqn:Hx; [by left|].
  right. eexists. simpl. repeat split; reflexivity.
Qed.

Lemma create_scan_keeps_guard w d e u oos imp now :
  one_active_per_domain w →
  one_active_per_domain (create_scan d e u oos imp now w).2.
Proof.
  intros Hinv.
  destruct (create_scan_scans w d e u oos imp now) as [Heq|(s & Hst & Hdom & _ & Hx & Heq & _)].
  - unfold one_active_per_domain. rewrite Heq. exact Hinv.
  - assert (Hnone : ∀ i s', scans w !! i = Some s' → domain s' = d → ¬ non_terminal s').
    { intros i s' Hi Hd' Hnt. apply not_true_iff_false in Hx. apply Hx.
      apply exists_scan_spec. eauto. }
    unfold one_active_per_domain. rewrite Heq. intros i j s1 s2 Hi Hj Hdd H1 H2.
    rewrite lookup_insert in Hi, Hj.
    repeat case_decide; simplify_eq; try done.
    + exfalso. eapply Hnone; eauto.
    + exfalso. eapply Hnone; eauto.
    + eauto.
Qed.

Lemma update_scan_status_cases w i st msg now :
  let r := update_scan_status i st msg now w in
  (∃ e, r = (inl e, w) ∧ (st ∉ [-1; 0; 1; 2; 3] ∨ scans w !! i = None))
  ∨ (∃ scan s',
       st ∈ [-1; 0; 1; 2; 3] ∧ scans w !! i = Some scan ∧ r.1 = inr s'
       ∧ scans r.2 = <[i := s']> (scans w)
       ∧ scan_seq r.2 = scan_seq w
       ∧ scan_status s' = st ∧ domain s' = domain scan
       ∧ aborted_by s' = aborted_by scan
       ∧ stop_scan_date s' =
           (if Py.in_ints st [0; 2; 3] && negb (bool_decide (is_Some (stop_scan_date scan)))
            then Some now else stop_scan_date scan)
       ∧ error_message s' =
           (if Py.truthy_str msg then Some (Py.str_take 300 (default "" msg))
            else error_message scan)).
Proof.
  unfold update_scan_status. simpl.
  destruct (Py.in_ints st [-1; 0; 1; 2; 3]) eqn:Hst; simpl.
  - apply bool_decide_eq_true in Hst.
    destruct (scans w !! i) as [scan|] eqn:Hi; [|left; eauto].
    right. exists scan. eexists. split; [done|]. split; [done|].
    split; [reflexivity|]. simpl.
    destruct (Py.truthy_str msg); simpl;
      destruct (Py.in_ints st [0; 2; 3] && negb (bool_decide (is_Some (stop_scan_date scan))));
      simpl; auto 10.
  - apply bool_decide_eq_false in Hst. left. eauto.
Qed.

Lemma revoke_all_scans rev ids w :
  scans (revoke_all rev ids w) = scans w
  ∧ scan_seq (revoke_all rev ids w) = scan_seq w
  ∧ domains (revoke_all rev ids w) = domains w
  ∧ revoked (revoke_all rev ids w) = revoked w ++ ids.
Proof.
  revert w. induction ids as [|c ids IH]; intros w; simpl.
  - by rewrite app_nil_r.
  - destruct (IH (match rev c with
                  | Some e => add_log ("Failed to revoke celery task " +:+ c +:+ ": " +:+ e)
                                      (add_revoked c w)
                  | None => add_revoked c w end)) as (-> & -> & -> & ->).
    destruct (rev c); simpl; by rewrite <- app_assoc.
Qed.

Lemma revoke_all_log_mono rev ids w line :
  line ∈ log w → line ∈ log (revoke_all rev ids w).
Proof.
  revert w. induction ids as [|c ids IH]; intros w Hin; simpl; [done|].
  apply IH. destruct (rev c); simpl; set_solver.
Qed.

Lemma revoke_all_logs_failures rev ids w c e :
  c ∈ ids → rev c = Some e →
  ("Failed to revoke celery task " +:+ c +:+ ": " +:+ e) ∈ log (revoke_all rev ids w).
Proof.
  revert w. induction ids as [|c' ids IH]; intros w Hin Hrev; [by apply elem_of_nil in Hin|].
  apply elem_of_cons in Hin as [<-|Hin]; simpl.
  - rewrite Hrev. apply revoke_all_log_mono. simpl. set_solver.
  - by apply IH.
Qed.

Lemma abort_scan_cases w i u rev now :
  let r := abort_scan i u rev now w in
  (∃ e, r = (inl e, w)
        ∧ (scans w !! i = None ∨ ∃ scan, scans w !! i = Some scan ∧ scan_status scan ∉ [-1; 1]))
  ∨ (∃ scan s',
       scans w !! i = Some scan ∧ scan_status scan ∈ [-1; 1] ∧ r.1 = inr s'
       ∧ scans r.2 = <[i := s']> (scans w)
       ∧ scan_seq r.2 = scan_seq w
       ∧ scan_status s' = 3 ∧ domain s' = domain scan
       ∧ aborted_by s' = Some u ∧ stop_scan_date s' = Some now
       ∧ error_message s' = error_message scan).
Proof.
  unfold abort_scan. simpl.
  destruct (scans w !! i) as [scan|] eqn:Hi; [|left; eauto].
  destruct (Py.in_ints (scan_status scan) [-1; 1]) eqn:Hst; simpl.
  - apply bool_decide_eq_true in Hst. right. exists scan. eexists.
    destruct (revoke_all_scans rev (celery_ids scan) w) as (Hs & Hq & _).
    simpl. rewrite Hs, Hq. auto 12.
  - apply bool_decide_eq_false in Hst. left. eauto 6.
Qed.

Lemma reachable_inv w :
  reachable w →
  keys_below_seq w
  ∧ ∀ i s, scans w !! i = Some s → terminal s → is_Some (stop_scan_date s).
Proof.
  induction 1 as [w Hemp|c w Hr [IHk IHs]].
  - unfold keys_below_seq. rewrite Hemp. split; [apply map_Forall_empty|].
    intros i s. by rewrite lookup_empty.
  - destruct c as [d e u oos imp now|i st msg now|i u rev now]; simpl.
    + destruct (create_scan_scans w d e u oos imp now)
        as [Heq|(s & Hst & Hdom & Hstop & Hx & Heq & Hseq)].
      * unfold keys_below_seq, create_scan in *. rewrite Heq. split; [|done].
        destruct (domains w !! d); [|done]. destruct (engines w !! e); [|done].
        destruct (exists_scan w d [-1; 1]); [done|]. simpl in *.
        eapply map_Forall_impl; [exact IHk|]. simpl. intros. lia.
      * unfold keys_below_seq. rewrite Heq, Hseq. split.
        -- apply map_Forall_insert_2; [lia|].
           eapply map_Forall_impl; [exact IHk|]. simpl. intros. lia.
        -- intros j s' Hj Ht. rewrite lookup_insert in Hj. case_decide; simplify_eq.
           ++ unfold terminal in Ht. rewrite Hst, !elem_of_cons, elem_of_nil in Ht. lia.
           ++ eauto.
    + destruct (update_scan_status_cases w i st msg now)
        as [(e & -> & _)|(scan & s' & Hst & Hi & _ & Heq & Hseq & Hs' & _ & _ & Hstop & _)];
        [done|].
      unfold keys_below_seq. rewrite Heq, Hseq. split.
      * apply map_Forall_insert_2; [|done]. by eapply (map_Forall_lookup_1 _ _ _ _ IHk).
      * intros j s'' Hj Ht. rewrite lookup_insert in Hj. case_decide; simplify_eq; [|eauto].
        rewrite Hstop. unfold terminal in Ht.
        destruct (stop_scan_date scan) as [d0|] eqn:Hsd.
        -- rewrite bool_decide_eq_true_2 by eauto. rewrite andb_false_r. eauto.
        -- assert (Py.in_ints (scan_status s'') [0; 2; 3] = true) as ->
             by by apply bool_decide_eq_true.
           simpl. eauto.
    + destruct (abort_scan_cases w i u rev now)
        as [(e & -> & _)|(scan & s' & Hi & Hst & _ & Heq & Hseq & Hs' & _ & _ & Hstop & _)];
        [done|].
      unfold keys_below_seq. rewrite Heq, Hseq. split.
      * apply map_Forall_insert_2; [|done]. by eapply (map_Forall_lookup_1 _ _ _ _ IHk).
      * intros j s'' Hj Ht. rewrite lookup_insert in Hj. case_decide; simplify_eq; [|eauto].
        rewrite Hstop. eauto.
Qed.

(** C1 (amended).  When the domain and the engine exist, [create_scan] raises
    [ValidationException] and changes nothing if a scan of the domain is
    pending or running, and otherwise stores and returns a new scan in status
    -1 (pending) under an unused key; so [create_scan] keeps "at most one
    pending or running scan per domain". *)
Theorem C1_create_scan_guard w d e u oos imp now dom eng :
  domains w !! d = Some dom → engines w !! e = Some eng → keys_below_seq w →
  let r := create_scan d e u oos imp now w in
  ((∃ i s, scans w !! i = Some s ∧ domain s = d ∧ non_terminal s) →
     ∃ msg, r = (inl (ValidationException msg), w))
  ∧ ((¬ ∃ i s, scans w !! i = Some s ∧ domain s = d ∧ non_terminal s) →
     ∃ pk s, r.1 = inr (pk, s) ∧ scan_status s = -1 ∧ domain s = d
             ∧ scans w !! pk = None ∧ scans r.2 = <[pk := s]> (scans w))
  ∧ (one_active_per_domain w → one_active_per_domain r.2).
Proof.
  intros Hd He Hk r. subst r. split; [|split].
  - intros Hex. apply (create_scan_conflict _ _ _ _ _ _ _ _ _ Hd He).
    by apply exists_scan_spec.
  - intros Hn.
    destruct (create_scan_ok w d e u oos imp now dom eng Hd He)
      as (s & w' & Heq & Hst & Hdom & Hsc & _).
    { apply not_true_iff_false. intros Hx. by apply Hn, exists_scan_spec. }
    exists (scan_seq w), s. rewrite Heq. simpl. repeat split; try done.
    destruct (scans w !! scan_seq w) eqn:Hl; [|done].
    apply (map_Forall_lookup_1 _ _ _ _ Hk) in Hl. lia.
  - apply create_scan_keeps_guard.
Qed.

(** C1 at work: while scan 1 of the domain is pending, a second [create_scan]
    is refused and the state is unchanged. *)
Lemma C1_create_scan_guard_witness :
  ∃ msg, create_scan 1 1 Scenario.alice None None 150 Scenario.db1
         = (inl (ValidationException msg), Scenario.db1).
Proof.
  refine (proj1 (C1_create_scan_guard Scenario.db1 1 1 Scenario.alice None None 150
                   _ _ _ _ _) _).
  - vm_compute. reflexivity.
  - vm_compute. reflexivity.
  - apply (bool_decide_unpack _). vm_compute. exact I.
  - exists 1. eexists. split; [vm_compute; reflexivity|].
    split; [reflexivity|]. unfold non_terminal. simpl. constructor.
Defined.

Lemma reachable_db4 : reachable Scenario.db4.
Proof.
  unfold Scenario.db4, Scenario.db3, Scenario.db2, Scenario.db1.
  do 4 apply reachable_run. by apply reachable_init.
Qed.

(** C1 (as stated, refuted).  "At most one pending or running scan per
    domain" is not an invariant of the service: after scan 1 completed and
    scan 2 was created, [update_scan_status] sets scan 1 back to running. *)
Lemma C1_counterexample : ¬ ∀ w, reachable w → one_active_per_domain w.
Proof.
  intros H.
  assert (1 = 2) as Habs; [|lia].
  eapply (H Scenario.db4 reachable_db4 1 2).
  - vm_compute. reflexivity.
  - vm_compute. reflexivity.
  - reflexivity.
  - unfold non_terminal. simpl. do 2 constructor.
  - unfold non_terminal. simpl. constructor.
Qed.

(** C2 (as stated, refuted).  Scan 1 is completed (2) and the request to set
    it to running (1) is accepted; and a completed scan stored without a stop
    date is changed when completed (2) is applied to it again. *)
Lemma C2_counterexample :
  (∃ scan s',
     scans Scenario.db3 !! 1 = Some scan ∧ scan_status scan = 2
     ∧ (update_scan_status 1 1 None 400 Scenario.db3).1 = inr s'
     ∧ scan_status s' = 1)
  ∧ (∃ s',
       scans Scenario.db_imported !! 1 = Some Scenario.imported_scan
       ∧ scan_status Scenario.imported_scan = 2
       ∧ (update_scan_status 1 2 None 400 Scenario.db_imported).1 = inr s'
       ∧ s' ≠ Scenario.imported_scan
       ∧ scans (update_scan_status 1 2 None 400 Scenario.db_imported).2 !! 1 = Some s').
Proof.
  split.
  - do 2 eexists. vm_compute. repeat split; reflexivity.
  - eexists. split; [vm_compute; reflexivity|]. split; [reflexivity|].
    split; [vm_compute; reflexivity|]. split; [discriminate|].
    vm_compute. reflexivity.
Qed.

(** C2 (amended).  [update_scan_status] never rejects a status because of the
    status the scan has: for an existing scan and any of the five status
    codes it succeeds and stores the requested status.  Re-applying to a
    finished scan the status it has, without an error message, returns the
    record as it was and leaves the table unchanged when the scan has a stop
    date; for a finished scan without stop date it sets the stop date to the
    current time and changes nothing else. *)
Theorem C2_update_scan_status_accepts w i scan st msg now :
  scans w !! i = Some scan → st ∈ [-1; 0; 1; 2; 3] →
  let r := update_scan_status i st msg now w in
  (∃ s', r.1 = inr s' ∧ scan_status s' = st ∧ scans r.2 !! i = Some s')
  ∧ (terminal scan → st = scan_status scan → Py.truthy_str msg = false →
     (is_Some (stop_scan_date scan) → r.1 = inr scan ∧ scans r.2 = scans w)
     ∧ (stop_scan_date scan = None →
        r.1 = inr (with_stop_scan_date (Some now) scan)
        ∧ scans r.2 = <[i := with_stop_scan_date (Some now) scan]> (scans w))).
Proof.
  intros Hi Hst r. subst r.
  destruct (update_scan_status_cases w i st msg now)
    as [(e & _ & [Hno|Hno])|(scan0 & s' & _ & Hi' & Hres & Heq & _ & Hs' & _)];
    [done|congruence|].
  split.
  - exists s'. rewrite Heq, lookup_insert_eq. done.
  - intros Ht -> Hmsg. clear Hres Heq Hs' Hi' s' scan0.
    unfold update_scan_status. rewrite Hi, Hmsg.
    assert (Hin : Py.in_ints (scan_status scan) [-1; 0; 1; 2; 3] = true)
      by by apply bool_decide_eq_true.
    assert (Hterm : Py.in_ints (scan_status scan) [0; 2; 3] = true)
      by by apply bool_decide_eq_true.
    rewrite Hin. cbn [negb]. cbv zeta.
    assert (with_status (scan_status scan) scan = scan) as -> by by destruct scan.
    rewrite Hterm. cbn [andb fst snd]. split.
    + intros Hd. rewrite bool_decide_eq_true_2 by done. cbn [negb fst snd].
      split; [done|]. by apply insert_id.
    + intros Hd. rewrite bool_decide_eq_false_2 by (rewrite Hd; by intros [? ?]).
      cbn [negb fst snd]. done.
Qed.

(** C2 at work: scan 1, running again after it had completed, is set to
    completed. *)
Lemma C2_update_scan_status_accepts_witness :
  (∃ s', (update_scan_status 1 2 None 500 Scenario.db4).1 = inr s'
         ∧ scan_status s' = 2
         ∧ scans (update_scan_status 1 2 None 500 Scenario.db4).2 !! 1 = Some s').
Proof.
  refine (proj1 (C2_update_scan_status_accepts Scenario.db4 1 _ 2 None 500 _ _)).
  - vm_compute. reflexivity.
  - repeat constructor.
Defined.

(** C5 (as stated, refuted).  In a reachable state scan 1 is running with a
    stop date, and aborting it replaces that stop date. *)
Lemma C5_counterexample :
  ∃ s s',
    reachable Scenario.db4
    ∧ scans Scenario.db4 !! 1 = Some s
    ∧ stop_scan_date s = Some 200 ∧ ¬ terminal s
    ∧ (abort_scan 1 Scenario.alice (λ _, None) 500 Scenario.db4).1 = inr s'
    ∧ stop_scan_date s' = Some 500.
Proof.
  do 2 eexists. split; [exact reachable_db4|].
  split; [vm_compute; reflexivity|]. split; [reflexivity|].
  split; [|split; vm_compute; reflexivity].
  unfold terminal. simpl. rewrite !elem_of_cons, elem_of_nil. lia.
Qed.

(** C5 (amended).  In every reachable state a scan in a terminal status has a
    stop date.  [update_scan_status] keeps a stop date that is set and writes
    the current time only when none is set and the new status is terminal;
    [abort_scan] writes the current time. *)
Theorem C5_stop_date w :
  reachable w →
  (∀ i s, scans w !! i = Some s → terminal s → is_Some (stop_scan_date s))
  ∧ (∀ i st msg now scan s',
       scans w !! i = Some scan →
       (update_scan_status i st msg now w).1 = inr s' →
       stop_scan_date s' =
         match stop_scan_date scan with
         | Some d => Some d
         | None => if Py.in_ints st [0; 2; 3] then Some now else None
         end)
  ∧ (∀ i u rev now s',
       (abort_scan i u rev now w).1 = inr s' → stop_scan_date s' = Some now).
Proof.
  intros Hr. split; [apply (reachable_inv w Hr)|]. split.
  - intros i st msg now scan s' Hi Hres.
    destruct (update_scan_status_cases w i st msg now)
      as [(e & He & _)|(scan0 & s0 & _ & Hi' & Hres' & _ & _ & _ & _ & _ & Hstop & _)].
    + rewrite He in Hres. done.
    + rewrite Hres in Hres'. injection Hres' as <-.
      rewrite Hi in Hi'. injection Hi' as <-.
      rewrite Hstop. destruct (stop_scan_date scan); simpl.
      * by rewrite andb_false_r.
      * by rewrite andb_true_r.
  - intros i u rev now s' Hres.
    destruct (abort_scan_cases w i u rev now)
      as [(e & He & _)|(scan0 & s0 & _ & _ & Hres' & _ & _ & _ & _ & _ & Hstop & _)].
    + rewrite He in Hres. done.
    + rewrite Hres in Hres'. by injection Hres' as <-.
Qed.

(** C5 at work: the completed scan 1 has a stop date. *)
Lemma C5_stop_date_witness :
  ∃ s, scans Scenario.db2 !! 1 = Some s ∧ scan_status s = 2
       ∧ is_Some (stop_scan_date s).
Proof.
  assert (Hr : reachable Scenario.db2).
  { unfold Scenario.db2, Scenario.db1. do 2 apply reachable_run.
    apply reachable_init. reflexivity. }
  pose proof (proj1 (C5_stop_date Scenario.db2 Hr) 1) as Hstop.
  eexists. split; [vm_compute; reflexivity|]. split; [reflexivity|].
  apply Hstop; [vm_compute; reflexivity|].
  unfold terminal. simpl. repeat constructor.
Defined.

(** C7.  [abort_scan] on an existing scan succeeds exactly when the scan is
    pending or running and raises [ValidationException] otherwise, changing
    nothing.  On success the stored and returned scan has status 3 (aborted),
    [aborted_by] the user and [stop_scan_date] the current time; a revocation
    was requested for every Celery id of the scan, in order, and whether or
    not revocations raise, the call succeeds and each failure is in the log. *)
Theorem C7_abort_scan w i scan user rev now :
  scans w !! i = Some scan →
  let r := abort_scan i user rev now w in
  (scan_status scan ∈ [-1; 1] →
     ∃ s', r.1 = inr s' ∧ scan_status s' = 3 ∧ aborted_by s' = Some user
           ∧ stop_scan_date s' = Some now ∧ scans r.2 !! i = Some s'
           ∧ revoked r.2 = revoked w ++ celery_ids scan
           ∧ ∀ c e, c ∈ celery_ids scan → rev c = Some e →
               ("Failed to revoke celery task " +:+ c +:+ ": " +:+ e) ∈ log r.2)
  ∧ (scan_status scan ∉ [-1; 1] →
     ∃ msg, r = (inl (ValidationException msg), w)).
Proof.
  intros Hi r. subst r. unfold abort_scan, Py.in_ints. rewrite Hi. split.
  - intros Hst. rewrite (bool_decide_eq_true_2 _ Hst). simpl.
    destruct (revoke_all_scans rev (celery_ids scan) w) as (_ & _ & _ & Hrev).
    eexists. split; [reflexivity|]. simpl. rewrite lookup_insert_eq.
    repeat split; try done.
    intros c e Hc He. apply elem_of_app. left.
    by apply revoke_all_logs_failures.
  - intros Hst. rewrite (bool_decide_eq_false_2 _ Hst). simpl. eauto.
Qed.

(** C7 at work: the running scan is aborted although the revocation of
    [task-a] fails. *)
Lemma C7_abort_scan_witness :
  ∃ s', (abort_scan 1 Scenario.alice Scenario.revoke_error 500 Scenario.db_running).1
        = inr s'
        ∧ scan_status s' = 3 ∧ aborted_by s' = Some Scenario.alice
        ∧ stop_scan_date s' = Some 500.
Proof.
  destruct (proj1 (C7_abort_scan Scenario.db_running 1 Scenario.running_scan
                     Scenario.alice Scenario.revoke_error 500 eq_refl))
    as (s' & H1 & H2 & H3 & H4 & _).
  - simpl. repeat constructor.
  - exists s'. auto.
Defined.

(** C10.  [update_scan_status] called with [None] or [''] as error message
    leaves the error message of every stored scan as it was, and the scan it
    returns carries the error message the scan had. *)
Theorem C10_error_message_kept w i st msg now :
  msg = None ∨ msg = Some "" →
  let r := update_scan_status i st msg now w in
  (∀ j, error_message <$> scans r.2 !! j = error_message <$> scans w !! j)
  ∧ (∀ scan s', scans w !! i = Some scan → r.1 = inr s' →
       error_message s' = error_message scan).
Proof.
  intros Hmsg r. subst r.
  assert (Hf : Py.truthy_str msg = false) by by destruct Hmsg as [->| ->].
  destruct (update_scan_status_cases w i st msg now)
    as [(e & He & _)
       |(scan0 & s0 & _ & Hi' & Hres' & Heq & _ & _ & _ & _ & _ & Hmsg')].
  - rewrite He. simpl. split; [done|]. intros; discriminate.
  - rewrite Hf in Hmsg'. split.
    + intros j. rewrite Heq, lookup_insert. case_decide; [|done].
      subst j. rewrite Hi'. simpl. by rewrite Hmsg'.
    + intros scan s' Hi Hres. rewrite Hres in Hres'. injection Hres' as <-.
      rewrite Hi in Hi'. by injection Hi' as <-.
Qed.

(** C10 at work: a status update with [''] keeps the recorded error message. *)
Lemma C10_error_message_kept_witness :
  error_message <$> scans (update_scan_status 1 0 (Some "") 500 Scenario.db_running).2 !! 1
  = Some (Some "timeout in port_scan").
Proof.
  exact (proj1 (C10_error_message_kept Scenario.db_running 1 0 (Some "") 500
                  (or_intror eq_refl)) 1).
Defined.

Lemma completed_count_sorted (l : list ScanActivity) :
  length (filter (λ a, activity_status a = 2) (order_by_time l))
  = length (filter (λ a, activity_status a = 2) l).
Proof.
  unfold order_by_time. apply Permutation_length.
  apply filter_Permutation. apply merge_sort_Permutation.
Qed.

Lemma length_remove_dups_le (l : list string) :
  (length (remove_dups l) ≤ length l)%nat.
Proof.
  induction l as [|x l IH]; simpl; [lia|].
  destruct (decide_rel elem_of x l); simpl; lia.
Qed.

Lemma remove_dups_NoDup (l : list string) : NoDup l → remove_dups l = l.
Proof.
  induction 1 as [|x l Hx Hl IH]; simpl; [done|].
  destruct (decide_rel elem_of x l); [done|]. by rewrite IH.
Qed.

(** C6 (as stated, refuted).  Two completed entries of the step [port_scan]
    count as two completed tasks, while there is one distinct step name. *)
Lemma C6_counterexample :
  ∃ p, get_scan_details 1 Scenario.db_running = inr p
       ∧ completed_tasks p = 2
       ∧ distinct_completed 1 Scenario.db_running = 1.
Proof. eexists. vm_compute. repeat split; reflexivity. Qed.

(** C6 (amended).  For every scan whose domain has a project,
    [get_scan_details] returns a progress with: [total_tasks] the length of
    the task list (0 when there is none); [completed_tasks] the number of
    activity entries of the scan with status 2, each entry counted, so it is
    at least the number of distinct completed step names and equal to it when
    no step name is completed twice; [percentage] the integer 0 when
    [total_tasks] is 0, and otherwise the float
    [round(completed_tasks / total_tasks * 100, 2)], where the quotient and
    the product are each rounded to the nearest float. *)
Theorem C6_progress w i scan :
  scans w !! i = Some scan → is_Some (scan_project scan w) →
  ∃ p, get_scan_details i w = inr p
    ∧ total_tasks p = Z.of_nat (length (default [] (tasks scan)))
    ∧ completed_tasks p
      = Z.of_nat (length (filter (λ a, activity_status a = 2) (scanactivity_set i w)))
    ∧ distinct_completed i w ≤ completed_tasks p
    ∧ (NoDup (map activity_name
                (filter (λ a, activity_status a = 2) (scanactivity_set i w))) →
       completed_tasks p = distinct_completed i w)
    ∧ (total_tasks p = 0 → percentage p = PyInt 0)
    ∧ (total_tasks p ≠ 0 →
       percentage p
       = PyFloat (round2 (float_mul (true_divide (completed_tasks p) (total_tasks p))
                            100))).
Proof.
  intros Hi [project Hproject]. unfold get_scan_details. rewrite Hi, Hproject.
  eexists. split; [reflexivity|].
  simpl. rewrite completed_count_sorted.
  split; [by destruct (tasks scan) as [[|t ts]|]|].
  split; [done|]. unfold distinct_completed. split; [|split; [|split]].
  - apply inj_le. etrans; [apply length_remove_dups_le|]. by rewrite length_map.
  - intros Hnd. by rewrite (remove_dups_NoDup _ Hnd), length_map.
  - intros Ht. destruct (tasks scan) as [[|t ts]|]; simpl in *; try done; lia.
  - intros Ht. destruct (tasks scan) as [[|t ts]|]; simpl in *; try done.
Qed.

(** C6 at work: the running scan has two declared tasks, and both of its
    completed entries count. *)
Lemma C6_progress_witness :
  ∃ p, get_scan_details 1 Scenario.db_running = inr p
       ∧ total_tasks p = 2 ∧ completed_tasks p = 2.
Proof.
  destruct (C6_progress Scenario.db_running 1 Scenario.running_scan eq_refl)
    as (p & Hp & Ht & Hc & _).
  - by eexists.
  - exists p. split; [exact Hp|]. split; [exact Ht|exact Hc].
Defined.

(** A scan whose domain has no project has no details: the entry
    [scan.domain.project.name] raises. *)
Lemma get_scan_details_without_project w i scan :
  scans w !! i = Some scan → scan_project scan w = None →
  ∃ message, get_scan_details i w = inl (AttributeError message).
Proof. intros Hi Hp. unfold get_scan_details. rewrite Hi, Hp. by eexists. Qed.

(** The percentage is computed on floats: 23 of 160 tasks give 14.37 and 49
    of 160 give 30.63, where the exact quotients 14.375 and 30.625 would be
    rounded to 14.38 and 30.62. *)
Example percentage_on_floats :
  round2 (float_mul (true_divide 23 160) 100) = nearest (1437 # 100)
  ∧ round2 (float_mul (true_divide 49 160) 100) = nearest (3063 # 100)
  ∧ round_half_even ((23 # 160) * 100 * 100)%Q = 1438
  ∧ round_half_even ((49 # 160) * 100 * 100)%Q = 3062.
Proof. vm_compute. repeat split; reflexivity. Qed.

(** The quotient and the product agree with the IEEE 754 specification on
    these counts, among them counts beyond [2 ** 53]. *)
Example floats_agree_with_ieee :
  forallb (λ x, Qeq_bool (IEEE.quotient_times_100 x.1 x.2)
                         (float_mul (true_divide x.1 x.2) 100))
    [(23, 160); (49, 160); (1, 3); (2, 3); (1, 7); (5, 9); (0, 4); (7, 2);
     (99, 100); (4611686018427387903, 3); (7, 2305843009213693951);
     (123456789123456789, 987654321987654321)]
  = true.
Proof. vm_compute. reflexivity. Qed.

(** The scenario of a guarded target: a second [create_scan] is refused
    while scan 1 is pending; once scan 1 is running and then aborted, a scan
    of the same domain is created again. *)
Example create_after_abort :
  let refused := create_scan 1 1 Scenario.alice None None 150 Scenario.db1 in
  let running := run (UpdateScanStatus 1 1 None 200) Scenario.db1 in
  let aborted := run (AbortScan 1 Scenario.alice (λ _, None) 300) running in
  let again := create_scan 1 1 Scenario.alice None None 400 aborted in
  (∃ msg, refused.1 = inl (ValidationException msg))
  ∧ (scan_status <$> scans aborted !! 1) = Some 3
  ∧ (stop_scan_date <$> scans aborted !! 1) = Some (Some 300)
  ∧ (∃ s, again.1 = inr (2, s) ∧ scan_status s = -1).
Proof.
  vm_compute. split; [eexists; reflexivity|]. split; [reflexivity|].
  split; [reflexivity|]. eexists. split; reflexivity.
Qed.

End ScanLifecycle.

(** ** Digests and signatures *)

Section DigestFacts.
Import SHA256.

Lemma hexchar_cases d :
  hexchar d ∈ ["0"; "1"; "2"; "3"; "4"; "5"; "6"; "7"; "8"; "9";
               "a"; "b"; "c"; "d"; "e"; "f"]%char.
Proof.
  unfold hexchar.
  repeat match goal with
         | |- context [match ?x with _ => _ end] => destruct x
         end;
    rewrite !elem_of_cons; tauto.
Qed.

Lemma hexchar_ascii d : (Py.code (hexchar d) <? 128) = true.
Proof.
  pose proof (hexchar_cases d) as H. rewrite !elem_of_cons, elem_of_nil in H.
  repeat destruct H as [-> | H]; try reflexivity. done.
Qed.

Lemma hexchar_not_s d : hexchar d ≠ "s"%char.
Proof.
  pose proof (hexchar_cases d) as H. rewrite !elem_of_cons, elem_of_nil in H.
  repeat destruct H as [-> | H]; try discriminate. done.
Qed.

Lemma hex_isascii bs : Py.isascii (hex bs) = true.
Proof.
  induction bs as [|b bs IH]; [done|].
  cbn [hex Py.isascii]. by rewrite !hexchar_ascii, IH.
Qed.

Lemma digest_cons h : ∃ b bs, digest h = b :: bs.
Proof.
  unfold digest, words, be_bytes. cbn [map concat seq rev app]. eauto.
Qed.

Lemma hexdigest_isascii h : Py.isascii (hexdigest h) = true.
Proof. apply hex_isascii. Qed.

Lemma hexdigest_no_prefix h : Py.startswith "sha256=" (hexdigest h) = false.
Proof.
  unfold hexdigest. destruct (digest_cons h) as (b & bs & ->).
  cbn [hex Py.startswith]. case_decide as Hc; [|done].
  by apply symmetry, hexchar_not_s in Hc.
Qed.

End DigestFacts.

Section Signature.
Import Webhook.

Lemma compare_digest_ascii a b :
  Py.isascii a = true → Py.isascii b = true →
  compare_digest a b = Some (bool_decide (a = b)).
Proof. intros Ha Hb. unfold compare_digest. by rewrite Ha, Hb. Qed.

(** What [verify_signature] answers on a signature made of the optional
    prefix and a digest. *)
Lemma verify_signature_hexdigest payload secret h :
  let expected :=
    SHA256.hexdigest (SHA256.hmac (Py.encode_utf8 secret) (Py.encode_utf8 payload)) in
  verify_signature payload ("sha256=" +:+ SHA256.hexdigest h) secret
  = Some (bool_decide (SHA256.hexdigest h = expected))
  ∧ verify_signature payload (SHA256.hexdigest h) secret
    = Some (bool_decide (SHA256.hexdigest h = expected)).
Proof.
  intros expected. unfold verify_signature. split.
  - change (Py.startswith "sha256=" ("sha256=" +:+ SHA256.hexdigest h)) with true.
    cbn iota.
    change (Py.str_drop 7 ("sha256=" +:+ SHA256.hexdigest h)) with (SHA256.hexdigest h).
    apply compare_digest_ascii; apply hexdigest_isascii.
  - rewrite hexdigest_no_prefix.
    apply compare_digest_ascii; apply hexdigest_isascii.
Qed.

End Signature.

Section SignatureFacts.
Import Webhook.

(** The signature of a payload verifies against the text that was signed,
    [json.dumps(payload, sort_keys=True)], for every payload and secret. *)
Lemma signature_round_trip payload secret :
  verify_signature (dumps true payload) (_generate_signature payload secret) secret
  = Some true.
Proof.
  unfold _generate_signature.
  rewrite (proj1 (verify_signature_hexdigest _ _ _)).
  by rewrite bool_decide_eq_true_2.
Qed.

(** C9.  [verify_signature] accepts the digest of the payload with the prefix
    [sha256=] and without it. *)
Theorem C9_prefix_optional payload secret :
  let hexdigest :=
    SHA256.hexdigest (SHA256.hmac (Py.encode_utf8 secret) (Py.encode_utf8 payload)) in
  verify_signature payload ("sha256=" +:+ hexdigest) secret = Some true
  ∧ verify_signature payload hexdigest secret = Some true.
Proof.
  intros hexdigest. subst hexdigest.
  destruct (verify_signature_hexdigest payload secret
              (SHA256.hmac (Py.encode_utf8 secret) (Py.encode_utf8 payload)))
    as [-> ->].
  by rewrite bool_decide_eq_true_2.
Qed.

(** The envelope of a [scan.completed] event signed with ["s3cret"]: the
    signature verifies against the signed bytes, not against a body in which
    42 became 43, and not against the same envelope serialised with its keys
    in insertion order, which is what [json.dumps] gives without [sort_keys]. *)
Example signature_scenario :
  let envelope scan_id :=
    JDict [("event", JStr SCAN_COMPLETED); ("timestamp", JStr "2024-01-01T00:00:00");
           ("data", JDict [("scan_id", JInt scan_id)])] in
  let signature := _generate_signature (envelope 42) "s3cret" in
  verify_signature (dumps true (envelope 42)) signature "s3cret" = Some true
  ∧ verify_signature (dumps true (envelope 43)) signature "s3cret" = Some false
  ∧ verify_signature (dumps false (envelope 42)) signature "s3cret" = Some false.
Proof. vm_compute. repeat split; reflexivity. Qed.

End SignatureFacts.

(** ** Webhook delivery *)

Section DeliveryFacts.
Import Webhook Delivery.

Lemma timeline_app es es' : timeline (es ++ es') = timeline es ++ timeline es'.
Proof. apply omap_app. Qed.

Lemma post_count_cons e es :
  post_count (e :: es) = if is_post e then S (post_count es) else post_count es.
Proof.
  unfold post_count. rewrite filter_cons.
  destruct (is_post e); by case_decide.
Qed.

Lemma send_loop_failing self url event body headers utcnow endpoint attempts w :
  (∀ k, fails (endpoint k)) →
  ∃ es,
    send_loop self url event body headers utcnow endpoint attempts w
    = (None, {| subscriptions := subscriptions w; deliveries := deliveries w;
                effects := effects w ++ es |})
    ∧ post_count es = length attempts
    ∧ ((∀ k, raises (endpoint k)) → timeline es = backoff self attempts).
Proof.
  intros Hfail. revert w. induction attempts as [|attempt rest IH]; intros w.
  - exists []. cbn. rewrite app_nil_r. by destruct w.
  - cbn [send_loop]. specialize (Hfail attempt) as Hk.
    destruct (endpoint attempt) as [code text|e] eqn:Hep; cbn in Hk.
    + unfold Py.in_ints. rewrite (bool_decide_eq_false_2 _ Hk).
      match goal with |- context [send_loop _ _ _ _ _ _ _ rest ?w'] =>
        destruct (IH w') as (es & -> & Hc & Ht) end.
      eexists (_ :: _ :: es). cbn [emit effects subscriptions deliveries].
      rewrite <- !app_assoc. split; [reflexivity|]. split.
      * rewrite !post_count_cons. cbn [is_post]. by rewrite Hc.
      * intros Hr. specialize (Hr attempt). by rewrite Hep in Hr.
    + match goal with |- context [send_loop _ _ _ _ _ _ _ rest ?w'] =>
        destruct (IH w') as (es & -> & Hc & Ht) end.
      destruct (attempt <? max_retries self - 1) eqn:Hlt.
      * eexists (_ :: _ :: _ :: es). cbn [emit effects subscriptions deliveries].
        rewrite <- !app_assoc. split; [reflexivity|]. split.
        -- rewrite !post_count_cons. cbn [is_post]. by rewrite Hc.
        -- intros Hr. cbn. rewrite Hlt. cbn. f_equal. f_equal. by apply Ht.
      * eexists (_ :: _ :: es). cbn [emit effects subscriptions deliveries].
        rewrite <- !app_assoc. split; [reflexivity|]. split.
        -- rewrite !post_count_cons. cbn [is_post]. by rewrite Hc.
        -- intros Hr. cbn. rewrite Hlt. cbn. f_equal. by apply Ht.
Qed.

Lemma last_log_entry (l : list LogEntry) (x : LogEntry) :
  last (drop (length (l ++ [x]) - 10) (l ++ [x])) = Some x.
Proof.
  rewrite length_app. cbn [length].
  destruct (decide (length l + 1 - 10 ≤ length l)%nat) as [Hle|Hgt]; [|lia].
  rewrite drop_app_le by lia. apply last_snoc.
Qed.

(** C3 (as stated, refuted).  A subscriber that always answers 500 gets three
    POSTs, not [max_retries + 1 = 4], and no wait separates them. *)
Lemma C3_counterexample :
  let r := send_webhook __init__ "2.0" "https://hook.example/x" SCAN_COMPLETED
             (JDict [("scan_id", JInt 42)]) (Some "s3cret") None
             "2024-01-01T00:00:00" always_500 empty_world in
  r.1 = false
  ∧ timeline (effects r.2) = [Attempt; Attempt; Attempt]
  ∧ Z.of_nat (post_count (effects r.2)) ≠ max_retries __init__ + 1.
Proof. vm_compute. split; [reflexivity|]. split; [reflexivity|]. discriminate. Qed.

(** C3 (amended).  A delivery whose attempts all fail makes exactly
    [max_retries] POSTs (three for the manager [__init__] builds), returns
    [False] and ends by logging the delivery as failed, after which nothing is
    sent.  When the attempts fail by raising [RequestException], attempt
    number [k] (from 1), unless it is the last, is followed by a wait of
    [retry_delay * k] seconds. *)
Theorem C3_delivery_attempts self version url event payload secret headers utcnow
    endpoint w :
  (∀ k, fails (endpoint k)) →
  let r := send_webhook self version url event payload secret headers utcnow endpoint w in
  ∃ es,
    r.1 = false
    ∧ effects r.2 = effects w ++ es
    ∧ post_count es = Z.to_nat (max_retries self)
    ∧ ((∀ k, raises (endpoint k)) →
       timeline es = backoff self (Py.range (max_retries self)))
    ∧ last (default [] (deliveries r.2 !! ("webhook_log:" +:+ url +:+ ":" +:+ event)))
      = Some (failed_entry url event utcnow).
Proof.
  intros Hfail r. subst r. unfold send_webhook.
  match goal with |- context [send_loop ?s ?u ?e ?b ?h ?t ?ep ?a ?w0] =>
    destruct (send_loop_failing s u e b h t ep a w0 Hfail) as (es & -> & Hc & Ht) end.
  exists es. cbn [fst snd]. split; [done|]. split; [done|].
  split; [by rewrite Hc; apply length_seqZ|]. split; [done|].
  unfold _log_webhook_delivery, set_deliveries. cbn [deliveries].
  rewrite lookup_insert_eq. cbn [default]. apply last_log_entry.
Qed.

(** C3 at work: against a subscriber that is down, the manager makes three
    attempts, waiting 5 and then 10 seconds. *)
Lemma C3_delivery_attempts_witness :
  ∃ es,
    (send_webhook __init__ "2.0" "https://hook.example/x" SCAN_COMPLETED
       (JDict [("scan_id", JInt 42)]) None None "2024-01-01T00:00:00"
       always_down empty_world).1 = false
    ∧ post_count es = 3%nat
    ∧ timeline es = [Attempt; Wait 5; Attempt; Wait 10; Attempt].
Proof.
  destruct (C3_delivery_attempts __init__ "2.0" "https://hook.example/x" SCAN_COMPLETED
              (JDict [("scan_id", JInt 42)]) None None "2024-01-01T00:00:00"
              always_down empty_world (λ _, I))
    as (es & Hres & _ & Hc & Ht & _).
  exists es. split; [exact Hres|]. split; [exact Hc|]. exact (Ht (λ _, I)).
Defined.

End DeliveryFacts.

(** ** Subscription registry *)

Section RegistryFacts.
Import Webhook.

Lemma subscriptions_key_inj e1 e2 : subscriptions_key e1 = subscriptions_key e2 → e1 = e2.
Proof. unfold subscriptions_key. apply (inj (String.app _)). Qed.

Lemma get_set_subscriptions evt e l w :
  get_subscriptions evt (set_subscriptions (subscriptions_key e) l w)
  = if decide (e = evt) then l else get_subscriptions evt w.
Proof.
  unfold get_subscriptions, set_subscriptions. cbn [subscriptions].
  rewrite lookup_insert. destruct (decide (e = evt)) as [->|Hne].
  - by rewrite decide_True.
  - rewrite decide_False; [done|]. intros Hk. by apply subscriptions_key_inj in Hk.
Qed.

Lemma filter_twice (url : string) (l : list Subscription) :
  filter (λ sub, sub_url sub ≠ url) (filter (λ sub, sub_url sub ≠ url) l)
  = filter (λ sub, sub_url sub ≠ url) l.
Proof.
  induction l as [|x l IH]; [done|].
  rewrite (filter_cons _ x l). case_decide; [|done].
  rewrite filter_cons_True by done. by rewrite IH.
Qed.

Lemma remove_from_events url evs evt w :
  get_subscriptions evt
    (foldl (λ w evt,
              let subs := get_subscriptions evt w in
              let subs := filter (λ sub, sub_url sub ≠ url) subs in
              set_subscriptions (subscriptions_key evt) subs w) w evs)
  = if decide (evt ∈ evs)
    then filter (λ sub, sub_url sub ≠ url) (get_subscriptions evt w)
    else get_subscriptions evt w.
Proof.
  revert w. induction evs as [|e evs IH]; intros w.
  - by rewrite decide_False by apply not_elem_of_nil.
  - cbn [foldl]. rewrite IH, !get_set_subscriptions.
    destruct (decide (e = evt)) as [->|Hne].
    + rewrite (decide_True (P := evt ∈ evt :: evs)) by apply list_elem_of_here.
      rewrite filter_twice. by case_decide.
    + destruct (decide (evt ∈ evs)) as [Hin|Hnin].
      * by rewrite decide_True by by apply list_elem_of_further.
      * rewrite decide_False; [done|]. rewrite elem_of_cons. by intros [->|?].
Qed.

(** C8.  The hook is subscribed to [scan.completed] and to [webhook.test];
    after [remove_subscription] without an event it has left the list of
    [scan.completed] and is still in the list of [webhook.test]. *)
Lemma C8_subscription_survives :
  let w' := remove_subscription Registry.hook_url None Registry.subscribed in
  Registry.hook_url ∈ sub_url <$> get_subscriptions SCAN_COMPLETED Registry.subscribed
  ∧ Registry.hook_url ∈ sub_url <$> get_subscriptions "webhook.test" Registry.subscribed
  ∧ (Registry.hook_url ∉ sub_url <$> get_subscriptions SCAN_COMPLETED w')
  ∧ Registry.hook_url ∈ sub_url <$> get_subscriptions "webhook.test" w'.
Proof.
  vm_compute. split; [constructor|]. split; [constructor|].
  split; [|constructor]. by intros ?%elem_of_nil.
Qed.

(** [remove_subscription] without an event goes through the six events of
    [WebhookEvent]: none of their lists has an entry for the URL afterwards,
    their other entries are kept, and it reads and writes no other list. *)
Lemma remove_subscription_listed_events url w :
  let w' := remove_subscription url None w in
  (∀ evt, evt ∈ all_events →
     get_subscriptions evt w'
     = filter (λ sub, sub_url sub ≠ url) (get_subscriptions evt w))
  ∧ (∀ evt sub, evt ∈ all_events → sub ∈ get_subscriptions evt w' → sub_url sub ≠ url)
  ∧ (∀ evt, evt ∉ all_events → get_subscriptions evt w' = get_subscriptions evt w).
Proof.
  intros w'. subst w'. unfold remove_subscription. cbn [Py.truthy_str].
  split; [|split].
  - intros evt Hin. rewrite remove_from_events. by rewrite decide_True.
  - intros evt sub Hin. rewrite remove_from_events, decide_True by done.
    rewrite list_elem_of_filter. tauto.
  - intros evt Hnin. rewrite remove_from_events. by rewrite decide_False.
Qed.

End RegistryFacts.

(** ** The scan service: errors, written fields and frames *)

Section ScanServiceMore.
Import ScanService Lifecycle Ledger.

(** X1.  [create_scan] looks up the domain first and the engine second: an
    unknown domain raises [ResourceNotFoundException('Domain', domain_id)]
    whatever the engine is, a known domain with an unknown engine raises
    [ResourceNotFoundException('EngineType', scan_type_id)]; in both cases
    nothing is written. *)
Theorem X1_create_scan_not_found w d e u oos imp now :
  (domains w !! d = None →
   create_scan d e u oos imp now w = (inl (ResourceNotFoundException "Domain" d), w))
  ∧ (is_Some (domains w !! d) → engines w !! e = None →
     create_scan d e u oos imp now w = (inl (ResourceNotFoundException "EngineType" e), w)).
Proof.
  unfold create_scan. split.
  - by intros ->.
  - intros [dom ->] ->. done.
Qed.

(** X2.  What a successful [create_scan] leaves behind: the scan takes the
    next primary key and is stored under it; it is a pending scan of the
    given domain and engine, started at the current time, with the calling
    user as initiator, the given subdomain lists ([[]] for [None]) and the
    task list of the engine ([[]] for an engine without [tasks]); the
    domain's [start_scan_date] is set, its name and project are kept; other
    domains, the engines, the activities and the revoked tasks are
    untouched. *)
Theorem X2_create_scan_result w d e u oos imp now pk s :
  (create_scan d e u oos imp now w).1 = inr (pk, s) →
  let w' := (create_scan d e u oos imp now w).2 in
  pk = scan_seq w ∧ scan_seq w' = pk + 1
  ∧ scans w' = <[pk := s]> (scans w)
  ∧ (domain s = d ∧ scan_type s = e ∧ scan_status s = -1
     ∧ start_scan_date s = now ∧ initiated_by s = u
     ∧ cfg_out_of_scope_subdomains s = default [] oos
     ∧ cfg_imported_subdomains s = default [] imp
     ∧ ∃ eng, engines w !! e = Some eng
         ∧ tasks s = default (Some []) (engine_tasks eng))
  ∧ (∃ dom dom', domains w !! d = Some dom ∧ domains w' !! d = Some dom'
       ∧ is_Some (domain_start_scan_date dom')
       ∧ domain_name dom' = domain_name dom
       ∧ domain_project dom' = domain_project dom)
  ∧ (∀ d', d' ≠ d → domains w' !! d' = domains w !! d')
  ∧ engines w' = engines w ∧ activities w' = activities w ∧ revoked w' = revoked w.
Proof.
  unfold create_scan.
  destruct (domains w !! d) as [dom|] eqn:Hd; [|done].
  destruct (engines w !! e) as [eng|] eqn:He; [|done].
  destruct (exists_scan w d [-1; 1]); [done|].
  cbn [fst snd]. intros [= <- <-].
  cbn. do 3 (split; [done|]). split; [|split].
  - do 7 (split; [done|]). by exists eng.
  - eexists dom, _. rewrite lookup_insert_eq. cbn. repeat split; try done.
  - split; [|done]. intros d' Hne. by rewrite lookup_insert_ne.
Qed.

(** X2 at work: the first scan of the domain, with one imported subdomain. *)
Lemma X2_create_scan_result_witness :
  ∃ s, (create_scan 1 1 Scenario.alice None (Some ["api.example.com"]) 100 Scenario.db0).1
       = inr (1, s)
       ∧ scan_status s = -1
       ∧ cfg_imported_subdomains s = ["api.example.com"]
       ∧ scan_seq (create_scan 1 1 Scenario.alice None (Some ["api.example.com"]) 100
                     Scenario.db0).2 = 2.
Proof.
  eexists. split; [vm_compute; reflexivity|].
  destruct (X2_create_scan_result Scenario.db0 1 1 Scenario.alice None
              (Some ["api.example.com"]) 100 1 _ eq_refl)
    as (_ & Hq & _ & (_ & _ & Hs & _ & _ & _ & Hi & _) & _).
  split; [exact Hs|]. split; [exact Hi|exact Hq].
Defined.

(** X3.  [update_scan_status] checks the status before it looks for the scan:
    a status outside -1, 0, 1, 2, 3 raises [ValidationException] even for a
    scan that does not exist, a valid status for a missing scan raises
    [ResourceNotFoundException('ScanHistory', scan_id)]; nothing is written
    either way. *)
Theorem X3_update_scan_status_rejects w i st msg now :
  (st ∉ [-1; 0; 1; 2; 3] →
   ∃ m, update_scan_status i st msg now w = (inl (ValidationException m), w))
  ∧ (st ∈ [-1; 0; 1; 2; 3] → scans w !! i = None →
     update_scan_status i st msg now w
     = (inl (ResourceNotFoundException "ScanHistory" i), w)).
Proof.
  unfold update_scan_status, Py.in_ints. split.
  - intros Hst. rewrite (bool_decide_eq_false_2 _ Hst). cbn. eauto.
  - intros Hst Hi. rewrite (bool_decide_eq_true_2 _ Hst), Hi. done.
Qed.

Lemma length_str_take n s :
  String.length (Py.str_take n s) = (n `min` String.length s)%nat.
Proof.
  revert s. induction n as [|n IH]; intros [|c s]; simpl; try done.
  by rewrite IH.
Qed.

Lemma str_take_drop n s : Py.str_take n s +:+ Py.str_drop n s = s.
Proof.
  revert s. induction n as [|n IH]; intros [|c s]; simpl; try done.
  transitivity (String c (Py.str_take n s +:+ Py.str_drop n s)); [done|].
  by rewrite IH.
Qed.

Lemma str_take_all n s : (String.length s ≤ n)%nat → Py.str_take n s = s.
Proof.
  revert s. induction n as [|n IH]; intros [|c s] Hl; simpl in *; try done; try lia.
  f_equal. apply IH. lia.
Qed.

(** X4.  A non-empty error message given to [update_scan_status] is stored
    cut to its first 300 characters: the stored text has at most 300
    characters, it is a prefix of the message (the message is the stored text
    followed by what [message[300:]] holds), and a message of at most 300
    characters is stored whole. *)
Theorem X4_error_message_truncated w i scan st m now :
  scans w !! i = Some scan → st ∈ [-1; 0; 1; 2; 3] → m ≠ "" →
  ∃ s' kept,
    (update_scan_status i st (Some m) now w).1 = inr s'
    ∧ scans (update_scan_status i st (Some m) now w).2 !! i = Some s'
    ∧ error_message s' = Some kept
    ∧ (String.length kept ≤ 300)%nat
    ∧ kept +:+ Py.str_drop 300 m = m
    ∧ ((String.length m ≤ 300)%nat → kept = m).
Proof.
  intros Hi Hst Hm.
  destruct (update_scan_status_cases w i st (Some m) now)
    as [(e & _ & [Hno|Hno])|(scan0 & s' & _ & _ & Hres & Heq & _ & _ & _ & _ & _ & Hmsg)];
    [done|congruence|].
  exists s', (Py.str_take 300 m). split; [done|].
  split; [by rewrite Heq, lookup_insert_eq|].
  assert (Py.truthy_str (Some m) = true) as Ht by by destruct m.
  rewrite Ht in Hmsg. split; [done|]. split; [rewrite length_str_take; lia|].
  split; [apply str_take_drop|apply str_take_all].
Qed.

(** X4 at work: a short message is stored whole on the running scan. *)
Lemma X4_error_message_truncated_witness :
  ∃ s' kept,
    (update_scan_status 1 0 (Some "nmap exited with status 1") 500 Scenario.db_running).1
    = inr s'
    ∧ error_message s' = Some kept ∧ kept = "nmap exited with status 1".
Proof.
  destruct (X4_error_message_truncated Scenario.db_running 1 Scenario.running_scan 0
              "nmap exited with status 1" 500 eq_refl)
    as (s' & kept & H1 & _ & H3 & _ & _ & H6).
  - repeat constructor.
  - discriminate.
  - exists s', kept. split; [exact H1|]. split; [exact H3|].
    apply H6. vm_compute. lia.
Defined.

(** X5.  [update_scan_status] touches one row only: every other scan, the
    domains, the engines, the activities, the revoked tasks and the key
    sequence are as before, and the updated scan keeps its domain, engine,
    start date, initiator, aborting user, tasks, Celery ids and subdomain
    lists. *)
Theorem X5_update_scan_status_frame w i st msg now :
  let w' := (update_scan_status i st msg now w).2 in
  (∀ j, j ≠ i → scans w' !! j = scans w !! j)
  ∧ domains w' = domains w ∧ engines w' = engines w
  ∧ activities w' = activities w ∧ revoked w' = revoked w
  ∧ scan_seq w' = scan_seq w
  ∧ ∀ scan s', scans w !! i = Some scan → scans w' !! i = Some s' →
      domain s' = domain scan ∧ scan_type s' = scan_type scan
      ∧ start_scan_date s' = start_scan_date scan
      ∧ initiated_by s' = initiated_by scan ∧ aborted_by s' = aborted_by scan
      ∧ tasks s' = tasks scan ∧ celery_ids s' = celery_ids scan
      ∧ cfg_out_of_scope_subdomains s' = cfg_out_of_scope_subdomains scan
      ∧ cfg_imported_subdomains s' = cfg_imported_subdomains scan.
Proof.
  unfold update_scan_status.
  destruct (Py.in_ints st [-1; 0; 1; 2; 3]); cbn [negb].
  - destruct (scans w !! i) as [scan|] eqn:Hi.
    + cbn [snd add_log set_scans scans domains engines activities revoked scan_seq].
      split; [intros j Hj; by rewrite lookup_insert_ne|]. do 5 (split; [done|]).
      intros scan0 s' [= <-] Hs. rewrite lookup_insert_eq in Hs. injection Hs as <-.
      destruct (Py.truthy_str msg);
        destruct (Py.in_ints st [0; 2; 3] && _); cbn; auto 10.
    + cbn. do 6 (split; [done|]). by intros ?? Hs.
  - cbn. do 6 (split; [done|]). intros scan s' -> [= <-]. auto 10.
Qed.

(** X6.  A scan is aborted once: after a successful [abort_scan], every
    further [abort_scan] of the same scan, by any user and at any time,
    raises [ValidationException] and leaves the state as the first call
    left it. *)
Theorem X6_abort_scan_once w i u rev now s' :
  (abort_scan i u rev now w).1 = inr s' →
  ∀ u2 rev2 now2, ∃ msg,
    abort_scan i u2 rev2 now2 (abort_scan i u rev now w).2
    = (inl (ValidationException msg), (abort_scan i u rev now w).2).
Proof.
  intros Hres u2 rev2 now2.
  destruct (abort_scan_cases w i u rev now)
    as [(e & He & _)|(scan & s0 & _ & _ & Hres' & Heq & _ & Hst & _)].
  { rewrite He in Hres. done. }
  rewrite Hres in Hres'. injection Hres' as <-.
  unfold abort_scan at 1. rewrite Heq, lookup_insert_eq, Hst. cbn. eauto.
Qed.

(** X6 at work: the running scan, once aborted, cannot be aborted again. *)
Lemma X6_abort_scan_once_witness :
  ∃ msg,
    abort_scan 1 Scenario.alice (λ _, None) 600
      (abort_scan 1 Scenario.alice Scenario.revoke_error 500 Scenario.db_running).2
    = (inl (ValidationException msg),
       (abort_scan 1 Scenario.alice Scenario.revoke_error 500 Scenario.db_running).2).
Proof.
  exact (X6_abort_scan_once Scenario.db_running 1 Scenario.alice Scenario.revoke_error
           500 _ eq_refl Scenario.alice (λ _, None) 600).
Defined.

(** Once its one pending or running scan is finished, a domain can be scanned
    again. *)
Lemma create_scan_after_release w w' i scan s' e eng dom u oos imp now :
  one_active_per_domain w →
  scans w !! i = Some scan → non_terminal scan →
  scans w' = <[i := s']> (scans w) → ¬ non_terminal s' →
  domains w' !! domain scan = Some dom → engines w' !! e = Some eng →
  ∃ s, (create_scan (domain scan) e u oos imp now w').1 = inr (scan_seq w', s)
       ∧ scan_status s = -1.
Proof.
  intros Hone Hi Hnt Heq Ht Hd He.
  destruct (create_scan_ok w' (domain scan) e u oos imp now dom eng Hd He)
    as (s & w'' & -> & Hst & _).
  - apply not_true_iff_false. intros (j & sj & Hj & Hdj & Hsj)%exists_scan_spec.
    rewrite Heq, lookup_insert in Hj. case_decide; simplify_eq; [done|].
    by assert (j = i) by by eapply (Hone j i sj scan).
  - by exists s.
Qed.

Lemma revoke_all_frame rev ids w :
  engines (revoke_all rev ids w) = engines w
  ∧ activities (revoke_all rev ids w) = activities w.
Proof.
  revert w. induction ids as [|c ids IH]; intros w; [done|].
  cbn [revoke_all]. destruct (IH (match rev c with
                  | Some e => add_log ("Failed to revoke celery task " +:+ c +:+ ": " +:+ e)
                                      (add_revoked c w)
                  | None => add_revoked c w end)) as (-> & ->).
  by destruct (rev c).
Qed.

Lemma abort_scan_frame w i u rev now :
  let w' := (abort_scan i u rev now w).2 in
  domains w' = domains w ∧ engines w' = engines w ∧ activities w' = activities w
  ∧ scan_seq w' = scan_seq w ∧ ∀ j, j ≠ i → scans w' !! j = scans w !! j.
Proof.
  unfold abort_scan. destruct (scans w !! i) as [scan|]; [|done].
  destruct (negb _); [done|].
  cbn [snd add_log set_scans scans domains engines activities revoked scan_seq].
  destruct (revoke_all_scans rev (celery_ids scan) w) as (-> & -> & -> & _).
  destruct (revoke_all_frame rev (celery_ids scan) w) as (-> & ->).
  repeat (split; [done|]). intros j Hj. by rewrite lookup_insert_ne.
Qed.

Lemma update_scan_status_tables w i st msg now :
  domains (update_scan_status i st msg now w).2 = domains w
  ∧ engines (update_scan_status i st msg now w).2 = engines w.
Proof.
  unfold update_scan_status. destruct (negb _); [done|].
  by destruct (scans w !! i).
Qed.

(** X7.  Ending a scan frees its domain.  In a state where no domain has
    two pending or running scans, once the pending or running scan [i] is
    aborted, or moved by [update_scan_status] to failed (0), completed (2) or
    aborted (3), [create_scan] on its domain with an existing engine succeeds
    and gives a pending scan. *)
Theorem X7_guard_released w i scan e eng dom u oos imp now' :
  one_active_per_domain w →
  scans w !! i = Some scan → non_terminal scan →
  domains w !! domain scan = Some dom → engines w !! e = Some eng →
  (∀ user rev now, ∃ pk s,
     (create_scan (domain scan) e u oos imp now' (abort_scan i user rev now w).2).1
     = inr (pk, s) ∧ scan_status s = -1)
  ∧ (∀ st msg now, st ∈ [0; 2; 3] → ∃ pk s,
       (create_scan (domain scan) e u oos imp now'
          (update_scan_status i st msg now w).2).1
       = inr (pk, s) ∧ scan_status s = -1).
Proof.
  intros Hone Hi Hnt Hd He. split.
  - intros user rev now.
    destruct (abort_scan_cases w i user rev now)
      as [(e0 & _ & [Hno|(sc & Hsc & Hno)])
         |(scan0 & s0 & _ & _ & _ & Heq & _ & Hst & _)].
    { congruence. }
    { rewrite Hi in Hsc. injection Hsc as <-. done. }
    destruct (abort_scan_frame w i user rev now) as (Hdom & Heng & _).
    eexists. eapply (create_scan_after_release w _ i scan s0); eauto.
    + unfold non_terminal. rewrite Hst, !elem_of_cons, elem_of_nil. lia.
    + by rewrite Hdom.
    + by rewrite Heng.
  - intros st msg now Hst.
    destruct (update_scan_status_cases w i st msg now)
      as [(e0 & _ & [Hno|Hno])
         |(scan0 & s0 & _ & _ & _ & Heq & _ & Hs0 & _)].
    { exfalso. apply Hno. rewrite !elem_of_cons in *. tauto. }
    { congruence. }
    destruct (update_scan_status_tables w i st msg now) as (Hdom & Heng).
    eexists. eapply (create_scan_after_release w _ i scan s0); eauto.
    + unfold non_terminal. rewrite Hs0. rewrite !elem_of_cons, elem_of_nil in *. lia.
    + by rewrite Hdom.
    + by rewrite Heng.
Qed.

(** X7 at work: after the running scan is aborted, its domain is scanned again. *)
Lemma X7_guard_released_witness :
  ∃ pk s,
    (create_scan 1 1 Scenario.alice None None 700
       (abort_scan 1 Scenario.alice Scenario.revoke_error 500 Scenario.db_running).2).1
    = inr (pk, s) ∧ scan_status s = -1.
Proof.
  refine (proj1 (X7_guard_released Scenario.db_running 1 Scenario.running_scan 1 _ _
                   Scenario.alice None None 700 _ eq_refl _ eq_refl eq_refl)
            Scenario.alice Scenario.revoke_error 500).
  - intros i j s1 s2 Hi Hj _ _ _.
    assert (∀ k s, scans Scenario.db_running !! k = Some s → k = 1) as Hk.
    { intros k s Hs. destruct (decide (k = 1)) as [|Hne]; [done|].
      change (scans Scenario.db_running) with ({[1 := Scenario.running_scan]} : gmap Z _) in Hs.
      by rewrite lookup_singleton_ne in Hs. }
    by rewrite (Hk _ _ Hi), (Hk _ _ Hj).
  - unfold non_terminal. simpl. repeat constructor.
Defined.

Lemma get_scan_details_completed w i p :
  get_scan_details i w = inr p →
  completed_tasks p
  = Z.of_nat (length (filter (λ a, activity_status a = 2) (scanactivity_set i w)))
  ∧ ∃ scan, scans w !! i = Some scan
      ∧ is_Some (scan_project scan w)
      ∧ total_tasks p = Z.of_nat (length (default [] (tasks scan)))
      ∧ percentage p
        = (if 0 <? total_tasks p
           then PyFloat (round2 (float_mul (true_divide (completed_tasks p)
                                              (total_tasks p)) 100))
           else PyInt 0).
Proof.
  unfold get_scan_details. destruct (scans w !! i) as [scan|] eqn:Hi; [|done].
  destruct (scan_project scan w) as [project|] eqn:Hproject; [|done].
  intros [= <-]. cbn [completed_tasks total_tasks percentage].
  rewrite completed_count_sorted. split; [done|]. exists scan.
  split; [done|]. split; [by eexists|].
  split; [by destruct (tasks scan) as [[|t ts]|]|].
  by destruct (0 <? _).
Qed.

(** X8.  The progress [get_scan_details] reports follows the activity
    rows: a new activity never changes the number of total tasks, and it
    raises the number of completed tasks by one exactly when it belongs to
    the scan and has status 2. *)
Theorem X8_progress_grows w i a p :
  get_scan_details i w = inr p →
  ∃ p', get_scan_details i (add_activity a w) = inr p'
    ∧ total_tasks p' = total_tasks p
    ∧ completed_tasks p'
      = completed_tasks p
        + (if decide (activity_scan a = i ∧ activity_status a = 2) then 1 else 0).
Proof.
  intros Hp.
  destruct (get_scan_details_completed w i p Hp)
    as (Hc & scan & Hi & [project Hproject] & Ht & _).
  destruct (get_scan_details i (add_activity a w)) as [e|p'] eqn:Hp'.
  { unfold get_scan_details, scan_project in Hp'.
    cbn [add_activity scans domains] in Hp'. rewrite Hi in Hp'.
    unfold scan_project in Hproject. by rewrite Hproject in Hp'. }
  destruct (get_scan_details_completed _ i p' Hp') as (Hc' & scan' & Hi' & _ & Ht' & _).
  cbn [add_activity scans] in Hi'. rewrite Hi in Hi'. injection Hi' as <-.
  exists p'. split; [done|]. split; [congruence|].
  rewrite Hc', Hc. unfold scanactivity_set. cbn [add_activity activities].
  rewrite !filter_app, length_app.
  destruct (decide (activity_scan a = i)) as [Hs|Hs].
  - rewrite (filter_cons_True (λ a, activity_scan a = i)) by done.
    rewrite (filter_nil (λ a, activity_scan a = i)).
    destruct (decide (activity_status a = 2)) as [Hst|Hst].
    + rewrite filter_cons_True by done. rewrite decide_True by done. cbn. lia.
    + rewrite filter_cons_False by done. rewrite decide_False by tauto. cbn. lia.
  - rewrite (filter_cons_False (λ a, activity_scan a = i)) by done.
    rewrite decide_False by tauto. cbn. lia.
Qed.

(** X8 at work: a third completed step on a scan of two tasks. *)
Lemma X8_progress_grows_witness :
  ∃ p', get_scan_details 1
          (add_activity (Scenario.completed_step "subdomain_discovery" 130)
             Scenario.db_running) = inr p'
        ∧ total_tasks p' = 2 ∧ completed_tasks p' = 3.
Proof.
  destruct (X8_progress_grows Scenario.db_running 1
              (Scenario.completed_step "subdomain_discovery" 130) _ eq_refl)
    as (p' & Hp & Ht & Hc).
  exists p'. split; [exact Hp|]. split; [exact Ht|exact Hc].
Defined.

Lemma round_half_even_nonneg q : (0 <= q)%Q → 0 ≤ round_half_even q.
Proof.
  intros Hq. unfold round_half_even.
  assert (0 ≤ Qfloor q) by (change 0 with (Qfloor 0); by apply Qfloor_resp_le).
  destruct (Qcompare _ _); [destruct (Z.even _)|..]; lia.
Qed.

Lemma round_half_even_le q n : (q <= inject_Z n)%Q → round_half_even q ≤ n.
Proof.
  intros Hq. unfold round_half_even.
  assert (Qfloor q ≤ n) as Hfl.
  { rewrite <- (Qfloor_Z n). by apply Qfloor_resp_le. }
  destruct (decide (Qfloor q = n)) as [Heq|Hne].
  - assert (q - inject_Z (Qfloor q) < 1 # 2)%Q as Hlt.
    { rewrite Heq. lra. }
    apply Qlt_alt in Hlt. unfold Qcompare in *. rewrite Hlt. lia.
  - destruct (Qcompare _ _); [destruct (Z.even _)|..]; lia.
Qed.

Lemma pow2_pos k : (0 < pow2 k)%Q.
Proof. apply Qpower_0_lt. reflexivity. Qed.

Lemma pow2_add a b : (pow2 (a + b) == pow2 a * pow2 b)%Q.
Proof. apply Qpower_plus. discriminate. Qed.

Lemma pow2_Z n : 0 ≤ n → (pow2 n == inject_Z (2 ^ n))%Q.
Proof. intros Hn. unfold pow2. by rewrite Zpower_Qpower. Qed.

(** [2 ** log2_floor q <= q] for a positive [q]. *)
Lemma log2_floor_le q : (0 < q)%Q → (pow2 (log2_floor q) <= q)%Q.
Proof.
  intros Hq. unfold log2_floor.
  set (la := Z.log2 (Qnum q)). set (lb := Z.log2 (Z.pos (Qden q))).
  destruct (Qle_bool (pow2 (la - lb)) q) eqn:Hb; [by apply Qle_bool_iff|].
  assert (0 < Qnum q) as Ha by (destruct q as [a b]; unfold Qlt in Hq; cbn in *; lia).
  destruct (Z.log2_spec (Qnum q) Ha) as [Ha1 _].
  destruct (Z.log2_spec (Z.pos (Qden q)) eq_refl) as [_ Hb2].
  fold la in Ha1. fold lb in Hb2.
  assert (0 ≤ la) by apply Z.log2_nonneg. assert (0 ≤ lb) by apply Z.log2_nonneg.
  replace (la - lb - 1) with (la + - (lb + 1)) by lia.
  rewrite pow2_add. unfold pow2 at 2. rewrite Qpower_opp.
  fold (pow2 (lb + 1)). rewrite !pow2_Z by lia.
  replace (Z.succ lb) with (lb + 1) in Hb2 by lia.
  assert (0 < 2 ^ (lb + 1)) as Hp by (apply Z.pow_pos_nonneg; lia).
  destruct q as [a b]. cbn [Qnum Qden] in *.
  destruct (2 ^ (lb + 1)) as [|pb|pb] eqn:Epb; try lia.
  unfold Qle, Qmult, Qinv, inject_Z. cbn.
  rewrite Z.mul_1_r. nia.
Qed.

Lemma log2_floor_lt q k : (0 < q)%Q → (q < pow2 k)%Q → log2_floor q < k.
Proof.
  intros Hq Hk. apply (Qpower_lt_compat_l_inv 2); [|reflexivity].
  eapply Qle_lt_trans; [apply (log2_floor_le q Hq)|exact Hk].
Qed.

Lemma nearest_nonneg q : (0 <= nearest q)%Q.
Proof.
  unfold nearest. destruct (Qle_bool q 0) eqn:Hq; [done|].
  rewrite Qred_correct. apply Qmult_le_0_compat; [|apply Qlt_le_weak, pow2_pos].
  assert (0 < q)%Q as Hpos.
  { destruct (Qlt_le_dec 0 q); [done|]. apply Qle_bool_iff in q0. congruence. }
  change 0%Q with (inject_Z 0). rewrite <- Zle_Qle.
  apply round_half_even_nonneg.
  apply Qle_shift_div_l; [apply pow2_pos|]. rewrite Qmult_0_l. by apply Qlt_le_weak.
Qed.

(** Rounding to the nearest float does not cross an integer below [2 ** 53]. *)
Lemma nearest_le_Z q n :
  0 ≤ n → (q <= inject_Z n)%Q → (q < pow2 53)%Q → (nearest q <= inject_Z n)%Q.
Proof.
  intros H0 Hn H53. unfold nearest. destruct (Qle_bool q 0) eqn:Hq.
  { change 0%Q with (inject_Z 0). by rewrite <- Zle_Qle. }
  assert (0 < q)%Q as Hpos.
  { destruct (Qlt_le_dec 0 q); [done|]. apply Qle_bool_iff in q0. congruence. }
  pose proof (log2_floor_lt q 53 Hpos H53) as Hlf.
  set (e := log2_floor q - 52) in *. assert (0 ≤ - e) as He by lia.
  rewrite Qred_correct.
  assert (round_half_even (q / pow2 e) ≤ n * 2 ^ (- e)) as Hr.
  { apply round_half_even_le. rewrite inject_Z_mult, <- pow2_Z by done.
    unfold pow2 at 2. rewrite Qpower_opp. fold (pow2 e).
    unfold Qdiv. apply Qmult_le_compat_r; [done|].
    apply Qlt_le_weak, Qinv_lt_0_compat, pow2_pos. }
  rewrite Zle_Qle in Hr. rewrite inject_Z_mult, <- pow2_Z in Hr by done.
  apply (Qmult_le_compat_r _ _ (pow2 e)) in Hr; [|apply Qlt_le_weak, pow2_pos].
  eapply Qle_trans; [exact Hr|]. rewrite <- Qmult_assoc, <- pow2_add.
  replace (- e + e) with 0 by lia. unfold pow2. cbn. lra.
Qed.

Lemma round2_nonneg x : (0 <= round2 x)%Q.
Proof. apply nearest_nonneg. Qed.

Lemma round2_le_100 x : (x <= 100)%Q → (round2 x <= 100)%Q.
Proof.
  intros Hx. unfold round2.
  assert (round_half_even (x * inject_Z 100) ≤ 10000) as Hr.
  { apply round_half_even_le. change (inject_Z 10000) with (100 * inject_Z 100)%Q.
    by apply Qmult_le_compat_r. }
  rewrite Zle_Qle in Hr.
  assert (inject_Z (round_half_even (x * inject_Z 100)) / inject_Z 100 <= inject_Z 100)%Q as H.
  { apply Qle_shift_div_r; [reflexivity|]. exact Hr. }
  apply (nearest_le_Z _ 100 ltac:(lia) H). eapply Qle_lt_trans; [exact H|]. reflexivity.
Qed.

Lemma percentage_le_100 c t :
  0 ≤ c ≤ t → 0 < t → (round2 (float_mul (true_divide c t) 100) <= 100)%Q.
Proof.
  intros Hc Ht. apply round2_le_100.
  assert (inject_Z c / inject_Z t <= inject_Z 1)%Q as H1.
  { apply Qle_shift_div_r.
    - change 0%Q with (inject_Z 0). rewrite <- Zlt_Qlt. lia.
    - rewrite <- inject_Z_mult, <- Zle_Qle. lia. }
  assert (true_divide c t <= inject_Z 1)%Q as H2.
  { apply (nearest_le_Z _ 1 ltac:(lia) H1). eapply Qle_lt_trans; [exact H1|]. reflexivity. }
  assert (true_divide c t * inject_Z 100 <= inject_Z 100)%Q as H3.
  { change (inject_Z 100) with (1 * inject_Z 100)%Q at 2.
    by apply Qmult_le_compat_r. }
  apply (nearest_le_Z _ 100 ltac:(lia) H3). eapply Qle_lt_trans; [exact H3|]. reflexivity.
Qed.

(** X9.  The percentage of [get_scan_details] is never negative, and it is
    at most 100 whenever the completed activities do not outnumber the
    declared tasks. *)
Theorem X9_percentage_bounds w i p :
  get_scan_details i w = inr p →
  (0 <= number_value (percentage p))%Q
  ∧ (completed_tasks p ≤ total_tasks p → (number_value (percentage p) <= 100)%Q).
Proof.
  intros Hp.
  destruct (get_scan_details_completed w i p Hp) as (Hc & scan & _ & _ & Ht & ->).
  assert (0 ≤ completed_tasks p) by lia.
  destruct (Z.ltb_spec 0 (total_tasks p)) as [Hpos|Hle]; cbn [number_value].
  - split; [apply round2_nonneg|]. intros Hct. by apply percentage_le_100.
  - split; [done|]. intros _. done.
Qed.

(** X9 at work: the percentage of the running scan. *)
Lemma X9_percentage_bounds_witness :
  ∃ p, get_scan_details 1 Scenario.db_running = inr p
       ∧ (0 <= number_value (percentage p))%Q.
Proof.
  eexists. split; [reflexivity|].
  exact (proj1 (X9_percentage_bounds Scenario.db_running 1 _ eq_refl)).
Defined.

End ScanServiceMore.

(** ** The listings of findings *)

Section FindingsFacts.
Import ScanService Findings.

Lemma slice_Some {A} start stop (l : list A) :
  0 ≤ start → 0 ≤ stop →
  slice start stop l = Some (take (Z.to_nat (stop - start)) (drop (Z.to_nat start) l)).
Proof.
  intros H1 H2. unfold slice.
  destruct (Z.ltb_spec start 0), (Z.ltb_spec stop 0); try lia. done.
Qed.

Lemma slice_None {A} start stop (l : list A) :
  start < 0 ∨ stop < 0 → slice start stop l = None.
Proof.
  intros H. unfold slice.
  destruct (Z.ltb_spec start 0), (Z.ltb_spec stop 0); try done. lia.
Qed.

Lemma length_window {A} (l : list A) limit offset :
  0 ≤ offset →
  Z.of_nat (length (take (Z.to_nat (offset + limit - offset)) (drop (Z.to_nat offset) l)))
  = Z.max 0 (Z.min limit (Z.of_nat (length l) - offset)).
Proof. intros Ho. rewrite length_take, length_drop. lia. Qed.

Lemma window_tiles {A} (l : list A) offset l1 l2 :
  0 ≤ offset → 0 ≤ l1 → 0 ≤ l2 →
  take (Z.to_nat (offset + l1 - offset)) (drop (Z.to_nat offset) l)
  ++ take (Z.to_nat (offset + l1 + l2 - (offset + l1))) (drop (Z.to_nat (offset + l1)) l)
  = take (Z.to_nat (offset + (l1 + l2) - offset)) (drop (Z.to_nat offset) l).
Proof.
  intros Ho H1 H2.
  replace (Z.to_nat (offset + l1)) with (Z.to_nat offset + Z.to_nat l1)%nat by lia.
  rewrite <- drop_drop.
  replace (offset + l1 - offset) with l1 by lia.
  replace (offset + l1 + l2 - (offset + l1)) with l2 by lia.
  replace (Z.to_nat (offset + (l1 + l2) - offset)) with (Z.to_nat l1 + Z.to_nat l2)%nat by lia.
  apply take_take_drop.
Qed.

Lemma date_ge_total : Total date_ge.
Proof. intros [x|] [y|]; cbn; try tauto. lia. Qed.

Lemma date_ge_trans : Transitive date_ge.
Proof. intros [x|] [y|] [z|]; cbn; try tauto. lia. Qed.

Lemma vuln_before_total : Total vuln_before.
Proof.
  intros a b. unfold vuln_before.
  destruct (Z.lt_trichotomy (vuln_severity a) (vuln_severity b)) as [?|[?|?]]; try tauto.
  destruct (date_ge_total (vuln_discovered_date a) (vuln_discovered_date b)); auto.
Qed.

Lemma vuln_before_trans : Transitive vuln_before.
Proof.
  intros a b c [H1|[H1 D1]] [H2|[H2 D2]]; unfold vuln_before; try (left; lia).
  right. split; [lia|]. by eapply date_ge_trans.
Qed.

Lemma StronglySorted_take {A} (R : relation A) n l :
  StronglySorted R l → StronglySorted R (take n l).
Proof.
  intros Hl. revert n. induction Hl as [|x l Hl IH Hx]; intros [|n]; cbn;
    try constructor; auto. by apply Forall_take.
Qed.

Lemma StronglySorted_drop {A} (R : relation A) n l :
  StronglySorted R l → StronglySorted R (drop n l).
Proof.
  intros Hl. revert n. induction Hl as [|x l Hl IH Hx]; intros [|n]; cbn;
    try constructor; auto.
Qed.

Lemma StronglySorted_map {A B} (R : relation A) (S : relation B) (f : A → B) l :
  (∀ x y, R x y → S (f x) (f y)) →
  StronglySorted R l → StronglySorted S (map f l).
Proof.
  intros Hf. induction 1 as [|x l Hl IH Hx]; cbn; constructor; [done|].
  apply Forall_fmap. eapply Forall_impl; [exact Hx|]. intros y. apply Hf.
Qed.

Lemma sorted_vulnerabilities l :
  StronglySorted vuln_before (merge_sort vuln_before l).
Proof.
  apply Sorted_StronglySorted; [exact vuln_before_trans|].
  apply Sorted_merge_sort. exact vuln_before_total.
Qed.

Lemma scan_found w scan_id :
  is_Some (scans w !! scan_id) →
  negb (bool_decide (is_Some (scans w !! scan_id))) = false.
Proof. intros H. by rewrite bool_decide_eq_true_2. Qed.

Lemma vulnerability_queryset_spec scan_id severity t v :
  v ∈ vulnerability_queryset scan_id severity t ↔
  v ∈ vulnerabilities t ∧ vuln_scan_history v = scan_id
  ∧ ∀ sv, severity = Some sv → vuln_severity v = sv.
Proof.
  unfold vulnerability_queryset. destruct severity as [sv|].
  - rewrite !list_elem_of_filter. split.
    + intros (? & ? & ?). repeat split; try done. by intros ? [= <-].
    + intros (? & ? & Hs). repeat split; auto.
  - rewrite list_elem_of_filter. split.
    + intros (? & ?). repeat split; try done.
    + intros (? & ? & _). done.
Qed.

(** X10.  For an existing scan and a window that does not start or end
    before 0, [get_scan_vulnerabilities] returns a page: ['count'] is the
    number of vulnerabilities of the scan (of the given severity, when there
    is one) whatever the window, ['results'] holds
    [max(0, min(limit, count - offset))] entries, each rendered from a
    vulnerability of that scan and severity, in descending order of
    severity. *)
Theorem X10_vulnerability_page scan_id severity limit offset w t :
  is_Some (scans w !! scan_id) → 0 ≤ offset → 0 ≤ offset + limit →
  ∃ page,
    get_scan_vulnerabilities scan_id severity limit offset w t = inr page
    ∧ page_count page = Z.of_nat (length (vulnerability_queryset scan_id severity t))
    ∧ Z.of_nat (length (page_results page))
      = Z.max 0 (Z.min limit (page_count page - offset))
    ∧ (∀ r, r ∈ page_results page →
         ∃ v, v ∈ vulnerabilities t ∧ r = vulnerability_result t v
              ∧ vuln_scan_history v = scan_id
              ∧ ∀ sv, severity = Some sv → vuln_severity v = sv)
    ∧ StronglySorted (λ a b, vr_severity b ≤ vr_severity a) (page_results page).
Proof.
  intros Hscan Ho Hl. unfold get_scan_vulnerabilities.
  rewrite (scan_found _ _ Hscan), slice_Some by done.
  eexists. split; [reflexivity|]. cbn [page_count page_results].
  split; [done|]. split; [|split].
  - rewrite length_map, length_window by done.
    by rewrite (Permutation_length (merge_sort_Permutation _ _)).
  - intros r (v & -> & Hv)%list_elem_of_fmap.
    apply subseteq_take, subseteq_drop in Hv.
    rewrite merge_sort_Permutation in Hv.
    apply vulnerability_queryset_spec in Hv as (? & ? & ?). by exists v.
  - apply (StronglySorted_map vuln_before).
    + intros x y [H|[H _]]; cbn; lia.
    + apply StronglySorted_take, StronglySorted_drop, sorted_vulnerabilities.
Qed.

(** X10 at work: the second to fourth of five findings. *)
Lemma X10_vulnerability_page_witness :
  ∃ page,
    get_scan_vulnerabilities 1 None 3 1 Scenario.db_running Catalogue.tables = inr page
    ∧ page_count page = 5 ∧ map vr_id (page_results page) = [2; 5; 1].
Proof.
  destruct (X10_vulnerability_page 1 None 3 1 Scenario.db_running Catalogue.tables)
    as (page & Hp & _); [by eexists|lia|lia|].
  exists page. split; [exact Hp|].
  vm_compute in Hp. injection Hp as <-. vm_compute. split; reflexivity.
Defined.

(** X11.  For an existing scan and a window that does not start or end
    before 0, [get_scan_subdomains] returns a page: ['count'] is the number
    of subdomains of the scan, ['results'] holds
    [max(0, min(limit, count - offset))] entries, each rendered from a
    subdomain of that scan, with the numbers of endpoints and of
    vulnerabilities that refer to it. *)
Theorem X11_subdomain_page scan_id limit offset w t :
  is_Some (scans w !! scan_id) → 0 ≤ offset → 0 ≤ offset + limit →
  ∃ page,
    get_scan_subdomains scan_id limit offset w t = inr page
    ∧ page_count page
      = Z.of_nat (length (filter (λ s, subdomain_scan_history s = scan_id) (subdomains t)))
    ∧ Z.of_nat (length (page_results page))
      = Z.max 0 (Z.min limit (page_count page - offset))
    ∧ (∀ r, r ∈ page_results page →
         ∃ s, s ∈ subdomains t ∧ r = subdomain_result t s
              ∧ subdomain_scan_history s = scan_id
              ∧ sr_endpoint_count r
                = Z.of_nat (length (filter (λ e, endpoint_subdomain e = Some (sr_id r))
                                           (endpoints t)))
              ∧ sr_vulnerability_count r
                = Z.of_nat (length (filter (λ v, vuln_subdomain v = Some (sr_id r))
                                           (vulnerabilities t)))).
Proof.
  intros Hscan Ho Hl. unfold get_scan_subdomains.
  rewrite (scan_found _ _ Hscan), slice_Some by done.
  eexists. split; [reflexivity|]. cbn [page_count page_results].
  split; [done|]. split.
  - rewrite length_map, length_window by done.
    by rewrite (Permutation_length (merge_sort_Permutation _ _)).
  - intros r (s & -> & Hs)%list_elem_of_fmap.
    apply subseteq_take, subseteq_drop in Hs.
    rewrite merge_sort_Permutation in Hs.
    apply list_elem_of_filter in Hs as (? & ?). by exists s.
Qed.

(** X11 at work: the second and third of three hosts, by name. *)
Lemma X11_subdomain_page_witness :
  ∃ page,
    get_scan_subdomains 1 2 1 Scenario.db_running Catalogue.tables = inr page
    ∧ page_count page = 3
    ∧ map sr_name (page_results page) = ["mail.example.com"; "www.example.com"].
Proof.
  destruct (X11_subdomain_page 1 2 1 Scenario.db_running Catalogue.tables)
    as (page & Hp & _); [by eexists|lia|lia|].
  exists page. split; [exact Hp|].
  vm_compute in Hp. injection Hp as <-. vm_compute. split; reflexivity.
Defined.

(** X12.  Consecutive pages tile the listing: with rows that agree on the
    sort keys returned in a fixed order, the page of [l1] entries at [offset]
    followed by the page of [l2] entries at [offset + l1] is the page of
    [l1 + l2] entries at [offset], and all three report the same ['count'];
    this holds for [get_scan_vulnerabilities] and for
    [get_scan_subdomains]. *)
Theorem X12_pages_tile scan_id severity offset l1 l2 w t :
  is_Some (scans w !! scan_id) → 0 ≤ offset → 0 ≤ l1 → 0 ≤ l2 →
  (∃ p1 p2 p,
     get_scan_vulnerabilities scan_id severity l1 offset w t = inr p1
     ∧ get_scan_vulnerabilities scan_id severity l2 (offset + l1) w t = inr p2
     ∧ get_scan_vulnerabilities scan_id severity (l1 + l2) offset w t = inr p
     ∧ page_results p1 ++ page_results p2 = page_results p
     ∧ page_count p1 = page_count p ∧ page_count p2 = page_count p)
  ∧ (∃ p1 p2 p,
       get_scan_subdomains scan_id l1 offset w t = inr p1
       ∧ get_scan_subdomains scan_id l2 (offset + l1) w t = inr p2
       ∧ get_scan_subdomains scan_id (l1 + l2) offset w t = inr p
       ∧ page_results p1 ++ page_results p2 = page_results p
       ∧ page_count p1 = page_count p ∧ page_count p2 = page_count p).
Proof.
  intros Hscan Ho H1 H2. split.
  - unfold get_scan_vulnerabilities.
    rewrite (scan_found _ _ Hscan), !slice_Some by lia.
    eexists _, _, _. do 3 (split; [reflexivity|]). cbn [page_count page_results].
    split; [|done]. rewrite <- map_app. f_equal. by apply window_tiles.
  - unfold get_scan_subdomains.
    rewrite (scan_found _ _ Hscan), !slice_Some by lia.
    eexists _, _, _. do 3 (split; [reflexivity|]). cbn [page_count page_results].
    split; [|done]. rewrite <- map_app. f_equal. by apply window_tiles.
Qed.

(** X12 at work: two findings, then three, are the five of the scan. *)
Lemma X12_pages_tile_witness :
  ∃ p1 p2 p,
    get_scan_vulnerabilities 1 None 2 0 Scenario.db_running Catalogue.tables = inr p1
    ∧ get_scan_vulnerabilities 1 None 3 (0 + 2) Scenario.db_running Catalogue.tables = inr p2
    ∧ get_scan_vulnerabilities 1 None (2 + 3) 0 Scenario.db_running Catalogue.tables = inr p
    ∧ page_results p1 ++ page_results p2 = page_results p
    ∧ map vr_id (page_results p) = [4; 2; 5; 1; 3].
Proof.
  destruct (proj1 (X12_pages_tile 1 None 0 2 3 Scenario.db_running Catalogue.tables
                     (ex_intro _ _ eq_refl) (Z.le_refl 0) ltac:(lia) ltac:(lia)))
    as (p1 & p2 & p & H1 & H2 & H3 & H4 & _).
  exists p1, p2, p. do 4 (split; [assumption|]).
  vm_compute in H3. injection H3 as <-. vm_compute. reflexivity.
Defined.

(** X13.  The two ways the listings fail: for a scan that does not exist both
    raise [ResourceNotFoundException('ScanHistory', scan_id)]; for an existing
    scan a negative [offset], or a [limit] below [-offset], makes the queryset
    slice raise (negative indexing), which neither function catches. *)
Theorem X13_page_errors scan_id severity limit offset w t :
  (scans w !! scan_id = None →
   get_scan_vulnerabilities scan_id severity limit offset w t
   = inl (Service (ResourceNotFoundException "ScanHistory" scan_id))
   ∧ get_scan_subdomains scan_id limit offset w t
     = inl (Service (ResourceNotFoundException "ScanHistory" scan_id)))
  ∧ (is_Some (scans w !! scan_id) → offset < 0 ∨ offset + limit < 0 →
     get_scan_vulnerabilities scan_id severity limit offset w t = inl NegativeIndexing
     ∧ get_scan_subdomains scan_id limit offset w t = inl NegativeIndexing).
Proof.
  unfold get_scan_vulnerabilities, get_scan_subdomains. split.
  - intros ->. by rewrite bool_decide_eq_false_2 by by intros [??].
  - intros Hscan Hneg. by rewrite (scan_found _ _ Hscan), !slice_None.
Qed.

End FindingsFacts.

(** ** Webhook delivery: requests, bounds and the delivery log *)

Section OutboxFacts.
Import Webhook Delivery Outbox.

(** Whatever the endpoint does, the loop only adds effects, every POST it
    makes is the same request, and the log gets an entry only on success. *)
Lemma send_loop_effects self url event body headers utcnow endpoint attempts w :
  ∃ es,
    effects (send_loop self url event body headers utcnow endpoint attempts w).2
    = effects w ++ es
    ∧ subscriptions (send_loop self url event body headers utcnow endpoint attempts w).2
      = subscriptions w
    ∧ Forall (λ e, is_post e = true → e = Post url body headers (timeout self)) es
    ∧ (post_count es ≤ length attempts)%nat
    ∧ match (send_loop self url event body headers utcnow endpoint attempts w).1 with
      | None =>
        deliveries (send_loop self url event body headers utcnow endpoint attempts w).2
        = deliveries w
      | Some b =>
        b = true
        ∧ ∃ status_code,
            deliveries (send_loop self url event body headers utcnow endpoint attempts w).2
            = <[log_key url event :=
                  last_ten (default [] (deliveries w !! log_key url event)
                            ++ [delivery_entry url event true (Some status_code) utcnow])]>
                (deliveries w)
      end.
Proof.
  revert w. induction attempts as [|attempt rest IH]; intros w.
  - exists []. cbn. by rewrite app_nil_r.
  - cbn [send_loop]. destruct (endpoint attempt) as [code text|e].
    + destruct (Py.in_ints code [200; 201; 202; 204]).
      * eexists [_; _]. cbn [fst snd]. unfold _log_webhook_delivery, set_deliveries.
        cbn [emit effects subscriptions deliveries]. rewrite <- !app_assoc.
        split; [done|]. split; [done|]. split; [|split; [|split; [done|by eexists]]].
        -- repeat constructor; cbn; done.
        -- rewrite !post_count_cons. cbn [is_post length]. unfold post_count. cbn. lia.
      * match goal with |- context [send_loop _ _ _ _ _ _ _ rest ?w'] =>
          destruct (IH w') as (es & He & Hs & Hp & Hc & Hd) end.
        eexists (_ :: _ :: es). rewrite He, Hs. cbn [emit effects subscriptions].
        rewrite <- !app_assoc. split; [done|]. split; [done|]. split; [|split].
        -- repeat constructor; cbn; done.
        -- rewrite !post_count_cons. cbn [is_post length]. lia.
        -- exact Hd.
    + match goal with |- context [send_loop _ _ _ _ _ _ _ rest ?w'] =>
        destruct (IH w') as (es & He & Hs & Hp & Hc & Hd) end.
      destruct (attempt <? max_retries self - 1).
      * eexists (_ :: _ :: _ :: es). rewrite He, Hs. cbn [emit effects subscriptions].
        rewrite <- !app_assoc. split; [done|]. split; [done|]. split; [|split].
        -- repeat constructor; cbn; done.
        -- rewrite !post_count_cons. cbn [is_post length]. lia.
        -- exact Hd.
      * eexists (_ :: _ :: es). rewrite He, Hs. cbn [emit effects subscriptions].
        rewrite <- !app_assoc. split; [done|]. split; [done|]. split; [|split].
        -- repeat constructor; cbn; done.
        -- rewrite !post_count_cons. cbn [is_post length]. lia.
        -- exact Hd.
Qed.

Lemma send_loop_prefix self url event body headers utcnow endpoint pre rest w :
  Forall (λ j, fails (endpoint j)) pre →
  ∃ es,
    send_loop self url event body headers utcnow endpoint (pre ++ rest) w
    = send_loop self url event body headers utcnow endpoint rest
        {| subscriptions := subscriptions w; deliveries := deliveries w;
           effects := effects w ++ es |}
    ∧ post_count es = length pre.
Proof.
  intros Hpre. revert w. induction Hpre as [|attempt pre Hk Hpre IH]; intros w.
  - exists []. cbn. rewrite app_nil_r. by destruct w.
  - cbn [app send_loop]. destruct (endpoint attempt) as [code text|e]; cbn in Hk.
    + unfold Py.in_ints. rewrite (bool_decide_eq_false_2 _ Hk).
      match goal with |- context [send_loop _ _ _ _ _ _ _ (pre ++ rest) ?w'] =>
        destruct (IH w') as (es & -> & Hc) end.
      eexists (_ :: _ :: es). cbn [emit effects subscriptions deliveries].
      rewrite <- !app_assoc. split; [reflexivity|].
      rewrite !post_count_cons. cbn [is_post length]. by rewrite Hc.
    + match goal with |- context [send_loop _ _ _ _ _ _ _ (pre ++ rest) ?w'] =>
        destruct (IH w') as (es & -> & Hc) end.
      destruct (attempt <? max_retries self - 1).
      * eexists (_ :: _ :: _ :: es). cbn [emit effects subscriptions deliveries].
        rewrite <- !app_assoc. split; [reflexivity|].
        rewrite !post_count_cons. cbn [is_post length]. by rewrite Hc.
      * eexists (_ :: _ :: es). cbn [emit effects subscriptions deliveries].
        rewrite <- !app_assoc. split; [reflexivity|].
        rewrite !post_count_cons. cbn [is_post length]. by rewrite Hc.
Qed.

Lemma post_count_app es es' : post_count (es ++ es') = (post_count es + post_count es')%nat.
Proof. unfold post_count. by rewrite filter_app, length_app. Qed.

Lemma range_split n k :
  0 ≤ k < n → Py.range n = seqZ 0 k ++ k :: seqZ (k + 1) (n - k - 1).
Proof.
  intros Hk. unfold Py.range. replace n with (k + (n - k)) at 1 by lia.
  rewrite seqZ_app by lia. f_equal. rewrite seqZ_cons by lia.
  repeat (f_equal; try lia).
Qed.

Lemma last_last_ten l x : last (last_ten (l ++ [x])) = Some x.
Proof.
  unfold last_ten. rewrite length_app. cbn [length].
  rewrite drop_app_le by lia. apply last_snoc.
Qed.

Lemma length_last_ten l : (length (last_ten l) ≤ 10)%nat.
Proof. unfold last_ten. rewrite length_drop. lia. Qed.

(** X14.  [send_webhook] stops at the first accepted attempt: when attempts
    0 .. k-1 fail and attempt [k] (below [max_retries]) is answered with 200,
    201, 202 or 204, the call returns [True] after exactly [k + 1] POSTs, and
    the last entry of the delivery log of the URL and event records the
    success with that status code. *)
Theorem X14_first_success self version url event payload secret headers utcnow
    endpoint k status_code w :
  0 ≤ k < max_retries self → succeeds_at endpoint k status_code →
  let r := send_webhook self version url event payload secret headers utcnow endpoint w in
  ∃ es,
    r.1 = true
    ∧ effects r.2 = effects w ++ es
    ∧ Z.of_nat (post_count es) = k + 1
    ∧ last (default [] (deliveries r.2 !! log_key url event))
      = Some (delivery_entry url event true (Some status_code) utcnow).
Proof.
  intros Hk ([text Hep] & Hcode & Hfail) r. subst r. unfold send_webhook.
  rewrite (range_split _ k Hk).
  match goal with |- context [send_loop ?s ?u ?e ?b ?h ?t ?ep (?pre ++ ?rest) ?w0] =>
    destruct (send_loop_prefix s u e b h t ep pre rest w0) as (es & -> & Hc) end.
  { apply Forall_seqZ. intros j Hj. apply Hfail. lia. }
  cbn [send_loop]. rewrite Hep. unfold Py.in_ints.
  rewrite (bool_decide_eq_true_2 _ Hcode).
  eexists (es ++ [_; _]). cbn [fst snd]. split; [done|].
  unfold _log_webhook_delivery, set_deliveries.
  cbn [emit effects subscriptions deliveries]. rewrite <- !app_assoc.
  split; [done|]. split.
  - rewrite post_count_app, !post_count_cons, Hc, length_seqZ.
    cbn [is_post]. unfold post_count. cbn. lia.
  - rewrite lookup_insert_eq. cbn [default]. apply last_last_ten.
Qed.

(** X14 at work: down on the first attempt, accepted on the second. *)
Lemma X14_first_success_witness :
  ∃ es,
    (send_webhook __init__ "2.0" "https://hook.example/x" SCAN_COMPLETED
       (JDict [("scan_id", JInt 42)]) None None "2024-01-01T00:00:00"
       second_try empty_world).1 = true
    ∧ Z.of_nat (post_count es) = 2.
Proof.
  destruct (X14_first_success __init__ "2.0" "https://hook.example/x" SCAN_COMPLETED
              (JDict [("scan_id", JInt 42)]) None None "2024-01-01T00:00:00"
              second_try 1 202 empty_world)
    as (es & Hres & _ & Hc & _).
  - cbn. lia.
  - split; [by eexists|]. split; [repeat constructor|].
    intros j Hj. replace j with 0 by lia. exact I.
  - exists es. split; [exact Hres|exact Hc].
Defined.

(** X15.  Every POST of [send_webhook] goes to the given URL with the
    envelope of event, timestamp and data, and the manager's timeout.  With
    a non-empty secret its header [X-Webhook-Signature] is
    [_generate_signature] of the envelope, which [verify_signature] accepts
    for the serialised envelope and the same secret; without a secret the
    header is whatever the caller passed; without caller headers the
    defaults [Content-Type], [X-Webhook-Event] and [User-Agent] are sent. *)
Theorem X15_signed_requests self version url event payload secret headers utcnow
    endpoint w :
  let r := send_webhook self version url event payload secret headers utcnow endpoint w in
  ∃ es,
    effects r.2 = effects w ++ es
    ∧ ∀ e, e ∈ es → is_post e = true →
        ∃ h, e = Post url (envelope event utcnow payload) h (timeout self)
          ∧ (∀ s, secret = Some s → s ≠ "" →
               h !! "X-Webhook-Signature"
               = Some (_generate_signature (envelope event utcnow payload) s)
               ∧ verify_signature (dumps true (envelope event utcnow payload))
                   (_generate_signature (envelope event utcnow payload) s) s
                 = Some true)
          ∧ (Py.truthy_str secret = false →
             h !! "X-Webhook-Signature" = default ∅ headers !! "X-Webhook-Signature")
          ∧ (headers = None →
             h !! "Content-Type" = Some "application/json"
             ∧ h !! "X-Webhook-Event" = Some event
             ∧ h !! "User-Agent" = Some ("reconPoint-Webhook/" +:+ version)).
Proof.
  intros r. subst r. unfold send_webhook.
  match goal with |- context [send_loop _ _ _ _ ?h _ _ _ _] => set (H := h) end.
  assert (HB : ∀ k v, k ≠ "X-Webhook-Signature" →
            (<["X-Webhook-Signature" := v]> (default ∅ headers ∪
               <["X-Webhook-Event" := event]>
                 (<["User-Agent" := "reconPoint-Webhook/" +:+ version]>
                    {["Content-Type" := "application/json"]}))
             : gmap string string) !! k
            = (default ∅ headers ∪
               <["X-Webhook-Event" := event]>
                 (<["User-Agent" := "reconPoint-Webhook/" +:+ version]>
                    {["Content-Type" := "application/json"]})) !! k).
  { intros k v Hk. by rewrite lookup_insert_ne. }
  assert (F1 : ∀ s, secret = Some s → s ≠ "" →
            H !! "X-Webhook-Signature"
            = Some (_generate_signature (envelope event utcnow payload) s)).
  { intros s -> Hs. subst H.
    assert (Py.truthy_str (Some s) = true) as -> by (by destruct s).
    by rewrite lookup_insert_eq. }
  assert (F2 : Py.truthy_str secret = false →
            H !! "X-Webhook-Signature" = default ∅ headers !! "X-Webhook-Signature").
  { intros Hf. subst H. rewrite Hf. apply lookup_union_l.
    by rewrite !lookup_insert_ne, lookup_singleton_ne. }
  assert (F3 : headers = None →
            H !! "Content-Type" = Some "application/json"
            ∧ H !! "X-Webhook-Event" = Some event
            ∧ H !! "User-Agent" = Some ("reconPoint-Webhook/" +:+ version)).
  { intros ->. subst H. cbn [default].
    destruct (Py.truthy_str secret); repeat split; reflexivity. }
  clearbody H.
  match goal with |- context [send_loop ?s ?u ?e ?b ?h ?t ?ep ?a ?w0] =>
    destruct (send_loop_effects s u e b h t ep a w0) as (es & He & _ & Hp & _);
    destruct (send_loop s u e b h t ep a w0) as [[b'|] w'] end;
    cbn [fst snd] in *.
  - exists es. split; [done|]. intros e Hin Hpost. rewrite Forall_forall in Hp.
    rewrite (Hp e Hin Hpost). exists H. split; [done|]. split; [|done].
    intros s Hs Hne. split; [by apply F1|]. unfold _generate_signature.
    rewrite (proj1 (verify_signature_hexdigest _ _ _)).
    by rewrite bool_decide_eq_true_2.
  - exists es. split; [by unfold _log_webhook_delivery, set_deliveries; cbn [effects]|].
    intros e Hin Hpost. rewrite Forall_forall in Hp.
    rewrite (Hp e Hin Hpost). exists H. split; [done|]. split; [|done].
    intros s Hs Hne. split; [by apply F1|]. unfold _generate_signature.
    rewrite (proj1 (verify_signature_hexdigest _ _ _)).
    by rewrite bool_decide_eq_true_2.
Qed.

(** X16.  Whatever the endpoint does, [send_webhook] makes at most
    [max_retries] POSTs, leaves the subscriptions alone, and appends exactly
    one entry to the delivery log of the URL and event; the entry's success
    flag is the value returned, and the log keeps its last ten entries
    only. *)
Theorem X16_bounded_and_logged self version url event payload secret headers utcnow
    endpoint w :
  let r := send_webhook self version url event payload secret headers utcnow endpoint w in
  ∃ es entry,
    effects r.2 = effects w ++ es
    ∧ (post_count es ≤ Z.to_nat (max_retries self))%nat
    ∧ subscriptions r.2 = subscriptions w
    ∧ deliveries r.2
      = <[log_key url event :=
            last_ten (default [] (deliveries w !! log_key url event) ++ [entry])]>
          (deliveries w)
    ∧ log_success entry = r.1
    ∧ log_url entry = url ∧ log_event entry = event
    ∧ (length (default [] (deliveries r.2 !! log_key url event)) ≤ 10)%nat.
Proof.
  intros r. subst r. unfold send_webhook.
  match goal with |- context [send_loop ?s ?u ?e ?b ?h ?t ?ep ?a ?w0] =>
    destruct (send_loop_effects s u e b h t ep a w0) as (es & He & Hs & _ & Hc & Hd);
    destruct (send_loop s u e b h t ep a w0) as [[b'|] w'] end;
    cbn [fst snd] in *.
  - destruct Hd as (-> & code & Hd). exists es. eexists.
    rewrite Hd, lookup_insert_eq. cbn [default].
    split; [done|]. split; [by unfold Py.range in Hc; rewrite length_seqZ in Hc|]. split; [done|].
    split; [reflexivity|]. repeat (split; [done|]). apply length_last_ten.
  - exists es. eexists. unfold _log_webhook_delivery, set_deliveries.
    cbn [effects subscriptions deliveries]. rewrite Hd, lookup_insert_eq. cbn [default].
    split; [done|]. split; [by unfold Py.range in Hc; rewrite length_seqZ in Hc|]. split; [done|].
    split; [reflexivity|]. repeat (split; [done|]). apply length_last_ten.
Qed.

End OutboxFacts.

(** ** Subscriptions and notifications *)

Section SubscriberFacts.
Import Webhook Delivery Outbox Subscribers.

Lemma has_url_spec url subs :
  has_url url subs = true ↔ url ∈ urls subs.
Proof.
  unfold has_url, urls. rewrite existsb_exists, list_elem_of_fmap. split.
  - intros (sub & Hin & Hu). apply bool_decide_eq_true in Hu.
    exists sub. split; [done|]. by apply list_elem_of_In.
  - intros (sub & -> & Hin). exists sub. split; [by apply list_elem_of_In|].
    by apply bool_decide_eq_true.
Qed.

Lemma add_step_lookup subscription evt e w :
  get_subscriptions evt
    (let subs := get_subscriptions e w in
     if negb (has_url (sub_url subscription) subs)
     then set_subscriptions (subscriptions_key e) (subs ++ [subscription]) w
     else w)
  = if decide (e = evt)
    then (if has_url (sub_url subscription) (get_subscriptions evt w)
          then get_subscriptions evt w
          else get_subscriptions evt w ++ [subscription])
    else get_subscriptions evt w.
Proof.
  cbn zeta. destruct (decide (e = evt)) as [->|Hne].
  - destruct (has_url _ _); cbn [negb]; [done|].
    rewrite get_set_subscriptions. by rewrite decide_True.
  - destruct (has_url _ _); cbn [negb]; [done|].
    rewrite get_set_subscriptions. by rewrite decide_False.
Qed.

Lemma has_url_snoc subscription subs :
  has_url (sub_url subscription) (subs ++ [subscription]) = true.
Proof.
  apply has_url_spec. unfold urls. rewrite fmap_app. apply elem_of_app. right.
  cbn. apply list_elem_of_here.
Qed.

Lemma add_to_events subscription events evt w :
  get_subscriptions evt
    (foldl (λ w event,
              let subs := get_subscriptions event w in
              if negb (has_url (sub_url subscription) subs)
              then set_subscriptions (subscriptions_key event) (subs ++ [subscription]) w
              else w) w events)
  = if decide (evt ∈ events)
    then (if has_url (sub_url subscription) (get_subscriptions evt w)
          then get_subscriptions evt w
          else get_subscriptions evt w ++ [subscription])
    else get_subscriptions evt w.
Proof.
  revert w. induction events as [|e events IH]; intros w.
  - by rewrite decide_False by apply not_elem_of_nil.
  - cbn [foldl]. rewrite IH, !add_step_lookup.
    destruct (decide (e = evt)) as [->|Hne].
    + rewrite (decide_True (P := evt ∈ evt :: events)) by apply list_elem_of_here.
      destruct (has_url _ (get_subscriptions evt w)) eqn:Hu.
      * rewrite Hu. by case_decide.
      * rewrite has_url_snoc. by case_decide.
    + destruct (decide (evt ∈ events)) as [Hin|Hnin].
      * by rewrite decide_True by by apply list_elem_of_further.
      * rewrite decide_False; [done|]. rewrite elem_of_cons. by intros [->|?].
Qed.

(** X17.  [add_subscription] returns a subscription for the URL; afterwards
    the URL is subscribed to each of the events, a list of subscriptions
    without duplicate URLs stays without duplicates, events not listed keep
    their subscriptions, and the subscriptions of an event are the old ones
    plus the new one where the event is listed and the URL was not yet
    subscribed. *)
Theorem X17_add_subscription md5 url events secret active utcnow w :
  let r := add_subscription md5 url events secret active utcnow w in
  sub_url r.1 = url
  ∧ (∀ evt, evt ∈ events → url ∈ urls (get_subscriptions evt r.2))
  ∧ (∀ evt, NoDup (urls (get_subscriptions evt w)) →
       NoDup (urls (get_subscriptions evt r.2)))
  ∧ (∀ evt, evt ∉ events → get_subscriptions evt r.2 = get_subscriptions evt w)
  ∧ (∀ evt sub, sub ∈ get_subscriptions evt r.2 ↔
       sub ∈ get_subscriptions evt w
       ∨ (sub = r.1 ∧ evt ∈ events ∧ url ∉ urls (get_subscriptions evt w))).
Proof.
  intros r. subst r. unfold add_subscription. cbn [fst snd].
  match goal with |- context [foldl _ w events] =>
    set (subscription := {| sub_id := md5 (Py.encode_utf8 url); sub_url := url;
                            sub_events := events; sub_secret := secret;
                            sub_active := active; sub_created_at := utcnow |}) end.
  assert (Hget : ∀ evt,
    get_subscriptions evt
      (foldl (λ w event,
                let subs := get_subscriptions event w in
                if negb (existsb (λ sub, bool_decide (sub_url sub = url)) subs)
                then set_subscriptions (subscriptions_key event) (subs ++ [subscription]) w
                else w) w events)
    = if decide (evt ∈ events)
      then (if has_url url (get_subscriptions evt w)
            then get_subscriptions evt w
            else get_subscriptions evt w ++ [subscription])
      else get_subscriptions evt w).
  { intros evt. exact (add_to_events subscription events evt w). }
  split; [done|]. split; [|split; [|split]].
  - intros evt Hin. rewrite Hget, decide_True by done.
    destruct (has_url url _) eqn:Hu; [by apply has_url_spec|].
    unfold urls. rewrite fmap_app. apply elem_of_app. right. apply list_elem_of_here.
  - intros evt Hnd. rewrite Hget. case_decide; [|done].
    destruct (has_url url _) eqn:Hu; [done|].
    unfold urls. rewrite fmap_app. apply NoDup_app. split; [done|]. split.
    + intros x Hx [->|[]%elem_of_nil]%elem_of_cons.
      apply has_url_spec in Hx.
      change (has_url url (get_subscriptions evt w) = true) in Hx. congruence.
    + apply NoDup_singleton.
  - intros evt Hnin. by rewrite Hget, decide_False.
  - intros evt sub. rewrite Hget. case_decide as Hin.
    + destruct (has_url url _) eqn:Hu.
      * split; [auto|]. intros [?|(_ & _ & Hn)]; [done|].
        by apply has_url_spec in Hu.
      * rewrite elem_of_app, list_elem_of_singleton. split.
        -- intros [?|Heq]; [auto|]. subst sub. right. split; [done|]. split; [done|].
           intros Hx%has_url_spec. congruence.
        -- intros [?|(Heq & _)]; [auto|]. subst sub. auto.
    + split; [auto|]. intros [?|(_ & ? & _)]; done.
Qed.

Lemma add_again_noop subscription events w :
  (∀ evt, evt ∈ events → has_url (sub_url subscription) (get_subscriptions evt w) = true) →
  foldl (λ w event,
           let subs := get_subscriptions event w in
           if negb (has_url (sub_url subscription) subs)
           then set_subscriptions (subscriptions_key event) (subs ++ [subscription]) w
           else w) w events = w.
Proof.
  induction events as [|e events IH]; intros Hall; [done|].
  cbn [foldl]. cbn zeta. rewrite (Hall e) by apply list_elem_of_here. cbn [negb].
  apply IH. intros evt Hin. apply Hall. by apply list_elem_of_further.
Qed.

(** X18.  Subscribing a URL a second time to the same events changes nothing,
    whatever the secret and the active flag of the second call: the first
    subscription, with its secret, stays in place. *)
Theorem X18_resubscribe_changes_nothing md5 url events secret active utcnow
    secret' active' utcnow' w :
  let w1 := (add_subscription md5 url events secret active utcnow w).2 in
  (add_subscription md5 url events secret' active' utcnow' w1).2 = w1.
Proof.
  intros w1.
  assert (Hsub : ∀ evt, evt ∈ events → url ∈ urls (get_subscriptions evt w1)).
  { intros evt Hin. subst w1. unfold add_subscription. cbn [snd].
    match goal with |- context [foldl _ w events] =>
      set (subscription := {| sub_id := md5 (Py.encode_utf8 url); sub_url := url;
                              sub_events := events; sub_secret := secret;
                              sub_active := active; sub_created_at := utcnow |}) end.
    pose proof (add_to_events subscription events evt w) as Hget.
    cbn [sub_url subscription] in Hget. unfold has_url in Hget at 1.
    rewrite Hget, decide_True by done.
    destruct (has_url url _) eqn:Hu; [by apply has_url_spec|].
    unfold urls. rewrite fmap_app. apply elem_of_app. right. apply list_elem_of_here. }
  clearbody w1. unfold add_subscription. cbn [snd].
  match goal with |- context [foldl _ w1 events] =>
    set (subscription := {| sub_id := md5 (Py.encode_utf8 url); sub_url := url;
                            sub_events := events; sub_secret := secret';
                            sub_active := active'; sub_created_at := utcnow' |}) end.
  apply (add_again_noop subscription events w1).
  intros evt Hin. apply has_url_spec. by apply Hsub.
Qed.

(** X19.  [remove_subscription] with an event removes the URL from that
    event only: the subscriptions of the event are the old ones without the
    URL, in their order, and every other event keeps its subscriptions.  An
    empty event name counts as no event: the URL is removed from all
    events. *)
Theorem X19_remove_one_event url event w :
  (event ≠ "" →
   let w' := remove_subscription url (Some event) w in
   get_subscriptions event w'
   = filter (λ sub, sub_url sub ≠ url) (get_subscriptions event w)
   ∧ (url ∉ urls (get_subscriptions event w'))
   ∧ (∀ evt, evt ≠ event → get_subscriptions evt w' = get_subscriptions evt w))
  ∧ remove_subscription url (Some "") w = remove_subscription url None w.
Proof.
  split; [|done]. intros Hev w'. subst w'. unfold remove_subscription.
  assert (Py.truthy_str (Some event) = true) as -> by by destruct event.
  cbn [default]. split; [|split].
  - rewrite remove_from_events. by rewrite decide_True by apply list_elem_of_here.
  - rewrite remove_from_events, decide_True by apply list_elem_of_here.
    unfold urls. intros (sub & Hu & Hin%list_elem_of_filter)%list_elem_of_fmap.
    by destruct Hin.
  - intros evt Hne. rewrite remove_from_events, decide_False; [done|].
    by intros ->%list_elem_of_singleton.
Qed.

Lemma send_webhook_posts self version url event payload secret headers utcnow endpoint w :
  let r := send_webhook self version url event payload secret headers utcnow endpoint w in
  ∃ es, effects r.2 = effects w ++ es
        ∧ subscriptions r.2 = subscriptions w
        ∧ ∀ u, u ∈ post_urls es → u = url.
Proof.
  intros r. subst r. unfold send_webhook.
  match goal with |- context [send_loop ?s ?u ?e ?b ?h ?t ?ep ?a ?w0] =>
    destruct (send_loop_effects s u e b h t ep a w0) as (es & He & Hs & Hp & _);
    destruct (send_loop s u e b h t ep a w0) as [[b'|] w'] end;
    cbn [fst snd] in *.
  all: exists es; split;
    [by unfold _log_webhook_delivery, set_deliveries; cbn [effects]|];
    split; [by unfold _log_webhook_delivery, set_deliveries; cbn [subscriptions]|].
  all: intros u (e & Hin & Hu)%list_elem_of_omap; rewrite Forall_forall in Hp;
    specialize (Hp e Hin); destruct e; try done; cbn in Hu;
    specialize (Hp eq_refl); congruence.
Qed.

Lemma send_webhook_accepted version url event payload secret headers utcnow endpoint
    status_code text w :
  endpoint 0 = Response status_code text → status_code ∈ [200; 201; 202; 204] →
  ∃ es, effects (send_webhook __init__ version url event payload secret headers utcnow
                   endpoint w).2 = effects w ++ es
        ∧ post_urls es = [url].
Proof.
  intros Hep Hcode. unfold send_webhook.
  change (Py.range (max_retries __init__)) with [0; 1; 2].
  cbn [send_loop]. rewrite Hep. unfold Py.in_ints.
  rewrite (bool_decide_eq_true_2 _ Hcode). cbn [fst snd].
  unfold _log_webhook_delivery, set_deliveries. cbn [emit effects].
  rewrite <- app_assoc. eexists. split; [reflexivity|]. done.
Qed.

Lemma notify_fold version event payload utcnow endpoint subs w :
  ∃ es, effects (foldl (notify_one version event payload utcnow endpoint) w subs)
        = effects w ++ es
        ∧ subscriptions (foldl (notify_one version event payload utcnow endpoint) w subs)
          = subscriptions w
        ∧ (∀ u, u ∈ post_urls es → u ∈ active_urls subs)
        ∧ (all_accept endpoint → post_urls es = active_urls subs).
Proof.
  revert w. induction subs as [|sub subs IH]; intros w.
  - exists []. cbn. rewrite app_nil_r. split; [done|]. split; [done|].
    split; [|done]. by intros u []%elem_of_nil.
  - cbn [foldl].
    destruct (IH (notify_one version event payload utcnow endpoint w sub))
      as (es & He & Hs & Hsub & Hall).
    rewrite He, Hs. unfold notify_one at 1 2. unfold active_urls.
    destruct (sub_active sub) eqn:Hact; cbn [negb].
    + destruct (send_webhook_posts __init__ version (sub_url sub) event payload
                  (sub_secret sub) None utcnow (endpoint (sub_url sub)) w)
        as (es0 & He0 & Hs0 & Hu0).
      exists (es0 ++ es). rewrite He0, Hs0, <- app_assoc.
      split; [done|]. split; [done|].
      rewrite filter_cons_True by done. rewrite fmap_cons.
      unfold post_urls in *. rewrite omap_app. split.
      * intros u [Hu|Hu]%elem_of_app.
        -- rewrite (Hu0 u Hu). apply list_elem_of_here.
        -- apply list_elem_of_further. by apply Hsub.
      * intros Hacc. rewrite (Hall Hacc).
        destruct (Hacc (sub_url sub)) as (code & text & Hep & Hcode).
        destruct (send_webhook_accepted version (sub_url sub) event payload
                    (sub_secret sub) None utcnow (endpoint (sub_url sub))
                    code text w Hep Hcode) as (es1 & He1 & Hp1).
        rewrite He0 in He1. apply app_inv_head in He1. subst es1.
        unfold post_urls in Hp1. by rewrite Hp1.
    + exists es. split; [done|]. split; [done|].
      rewrite filter_cons_False by (rewrite Hact; done). done.
Qed.

(** X20.  [send_webhook_notification] posts only to the URLs of active
    subscriptions of the event, and leaves the subscriptions as they are;
    when every subscriber accepts the first attempt, it posts to each active
    subscription once, in the order of the subscriptions. *)
Theorem X20_notification_targets version event payload utcnow endpoint w :
  let w' := send_webhook_notification version event payload utcnow endpoint w in
  ∃ es,
    effects w' = effects w ++ es
    ∧ subscriptions w' = subscriptions w
    ∧ (∀ u, u ∈ post_urls es → u ∈ active_urls (get_subscriptions event w))
    ∧ (all_accept endpoint → post_urls es = active_urls (get_subscriptions event w)).
Proof.
  intros w'. subst w'. unfold send_webhook_notification.
  apply (notify_fold version event payload utcnow endpoint).
Qed.

(** X20 at work: of two hooks the active one is notified. *)
Lemma X20_notification_targets_witness :
  post_urls (effects (send_webhook_notification "2.0" SCAN_COMPLETED
                        (JDict [("scan_id", JInt 42)]) "2024-01-03T00:00:00"
                        (λ _, always_ok) two_hooks))
  = [Registry.hook_url].
Proof.
  destruct (X20_notification_targets "2.0" SCAN_COMPLETED (JDict [("scan_id", JInt 42)])
              "2024-01-03T00:00:00" (λ _, always_ok) two_hooks)
    as (es & He & _ & _ & Hall).
  rewrite He. change (effects two_hooks) with (@nil Effect). cbn [app].
  rewrite Hall.
  - vm_compute. reflexivity.
  - intros url. exists 200, "OK". split; [reflexivity|]. constructor.
Defined.

End SubscriberFacts.

(** ** Signatures: format and canonical form *)

Section SignatureMore.
Import Webhook Canonical.

Lemma length_hex bs : String.length (SHA256.hex bs) = (2 * length bs)%nat.
Proof. induction bs as [|b bs IH]; [done|]. cbn [SHA256.hex String.length length]. lia. Qed.

Lemma hex_digits_only bs :
  Forall (λ c, c ∈ hex_digits) (list_ascii_of_string (SHA256.hex bs)).
Proof.
  induction bs as [|b bs IH]; [constructor|].
  cbn [SHA256.hex list_ascii_of_string].
  repeat (constructor; [apply hexchar_cases|]). exact IH.
Qed.

Lemma length_digest h : length (SHA256.digest h) = 32%nat.
Proof. reflexivity. Qed.

(** X22.  A signature of [_generate_signature] is ['sha256='] followed by 64
    lower-case hexadecimal digits, 71 characters in all, whatever the payload
    and the secret. *)
Theorem X22_signature_format payload secret :
  ∃ digest,
    _generate_signature payload secret = "sha256=" +:+ digest
    ∧ String.length digest = 64%nat
    ∧ Forall (λ c, c ∈ hex_digits) (list_ascii_of_string digest)
    ∧ String.length (_generate_signature payload secret) = 71%nat.
Proof.
  unfold _generate_signature. eexists. split; [reflexivity|].
  unfold SHA256.hexdigest.
  assert (String.length (SHA256.hex (SHA256.digest
            (SHA256.hmac (Py.encode_utf8 secret)
                         (Py.encode_utf8 (dumps true payload))))) = 64%nat) as Hlen.
  { by rewrite length_hex, length_digest. }
  split; [done|]. split; [apply hex_digits_only|].
  change ("sha256=" +:+ ?x) with
    (String "s" (String "h" (String "a" (String "2" (String "5" (String "6"
      (String "=" x))))))).
  cbn [String.length]. by rewrite Hlen.
Qed.

Lemma compare_as_OT a b : String.compare a b = String_as_OT.compare a b.
Proof.
  revert b. induction a as [|x a IH]; intros [|y b]; cbn; try done.
  all: rewrite IH; unfold Ascii.compare, Ascii_as_OT.compare;
    by destruct (N.compare _ _).
Qed.

Lemma ltb_irrefl a : String.ltb a a = false.
Proof.
  unfold String.ltb. rewrite compare_as_OT.
  destruct (String_as_OT.compare a a) eqn:Hc; try reflexivity.
  by apply (irreflexivity String_as_OT.lt) in Hc.
Qed.

Lemma ltb_trans a b c :
  String.ltb a b = true → String.ltb b c = true → String.ltb a c = true.
Proof.
  unfold String.ltb.
  rewrite (compare_as_OT a b), (compare_as_OT b c), (compare_as_OT a c).
  destruct (String_as_OT.compare a b) eqn:H1; cbn; try (intros; discriminate).
  destruct (String_as_OT.compare b c) eqn:H2; cbn; try (intros; discriminate).
  intros _ _. by rewrite (transitivity (R := String_as_OT.lt) H1 H2).
Qed.

Lemma ltb_connex a b :
  a ≠ b → String.ltb a b = false → String.ltb b a = true.
Proof.
  unfold String.ltb. intros Hne. rewrite (String.compare_antisym b a).
  destruct (String.compare a b) eqn:Hc; cbn; try (intros; discriminate); try reflexivity.
  by apply String.compare_eq_iff in Hc.
Qed.

Lemma key_lt_trans : Transitive key_lt.
Proof. intros a b c. apply ltb_trans. Qed.

Lemma key_lt_antisym : AntiSymm (=) key_lt.
Proof.
  intros a b H1 H2. pose proof (ltb_trans _ _ _ H1 H2) as H.
  by rewrite ltb_irrefl in H.
Qed.

Lemma insert_item_perm kv l : insert_item kv l ≡ₚ kv :: l.
Proof.
  induction l as [|kv' l IH]; [done|]. cbn [insert_item].
  destruct (String.ltb _ _); [done|]. rewrite IH. apply Permutation_swap.
Qed.

Lemma insert_item_sorted kv l :
  StronglySorted key_lt l → Forall (λ x, x.1 ≠ kv.1) l →
  StronglySorted key_lt (insert_item kv l).
Proof.
  induction 1 as [|kv' l Hl IH Hall]; intros Hne; cbn [insert_item].
  - by repeat constructor.
  - apply Forall_cons in Hne as [Hk Hne].
    destruct (String.ltb kv.1 kv'.1) eqn:Hlt.
    + constructor; [by constructor|]. constructor; [done|].
      eapply Forall_impl; [exact Hall|]. intros x Hx. by eapply key_lt_trans.
    + constructor; [by apply IH|]. rewrite insert_item_perm.
      constructor; [|done]. by apply ltb_connex.
Qed.

Lemma foldr_insert_perm r : foldr insert_item [] r ≡ₚ r.
Proof.
  induction r as [|kv r IH]; [done|]. cbn [foldr].
  by rewrite insert_item_perm, IH.
Qed.

Lemma sort_items_perm l : sort_items l ≡ₚ l.
Proof.
  unfold sort_items. rewrite foldr_insert_perm. symmetry. apply Permutation_rev.
Qed.

Lemma foldr_insert_sorted r :
  NoDup r.*1 → StronglySorted key_lt (foldr insert_item [] r).
Proof.
  induction r as [|kv r IH]; intros Hr; [constructor|].
  cbn [foldr]. rewrite fmap_cons in Hr. apply NoDup_cons in Hr as [Hk Hr].
  apply insert_item_sorted; [by apply IH|]. rewrite foldr_insert_perm.
  apply Forall_forall. intros x Hx Heq. apply Hk. rewrite <- Heq.
  apply list_elem_of_fmap. by exists x.
Qed.

Lemma sort_items_sorted l : NoDup l.*1 → StronglySorted key_lt (sort_items l).
Proof.
  intros Hnd. apply foldr_insert_sorted.
  by rewrite <- (Permutation_rev l).
Qed.

Lemma sort_items_canonical l l' :
  l ≡ₚ l' → NoDup l.*1 → sort_items l = sort_items l'.
Proof.
  intros Hp Hnd. apply (@StronglySorted_unique _ key_lt key_lt_antisym).
  - by apply sort_items_sorted.
  - apply sort_items_sorted. by rewrite <- Hp.
  - by rewrite !sort_items_perm.
Qed.

(** X23.  The signature does not depend on the order of the keys: two
    dictionaries with the same items in different orders (keys distinct, as
    in a dictionary) are serialised to the same text by
    [json.dumps(.., sort_keys=True)] and get the same signature. *)
Theorem X23_key_order_irrelevant items items' secret :
  items ≡ₚ items' → NoDup items.*1 →
  dumps true (JDict items) = dumps true (JDict items')
  ∧ _generate_signature (JDict items) secret = _generate_signature (JDict items') secret.
Proof.
  intros Hp Hnd.
  assert (dumps true (JDict items) = dumps true (JDict items')) as Hd.
  { cbn [dumps]. f_equal. f_equal. f_equal. f_equal.
    apply sort_items_canonical.
    - by apply fmap_Permutation.
    - rewrite <- list_fmap_compose. exact Hnd. }
  split; [done|]. unfold _generate_signature. by rewrite Hd.
Qed.

(** X23 at work: two keys in both orders. *)
Lemma X23_key_order_irrelevant_witness :
  dumps true (JDict [("scan_id", JInt 42); ("domain", JStr "example.com")])
  = dumps true (JDict [("domain", JStr "example.com"); ("scan_id", JInt 42)]).
Proof.
  refine (proj1 (X23_key_order_irrelevant
                   [("scan_id", JInt 42); ("domain", JStr "example.com")]
                   [("domain", JStr "example.com"); ("scan_id", JInt 42)] "" _ _)).
  - apply Permutation_swap.
  - cbn. repeat constructor; rewrite ?elem_of_cons, ?elem_of_nil; intuition discriminate.
Defined.

End SignatureMore.

(** ** Signatures on strings of any characters *)

Section UnicodeFacts.
Import Webhook Unicode.

(** The encoding at the ends of the ranges of one to four bytes, as Python
    gives it, and the surrogates. *)
Example encode_point_samples :
  Forall (λ x, encode_point x.1 = Some x.2)
    [(0, [0]); (127, [127]); (128, [194; 128]); (255, [195; 191]);
     (2047, [223; 191]); (2048, [224; 160; 128]); (8364, [226; 130; 172]);
     (55295, [237; 159; 191]); (57344, [238; 128; 128]); (65535, [239; 191; 191]);
     (65536, [240; 144; 128; 128]); (128512, [240; 159; 152; 128]);
     (1114111, [244; 143; 191; 191])]
  ∧ Forall (λ c, encode_point c = None) [55296; 56000; 57343].
Proof. split; repeat constructor. Qed.

Lemma encode_point_None c : encode_point c = None ↔ surrogate c = true.
Proof.
  unfold encode_point, surrogate.
  destruct (Z.ltb_spec c 128), (Z.ltb_spec c 2048), (Z.leb_spec 55296 c),
    (Z.leb_spec c 57343), (Z.ltb_spec c 65536); cbn; split; try done; lia.
Qed.

Lemma encode_utf8_None s : encode_utf8 s = None ↔ existsb surrogate s = true.
Proof.
  induction s as [|c s IH]; [done|]. cbn [encode_utf8 existsb].
  rewrite orb_true_iff, <- IH, <- encode_point_None.
  destruct (encode_point c), (encode_utf8 s); split; try done;
    try (intros [?|?]; done); auto.
Qed.

Lemma code_bound c : 0 ≤ Py.code c < 256.
Proof.
  unfold Py.code. pose proof (N_ascii_bounded c). lia.
Qed.

Lemma code_inj a b : Py.code a = Py.code b → a = b.
Proof.
  unfold Py.code. intros H. apply N2Z.inj in H.
  by rewrite <- (ascii_N_embedding a), <- (ascii_N_embedding b), H.
Qed.

Lemma points_inj a b : points a = points b → a = b.
Proof.
  revert b. induction a as [|x a IH]; intros [|y b]; try done.
  unfold points. cbn. intros [= H1 H2]. f_equal; [by apply code_inj|by apply IH].
Qed.

Lemma encode_utf8_points s : encode_utf8 (points s) = Some (Py.encode_utf8 s).
Proof.
  induction s as [|c s IH]; [done|].
  change (points (String c s)) with (Py.code c :: points s).
  cbn [encode_utf8 Py.encode_utf8]. rewrite IH.
  unfold encode_point, Py.encode_char. pose proof (code_bound c).
  destruct (Z.ltb_spec (Py.code c) 128); [done|].
  destruct (Z.ltb_spec (Py.code c) 2048); [done|lia].
Qed.

Lemma isascii_points s : isascii (points s) = Py.isascii s.
Proof.
  induction s as [|c s IH]; [done|].
  change (points (String c s)) with (Py.code c :: points s).
  cbn [isascii forallb Py.isascii]. by rewrite <- IH.
Qed.

Lemma startswith_points p s : startswith (points p) (points s) = Py.startswith p s.
Proof.
  revert s. induction p as [|a p IH]; intros [|b s]; try done.
  change (startswith (Py.code a :: points p) (Py.code b :: points s)
          = Py.startswith (String a p) (String b s)).
  cbn [startswith Py.startswith]. rewrite IH.
  destruct (decide (a = b)) as [->|Hne]; [by rewrite decide_True|].
  rewrite decide_False; [done|]. by intros ?%code_inj.
Qed.

Lemma drop_points n s : drop n (points s) = points (Py.str_drop n s).
Proof.
  revert s. induction n as [|n IH]; intros [|c s]; try done.
  change (drop (S n) (Py.code c :: points s) = points (Py.str_drop n s)).
  apply IH.
Qed.

Lemma startswith_prefix p s : startswith p s = true → s = p ++ drop (length p) s.
Proof.
  revert s. induction p as [|a p IH]; intros [|b s]; cbn [startswith]; try done.
  case_decide; [|done]. subst b. intros Hp. cbn. f_equal. by apply IH.
Qed.

Lemma isascii_stripped signature :
  isascii (if startswith (points "sha256=") signature then drop 7 signature
           else signature)
  = isascii signature.
Proof.
  destruct (startswith (points "sha256=") signature) eqn:Hp; [|done].
  apply startswith_prefix in Hp. rewrite Hp at 2.
  unfold isascii. by rewrite forallb_app.
Qed.

Lemma verify_signature_cases payload signature secret :
  ∃ b, verify_signature payload signature secret
       = if existsb surrogate (secret ++ payload) then inl UnicodeEncodeError
         else if isascii signature then inr b else inl TypeError.
Proof.
  unfold verify_signature. rewrite existsb_app.
  destruct (encode_utf8 secret) as [key|] eqn:Hk.
  2: { apply encode_utf8_None in Hk. rewrite Hk. by exists true. }
  assert (existsb surrogate secret = false) as ->
    by (apply not_true_iff_false; rewrite <- encode_utf8_None; congruence).
  destruct (encode_utf8 payload) as [msg|] eqn:Hm.
  2: { apply encode_utf8_None in Hm. rewrite Hm. by exists true. }
  assert (existsb surrogate payload = false) as ->
    by (apply not_true_iff_false; rewrite <- encode_utf8_None; congruence).
  cbn [orb]. rewrite isascii_stripped, isascii_points, hexdigest_isascii, andb_true_r.
  eexists. reflexivity.
Qed.

Lemma verify_signature_points payload signature secret :
  verify_signature (points payload) (points signature) (points secret)
  = match Webhook.verify_signature payload signature secret with
    | Some b => inr b
    | None => inl TypeError
    end.
Proof.
  unfold verify_signature, Webhook.verify_signature, compare_digest.
  rewrite !encode_utf8_points, startswith_points.
  replace (if Py.startswith "sha256=" signature then drop 7 (points signature)
           else points signature)
    with (points (if Py.startswith "sha256=" signature
                  then Py.str_drop 7 signature else signature))
    by (destruct (Py.startswith _ _); [by rewrite drop_points|done]).
  rewrite !isascii_points.
  destruct (_ && _); [|done]. f_equal. apply bool_decide_ext. split.
  - apply points_inj.
  - by intros ->.
Qed.

(** X21.  What [verify_signature] raises, for strings of any characters:
    [UnicodeEncodeError] exactly when the secret or the payload holds a
    surrogate; otherwise the [TypeError] of [hmac.compare_digest] exactly when
    the signature holds a character that is not ASCII; otherwise it returns a
    boolean.  On strings of characters up to U+00FF it is the function of the
    webhook model. *)
Theorem X21_verify_signature_raises payload signature secret :
  let r := verify_signature payload signature secret in
  (r = inl UnicodeEncodeError ↔ existsb surrogate (secret ++ payload) = true)
  ∧ (r = inl TypeError
     ↔ existsb surrogate (secret ++ payload) = false ∧ isascii signature = false)
  ∧ ((∃ b, r = inr b)
     ↔ existsb surrogate (secret ++ payload) = false ∧ isascii signature = true)
  ∧ (∀ payload' signature' secret',
       verify_signature (points payload') (points signature') (points secret')
       = match Webhook.verify_signature payload' signature' secret' with
         | Some b => inr b
         | None => inl TypeError
         end).
Proof.
  cbv zeta. destruct (verify_signature_cases payload signature secret) as [b ->].
  destruct (existsb surrogate (secret ++ payload)), (isascii signature).
  all: split; [|split; [|split; [|apply verify_signature_points]]].
  all: split; try done; try (by intros [? ?]); try (by intros [? [=]]); eauto.
Qed.

End UnicodeFacts.

(** ** Validation helpers of the base service *)

Section BaseServiceFacts.
Import ScanService Webhook BaseService.

Lemma missing_spec data field :
  missing data field = false ↔ ∃ v, data !! field = Some v ∧ v ≠ JNull.
Proof.
  unfold missing. destruct (data !! field) as [[]|]; split;
    try done; try (intros _; eexists; split; [reflexivity|done]).
  - by intros (v & [= <-] & Hv).
  - by intros (v & [=] & _).
Qed.

Lemma filter_bool_sublist {A} (f : A → bool) (l : list A) :
  List.filter f l `sublist_of` l.
Proof.
  induction l as [|x l IH]; cbn; [done|].
  destruct (f x); by constructor.
Qed.

Lemma filter_bool_elem {A} (f : A → bool) (l : list A) x :
  x ∈ List.filter f l ↔ x ∈ l ∧ f x = true.
Proof. rewrite !list_elem_of_In. apply filter_In. Qed.

(** X24.  [validate_required_fields] returns exactly when every required
    field is in the data with a value other than [None]; otherwise it raises
    [ValidationException] with the message ['Missing required fields: '
    followed by the missing fields, comma-separated, in the order of the
    required list: the fields that are absent or [None], and no others. *)
Theorem X24_required_fields data required_fields :
  (validate_required_fields data required_fields = inr ()
   ↔ ∀ field, field ∈ required_fields → ∃ v, data !! field = Some v ∧ v ≠ JNull)
  ∧ (∀ e, validate_required_fields data required_fields = inl e →
       ∃ missing_fields,
         e = ValidationException
               ("Missing required fields: " +:+ String.concat ", " missing_fields)
         ∧ missing_fields ≠ []
         ∧ missing_fields `sublist_of` required_fields
         ∧ ∀ field, field ∈ missing_fields ↔
             field ∈ required_fields
             ∧ (data !! field = None ∨ data !! field = Some JNull)).
Proof.
  unfold validate_required_fields.
  split.
  - split.
    + intros H field Hin. apply missing_spec.
      destruct (missing data field) eqn:Hm; [|done].
      assert (field ∈ List.filter (missing data) required_fields) as Hf
        by (by apply filter_bool_elem).
      destruct (List.filter _ required_fields); [by apply elem_of_nil in Hf|done].
    + intros H.
      destruct (List.filter _ required_fields) as [|f l] eqn:Hf; [done|exfalso].
      assert (f ∈ List.filter (missing data) required_fields) as Hin
        by (rewrite Hf; left).
      apply filter_bool_elem in Hin as [Hin Hm].
      apply H, missing_spec in Hin. congruence.
  - intros e.
    destruct (List.filter _ required_fields) as [|f l] eqn:Hf; [done|].
    intros [= <-]. exists (f :: l). split; [done|]. split; [done|].
    rewrite <- Hf. split; [apply filter_bool_sublist|].
    intros field. rewrite filter_bool_elem. unfold missing.
    destruct (data !! field) as [[]|]; intuition (auto; congruence).
Qed.

(** X25.  [validate_field_types] returns exactly when every listed field
    that is present with a value other than [None] is an instance of its
    expected type (absent and [None] fields pass); otherwise it raises
    [ValidationException] for the first offending field in the order of the
    type dictionary, all fields before it having passed. *)
Theorem X25_field_types data field_types :
  (validate_field_types data field_types = inr ()
   ↔ ∀ field expected_type v,
       (field, expected_type) ∈ field_types → data !! field = Some v → v ≠ JNull →
       isinstance v expected_type = true)
  ∧ (∀ e, validate_field_types data field_types = inl e →
       ∃ checked field expected_type rest v,
         field_types = checked ++ (field, expected_type) :: rest
         ∧ validate_field_types data checked = inr ()
         ∧ data !! field = Some v ∧ v ≠ JNull ∧ isinstance v expected_type = false
         ∧ e = ValidationException
                 ("Field '" +:+ field +:+ "' must be of type " +:+ type_name expected_type)).
Proof.
  induction field_types as [|[field ty] rest [IH1 IH2]].
  - split; [split; [intros _ ? ? ? []%elem_of_nil|done]|done].
  - cbn [validate_field_types].
    destruct (negb (missing data field)
              && negb (isinstance (default JNull (data !! field)) ty)) eqn:Hc.
    + apply andb_true_iff in Hc as [Hm Hi].
      apply negb_true_iff in Hm, Hi. apply missing_spec in Hm as (v & Hv & Hn).
      rewrite Hv in Hi. cbn in Hi. split.
      * split; [done|]. intros H.
        assert ((field, ty) ∈ (field, ty) :: rest) as Hin by left.
        specialize (H field ty v Hin Hv Hn). congruence.
      * intros e [= <-]. exists [], field, ty, rest, v. done.
    + split.
      * rewrite IH1. split.
        -- intros H f t v [[= -> ->]|Hin]%elem_of_cons Hv Hn; [|by eapply H].
           apply andb_false_iff in Hc as [Hc|Hc]; apply negb_false_iff in Hc.
           ++ assert (missing data field = false) as Hm
                by (apply missing_spec; eauto). congruence.
           ++ by rewrite Hv in Hc.
        -- intros H f t v Hin. apply H. by right.
      * intros e He. destruct (IH2 e He) as (checked & f & t & rest' & v & -> & Hok & ?).
        exists ((field, ty) :: checked), f, t, rest', v. split; [done|].
        split; [|done]. cbn [validate_field_types]. by rewrite Hc.
Qed.

End BaseServiceFacts.

(** ** The API actions *)

Section ViewFacts.
Import ScanService Lifecycle Findings Views.

Lemma abort_view_cases scan_id user rev now w :
  let r := abort (IntValue scan_id) user rev now w in
  (scans w !! scan_id = None ∧ status r.1 = 404 ∧ r.2 = w
   ∧ body r.1 = ErrorBody ("ScanHistory with identifier " +:+ pretty scan_id
                           +:+ " not found"))
  ∨ (∃ scan, scans w !! scan_id = Some scan ∧ (scan_status scan ∉ [-1; 1])
       ∧ status r.1 = 400 ∧ r.2 = w
       ∧ body r.1 = ErrorBody ("Cannot abort scan with status "
                               +:+ pretty (scan_status scan)
                               +:+ ". Only pending or running scans can be aborted."))
  ∨ (∃ scan s', scans w !! scan_id = Some scan ∧ scan_status scan ∈ [-1; 1]
       ∧ status r.1 = 200 ∧ r.2 = (abort_scan scan_id user rev now w).2
       ∧ body r.1 = ScanBody scan_id "aborted"
                      ("Scan " +:+ pretty scan_id +:+ " has been aborted")
       ∧ scans r.2 !! scan_id = Some s' ∧ scan_status s' = 3).
Proof.
  cbv zeta. unfold abort.
  destruct (abort_scan_cases w scan_id user rev now)
    as [(e & He & Hc)|(scan & s' & Hi & Hst & H1 & Hs & _ & H3 & _)].
  - rewrite He. revert He. unfold abort_scan.
    destruct Hc as [Hi|(scan & Hi & Hst)]; rewrite Hi.
    + intros [= <-]. left. done.
    + destruct (Py.in_ints (scan_status scan) [-1; 1]) eqn:Hb.
      { apply bool_decide_eq_true in Hb. done. }
      intros [= <-]. right. left. exists scan. done.
  - right. right. exists scan, s'.
    destruct (abort_scan scan_id user rev now w) as [[e|s] w'] eqn:Ha;
      cbn [fst snd] in *; [done|].
    injection H1 as ->. cbn [fst snd status body].
    rewrite Hs, lookup_insert_eq. done.
Qed.

(** X26.  The status codes of [ScanViewSet.abort]: 404 exactly for a scan
    that does not exist, 400 exactly for a scan that is neither pending nor
    running, 200 exactly for a pending or running scan.  Any answer other
    than 200 leaves the state unchanged; after a 200 the state is that of
    [abort_scan], and every repeated request for the same scan gets 400 and
    changes nothing.  A key that is not a number gets 500 and no scan or
    task is touched. *)
Theorem X26_abort_view scan_id user rev now w :
  let r := abort (IntValue scan_id) user rev now w in
  (status r.1 = 404 ↔ scans w !! scan_id = None)
  ∧ (status r.1 = 400
     ↔ ∃ scan, scans w !! scan_id = Some scan ∧ scan_status scan ∉ [-1; 1])
  ∧ (status r.1 = 200
     ↔ ∃ scan, scans w !! scan_id = Some scan ∧ scan_status scan ∈ [-1; 1])
  ∧ (status r.1 ≠ 200 → r.2 = w)
  ∧ (status r.1 = 200 →
       r.2 = (abort_scan scan_id user rev now w).2
       ∧ body r.1 = ScanBody scan_id "aborted"
                      ("Scan " +:+ pretty scan_id +:+ " has been aborted")
       ∧ ∀ user' rev' now',
           let r' := abort (IntValue scan_id) user' rev' now' r.2 in
           status r'.1 = 400 ∧ r'.2 = r.2)
  ∧ (∀ message,
       let r' := abort (IntError message) user rev now w in
       status r'.1 = 500 ∧ scans r'.2 = scans w ∧ revoked r'.2 = revoked w).
Proof.
  cbv zeta.
  destruct (abort_view_cases scan_id user rev now w)
    as [(Hi & Hs & Hw & Hb)|[(scan & Hi & Hst & Hs & Hw & Hb)
                            |(scan & s' & Hi & Hst & Hs & Hw & Hb & Hi' & Hst')]];
    rewrite Hs.
  - split; [done|]. split; [split; [done|intros (? & ? & _); congruence]|].
    split; [split; [done|intros (? & ? & _); congruence]|]. done.
  - split; [split; [done|congruence]|]. split; [split; [eauto|done]|].
    split; [split; [done|intros (? & ? & ?); congruence]|]. done.
  - split; [split; [done|congruence]|].
    split; [split; [done|intros (? & ? & ?); congruence]|].
    split; [split; [eauto|done]|]. split; [done|]. split; [|done].
    intros _. split; [done|]. split; [done|]. intros user' rev' now'.
    destruct (abort_view_cases scan_id user' rev' now'
                (abort (IntValue scan_id) user rev now w).2)
      as [(Hj & _)|[(scan2 & Hj & _ & Hs2 & Hw2 & _)
                   |(scan2 & _ & Hj & Hst2 & _)]].
    + congruence.
    + done.
    + rewrite Hi' in Hj. injection Hj as <-. rewrite Hst' in Hst2.
      rewrite !elem_of_cons, elem_of_nil in Hst2. lia.
Qed.

Lemma create_scan_cases d e u oos imp now w :
  let r := create_scan d e u oos imp now w in
  (domains w !! d = None
   ∧ r = (inl (ResourceNotFoundException "Domain" d), w))
  ∨ (∃ dom, domains w !! d = Some dom ∧ engines w !! e = None
       ∧ r = (inl (ResourceNotFoundException "EngineType" e), w))
  ∨ (∃ dom eng, domains w !! d = Some dom ∧ engines w !! e = Some eng
       ∧ exists_scan w d [-1; 1] = true
       ∧ r = (inl (ValidationException
                     ("There is already a running scan for domain '"
                      +:+ domain_name dom +:+ "'")), w))
  ∨ (∃ dom eng s, domains w !! d = Some dom ∧ engines w !! e = Some eng
       ∧ exists_scan w d [-1; 1] = false
       ∧ r.1 = inr (scan_seq w, s) ∧ domain s = d ∧ scan_status s = -1
       ∧ scans r.2 = <[scan_seq w := s]> (scans w)
       ∧ engines r.2 = engines w
       ∧ ∃ dom', domains r.2 !! d = Some dom' ∧ domain_name dom' = domain_name dom).
Proof.
  cbv zeta. unfold create_scan.
  destruct (domains w !! d) as [dom|] eqn:Hd; [|left; done].
  destruct (engines w !! e) as [eng|] eqn:He; [|right; left; eauto].
  destruct (exists_scan w d [-1; 1]) eqn:Hx; [right; right; left; eauto 6|].
  right. right. right. eexists dom, eng, _. cbn.
  do 7 (split; [reflexivity|]). split; [reflexivity|].
  eexists. rewrite lookup_insert_eq. done.
Qed.

(** X27.  The status codes of [DomainViewSet.start_scan] for a numeric key:
    only 201 and 400 occur; 201 exactly when the domain and the engine exist
    and the domain has no pending or running scan; a missing domain is
    answered with 400 (not 404) and the message of the not-found exception;
    a 400 leaves the state unchanged; after a 201, whose body names the new
    scan and the domain, the same request again is answered with 400
    ['There is already a running scan for domain ..'] and changes
    nothing. *)
Theorem X27_start_scan_view domain_id scan_type_id user oos imp now w :
  let r := start_scan (IntValue domain_id) scan_type_id user oos imp now w in
  (status r.1 = 201 ∨ status r.1 = 400)
  ∧ (status r.1 = 201
     ↔ is_Some (domains w !! domain_id) ∧ is_Some (engines w !! scan_type_id)
       ∧ exists_scan w domain_id [-1; 1] = false)
  ∧ (status r.1 = 400 → r.2 = w)
  ∧ (domains w !! domain_id = None →
       body r.1 = ErrorBody ("Domain with identifier " +:+ pretty domain_id
                             +:+ " not found"))
  ∧ (status r.1 = 201 →
       ∃ dom, domains w !! domain_id = Some dom
         ∧ body r.1 = ScanBody (scan_seq w) "initiated"
                        ("Scan initiated for domain " +:+ domain_name dom)
         ∧ ∀ user' oos' imp' now',
             start_scan (IntValue domain_id) scan_type_id user' oos' imp' now' r.2
             = ({| body := ErrorBody ("There is already a running scan for domain '"
                                      +:+ domain_name dom +:+ "'");
                   status := 400 |}, r.2)).
Proof.
  cbv zeta. unfold start_scan.
  destruct (create_scan_cases domain_id scan_type_id user oos imp now w)
    as [(Hd & Hr)|[(dom & Hd & He & Hr)|[(dom & eng & Hd & He & Hx & Hr)
       |(dom & eng & s & Hd & He & Hx & Hr & Hds & Hst & Hsc & Heng & dom' & Hd' & Hn)]]].
  - rewrite Hr. cbn. split; [auto|]. split; [split; [done|]|].
    { intros ([? ?] & _). congruence. }
    done.
  - rewrite Hr. cbn. split; [auto|]. split; [split; [done|]|].
    { intros (_ & [? ?] & _). congruence. }
    split; [done|]. split; [congruence|done].
  - rewrite Hr. cbn. split; [auto|]. split; [split; [done|]|].
    { intros (_ & _ & ?). congruence. }
    split; [done|]. split; [congruence|done].
  - destruct (create_scan domain_id scan_type_id user oos imp now w)
      as [[e|[pk s0]] w'] eqn:Hc; cbn [fst snd] in *; [done|].
    injection Hr as -> ->. cbn [status body fst snd].
    split; [auto|]. split; [split; [eauto|done]|]. split; [done|].
    split; [congruence|]. intros _. exists dom. split; [done|].
    rewrite Hds, Hd'. cbn. rewrite Hn. split; [done|].
    intros user' oos' imp' now'.
    destruct (create_scan_cases domain_id scan_type_id user' oos' imp' now' w')
      as [(Hd2 & _)|[(dom2 & _ & He2 & _)|[(dom2 & eng2 & Hd2 & _ & _ & Hr2)
         |(dom2 & eng2 & s2 & _ & _ & Hx2 & _)]]].
    + congruence.
    + congruence.
    + rewrite Hr2. rewrite Hd' in Hd2. injection Hd2 as <-. by rewrite Hn.
    + exfalso. apply not_true_iff_false in Hx2. apply Hx2.
      apply exists_scan_spec. exists (scan_seq w), s.
      rewrite Hsc, lookup_insert_eq, Hst. split; [done|]. split; [done|]. left.
Qed.

Lemma findings_view_cases scan_id severity limit offset w t :
  let rv := vulnerabilities_view (IntValue scan_id) (IntValue <$> severity)
              (Some (IntValue limit)) (Some (IntValue offset)) w t in
  let rs := subdomains_view (IntValue scan_id)
              (Some (IntValue limit)) (Some (IntValue offset)) w t in
  (scans w !! scan_id = None
   ∧ status rv.1 = 404 ∧ status rs.1 = 404 ∧ rv.2 = w ∧ rs.2 = w
   ∧ body rv.1 = ErrorBody ("ScanHistory with identifier " +:+ pretty scan_id
                            +:+ " not found")
   ∧ body rs.1 = body rv.1)
  ∨ (is_Some (scans w !! scan_id) ∧ (offset < 0 ∨ offset + limit < 0)
     ∧ status rv.1 = 500 ∧ status rs.1 = 500
     ∧ body rv.1 = ErrorBody "An unexpected error occurred"
     ∧ body rs.1 = ErrorBody "An unexpected error occurred"
     ∧ rv.2 = add_log "Error getting scan vulnerabilities: Negative indexing is not supported." w
     ∧ rs.2 = add_log "Error getting scan subdomains: Negative indexing is not supported." w)
  ∨ (is_Some (scans w !! scan_id) ∧ 0 ≤ offset ∧ 0 ≤ offset + limit
     ∧ status rv.1 = 200 ∧ status rs.1 = 200 ∧ rv.2 = w ∧ rs.2 = w
     ∧ ∃ pv ps,
         get_scan_vulnerabilities scan_id severity limit offset w t = inr pv
         ∧ get_scan_subdomains scan_id limit offset w t = inr ps
         ∧ body rv.1 = VulnerabilitiesBody pv ∧ body rs.1 = SubdomainsBody ps).
Proof.
  cbv zeta. unfold vulnerabilities_view, subdomains_view, query_int.
  assert (match IntValue <$> severity with
          | Some (IntValue n) => Some n | _ => None end = severity) as Hsev
    by (by destruct severity).
  destruct severity as [sv|]; cbn [fmap option_fmap option_map] in *;
    rewrite ?Hsev; clear Hsev.
  all: unfold get_scan_vulnerabilities, get_scan_subdomains.
  all: destruct (scans w !! scan_id) as [scan|] eqn:Hi;
    [rewrite (bool_decide_eq_true_2 (is_Some (Some scan))) by eauto
    |rewrite (bool_decide_eq_false_2 (is_Some None)) by (by intros [? ?])];
    cbn [negb]; [|left; done].
  all: right.
  all: destruct (decide (offset < 0 ∨ offset + limit < 0)) as [Hneg|Hpos];
    [left; rewrite !slice_None by done; cbn; split; [eauto|done]
    |right; rewrite !slice_Some by lia; cbn;
     split; [eauto|]; split; [lia|]; split; [lia|];
     do 4 (split; [done|]); eexists _, _; done].
Qed.

(** X28.  [ScanViewSet.vulnerabilities] and [ScanViewSet.subdomains] answer
    with the same status code for the same scan, limit and offset: 404
    exactly when the scan does not exist; 500 exactly when the scan exists
    and the offset is negative or the limit is below minus the offset (the
    uncaught slice error of the service); 200 otherwise, the body being the
    window of the ordered listing.  Any answer other than 500 leaves the
    state unchanged, and no answer changes a scan. *)
Theorem X28_findings_views scan_id severity limit offset w t :
  let rv := vulnerabilities_view (IntValue scan_id) (IntValue <$> severity)
              (Some (IntValue limit)) (Some (IntValue offset)) w t in
  let rs := subdomains_view (IntValue scan_id)
              (Some (IntValue limit)) (Some (IntValue offset)) w t in
  status rv.1 = status rs.1
  ∧ (status rv.1 = 404 ↔ scans w !! scan_id = None)
  ∧ (status rv.1 = 500
     ↔ is_Some (scans w !! scan_id) ∧ (offset < 0 ∨ offset + limit < 0))
  ∧ (status rv.1 = 200
     ↔ is_Some (scans w !! scan_id) ∧ 0 ≤ offset ∧ 0 ≤ offset + limit)
  ∧ (status rv.1 = 200 →
       body rv.1 = VulnerabilitiesBody
                     {| page_count := Z.of_nat (length (vulnerability_queryset
                                                          scan_id severity t));
                        page_limit := limit; page_offset := offset;
                        page_results :=
                          map (vulnerability_result t)
                            (take (Z.to_nat limit)
                               (drop (Z.to_nat offset)
                                  (merge_sort vuln_before
                                     (vulnerability_queryset scan_id severity t)))) |})
  ∧ (status rv.1 ≠ 500 → rv.2 = w ∧ rs.2 = w)
  ∧ scans rv.2 = scans w ∧ scans rs.2 = scans w.
Proof.
  cbv zeta.
  destruct (findings_view_cases scan_id severity limit offset w t)
    as [(Hi & Hv & Hs & Hwv & Hws & _)
       |[(Hi & Hneg & Hv & Hs & _ & _ & Hwv & Hws)
        |(Hi & Ho & Hl & Hv & Hs & Hwv & Hws & pv & ps & Hpv & _ & Hbv & _)]];
    rewrite Hv, Hs, Hwv, Hws.
  - split; [done|]. split; [done|].
    split; [split; [done|intros [[? ?] _]; congruence]|].
    split; [split; [done|intros [[? ?] _]; congruence]|]. done.
  - split; [done|]. split; [split; [done|intros ?; destruct Hi; congruence]|].
    split; [done|]. split; [split; [done|lia]|]. done.
  - split; [done|]. split; [split; [done|intros ?; destruct Hi; congruence]|].
    split; [split; [done|lia]|]. split; [done|]. split; [|done].
    intros _. rewrite Hbv. f_equal. revert Hpv. unfold get_scan_vulnerabilities.
    rewrite (scan_found _ _ Hi), slice_Some by done.
    intros [= <-]. do 3 f_equal. lia.
Qed.

(** X29.  Without query parameters the two listing views of an existing scan
    answer 200 with the page the service returns for limit 100 and offset 0,
    which holds at most 100 entries, and leave the state unchanged. *)
Theorem X29_default_page scan_id w t :
  is_Some (scans w !! scan_id) →
  ∃ pv ps,
    vulnerabilities_view (IntValue scan_id) None None None w t
    = ({| body := VulnerabilitiesBody pv; status := 200 |}, w)
    ∧ subdomains_view (IntValue scan_id) None None w t
      = ({| body := SubdomainsBody ps; status := 200 |}, w)
    ∧ get_scan_vulnerabilities scan_id None 100 0 w t = inr pv
    ∧ get_scan_subdomains scan_id 100 0 w t = inr ps
    ∧ page_limit pv = 100 ∧ page_offset pv = 0 ∧ page_limit ps = 100 ∧ page_offset ps = 0
    ∧ (length (page_results pv) ≤ 100)%nat ∧ (length (page_results ps) ≤ 100)%nat.
Proof.
  intros Hi. unfold vulnerabilities_view, subdomains_view, query_int.
  unfold get_scan_vulnerabilities, get_scan_subdomains.
  rewrite (scan_found _ _ Hi), !slice_Some by lia.
  eexists _, _. do 4 (split; [reflexivity|]). cbn [page_limit page_offset page_results].
  do 4 (split; [done|]). rewrite !length_map, !length_take. lia.
Qed.

(** X29 at work: the listings of the running scan. *)
Lemma X29_default_page_witness :
  ∃ pv ps,
    vulnerabilities_view (IntValue 1) None None None Scenario.db_running Catalogue.tables
    = ({| body := VulnerabilitiesBody pv; status := 200 |}, Scenario.db_running)
    ∧ subdomains_view (IntValue 1) None None Scenario.db_running Catalogue.tables
      = ({| body := SubdomainsBody ps; status := 200 |}, Scenario.db_running)
    ∧ page_limit pv = 100 ∧ page_count pv = 5 ∧ page_count ps = 3.
Proof.
  destruct (X29_default_page 1 Scenario.db_running Catalogue.tables
              (ex_intro _ _ eq_refl))
    as (pv & ps & H1 & H2 & H3 & H4 & H5 & _).
  exists pv, ps. do 3 (split; [assumption|]).
  vm_compute in H3. injection H3 as <-.
  vm_compute in H4. injection H4 as <-. split; reflexivity.
Defined.

End ViewFacts.
